(** * C3-Flow: the push-to-talk orchestrator of [main.js]

    A shallow embedding of the recording state machine, the input
    smoothing, the worker framing protocol, the float-to-PCM conversion
    and the paste injection of [src/main.js], with the properties the
    specification states about them.

    JavaScript numbers are IEEE 754 binary64 values; they are modelled by
    the Standard Library's [spec_float] at precision 53 and maximal
    exponent 1024, whose operations are plain Rocq functions.  Buffers are
    lists of bytes, a byte being a [Z] in [0, 256).  Strings are lists of
    UTF-16 code units.  The module-level [let] variables of [main.js] and
    the part of the host the handlers touch (clock, timer queue, child
    processes, clipboard, focus) form one record, [World]; every handler is
    a function from worlds to worlds, and the event loop is a partial step
    function on events.

    Beyond what the specification states, the development covers the
    keyboard records of the paste, the WAV header, the interpreter
    lookup, the lines of the worker's output, the staged hide of the
    indicator, and invariants of the event loop: what every turn sends,
    when the state moves, the capture signals, the single worker and the
    first-run hint. *)

From Stdlib Require Import ZArith List Bool Lia.
From Stdlib Require Import Floats.SpecFloat.
Import ListNotations.

Local Open Scope Z_scope.

(* ################################################################## *)
(** * Part I: the program *)
(* ################################################################## *)

(* ================================================================== *)
(** * JavaScript numbers *)
(* ================================================================== *)

Module JsNum.

Definition prec : Z := 53.
Definition emax : Z := 1024.

Definition number := spec_float.

(** A well-formed binary64 value: canonical mantissa, exponent in range. *)
Definition valid (x : number) : bool := valid_binary prec emax x.

Definition of_Z (z : Z) : number := binary_normalize prec emax z 0 false.
Definition mul (x y : number) : number := SFmul prec emax x y.
Definition ltb (x y : number) : bool := SFltb x y.

Definition is_nan (x : number) : bool :=
  match x with S754_nan => true | _ => false end.

Definition is_zero (x : number) : bool :=
  match x with S754_zero _ => true | _ => false end.

Definition sign_bit (x : number) : bool :=
  match x with
  | S754_zero s | S754_infinity s | S754_finite s _ _ => s
  | S754_nan => false
  end.

(** [Math.min(a, b)]: NaN if either is NaN, and -0 is below +0. *)
Definition min (a b : number) : number :=
  if is_nan a || is_nan b then S754_nan
  else if ltb a b then a
  else if ltb b a then b
  else if is_zero a && is_zero b then (if sign_bit a then a else b)
  else a.

(** [Math.max(a, b)]: NaN if either is NaN, and +0 is above -0. *)
Definition max (a b : number) : number :=
  if is_nan a || is_nan b then S754_nan
  else if ltb b a then a
  else if ltb a b then b
  else if is_zero a && is_zero b then (if sign_bit a then b else a)
  else a.

(** The integer part, rounding towards zero; NaN and the infinities
    give 0, as in the ToInt/ToUint conversions of ECMAScript. *)
Definition trunc (x : number) : Z :=
  match x with
  | S754_finite s m e =>
      let a := match e with
               | Zneg k => Z.shiftr (Zpos m) (Zpos k)
               | _ => Z.shiftl (Zpos m) e
               end in
      if s then - a else a
  | _ => 0
  end.

Definition ToUint8 (x : number) : Z := Z.land (trunc x) 255.
Definition ToUint32 (x : number) : Z := (trunc x) mod 2 ^ 32.

(** [x >>> n] for a number [x]. *)
Definition ushr (x : number) (n : Z) : Z := Z.shiftr (ToUint32 x) n.

Definition one : number := of_Z 1.
Definition minus_one : number := of_Z (-1).
Definition zero : number := S754_zero false.


End JsNum.

(* ================================================================== *)
(** * Buffers *)
(* ================================================================== *)

Definition byte := Z.
Definition Buffer := list byte.

Definition is_byte (b : byte) : Prop := 0 <= b < 256.

(** [buf.writeUInt8(v)], one byte. *)
Definition writeUInt8 (v : Z) : Buffer := [Z.land v 255].

(** [buf.writeUInt32LE(v)]: the four bytes, least significant first.  Node
    throws a RangeError when [v] is not in [0, 2^32); [None] stands for it. *)
Definition writeUInt32LE (v : Z) : option Buffer :=
  if (0 <=? v) && (v <? 2 ^ 32) then
    Some [ Z.land v 255;
           Z.land (Z.shiftr v 8) 255;
           Z.land (Z.shiftr v 16) 255;
           Z.land (Z.shiftr v 24) 255 ]
  else None.

(** [buf.readUInt32LE()] on a four-byte buffer. *)
Definition readUInt32LE (b : Buffer) : option Z :=
  match b with
  | [b0; b1; b2; b3] =>
      Some (Z.lor b0 (Z.lor (Z.shiftl b1 8) (Z.lor (Z.shiftl b2 16) (Z.shiftl b3 24))))
  | _ => None
  end.

(** [buf.writeInt16LE(value, offset)] as Node implements it: a range check
    on the number (NaN passes both comparisons), then the two byte stores
    [buf[o] = value; buf[o+1] = value >>> 8]. *)
Definition writeInt16LE (value : JsNum.number) : option Buffer :=
  if JsNum.ltb (JsNum.of_Z 32767) value || JsNum.ltb value (JsNum.of_Z (-32768))
  then None
  else Some [ JsNum.ToUint8 value; Z.land (JsNum.ushr value 8) 255 ].


(* ================================================================== *)
(** * Float to 16-bit PCM ([float32ToInt16]) *)
(* ================================================================== *)

(** [Math.max(-1, Math.min(1, x))] *)
Definition clip (x : JsNum.number) : JsNum.number :=
  JsNum.max JsNum.minus_one (JsNum.min JsNum.one x).

(** [s < 0 ? s * 0x8000 : s * 0x7FFF] *)
Definition scale (s : JsNum.number) : JsNum.number :=
  if JsNum.ltb s JsNum.zero then JsNum.mul s (JsNum.of_Z 32768)
  else JsNum.mul s (JsNum.of_Z 32767).

(** One iteration of the loop: the two bytes stored at [i * 2]. *)
Definition sample16 (x : JsNum.number) : option Buffer :=
  writeInt16LE (scale (clip x)).

(** The whole loop; [None] when a store throws. *)
Fixpoint float32ToInt16 (floatArray : list JsNum.number) : option Buffer :=
  match floatArray with
  | [] => Some []
  | x :: rest =>
      match sample16 x with
      | None => None
      | Some two =>
          match float32ToInt16 rest with
          | None => None
          | Some buf => Some (two ++ buf)
          end
      end
  end.

(* ================================================================== *)
(** * Strings *)
(* ================================================================== *)

(** A JavaScript string: its UTF-16 code units. *)
Definition jsstring := list Z.

Fixpoint jsstring_eqb (a b : jsstring) : bool :=
  match a, b with
  | [], [] => true
  | x :: a', y :: b' => (x =? y) && jsstring_eqb a' b'
  | _, _ => false
  end.

(** [!s] on a string: only the empty string is falsy. *)
Definition falsy (s : jsstring) : bool :=
  match s with [] => true | _ => false end.

(** The code units [String.prototype.trim] strips: ECMAScript's WhiteSpace
    (TAB, VT, FF, SP, NBSP, ZWNBSP and the category Zs) and LineTerminator
    (LF, CR, LS, PS). *)
Definition is_whitespace (c : Z) : bool :=
  (c =? 9) || (c =? 10) || (c =? 11) || (c =? 12) || (c =? 13) || (c =? 32)
  || (c =? 160) || (c =? 5760) || ((8192 <=? c) && (c <=? 8202))
  || (c =? 8232) || (c =? 8233) || (c =? 8239) || (c =? 8287)
  || (c =? 12288) || (c =? 65279).

Fixpoint trimStart (s : jsstring) : jsstring :=
  match s with
  | c :: s' => if is_whitespace c then trimStart s' else s
  | [] => []
  end.

Definition trimEnd (s : jsstring) : jsstring := rev (trimStart (rev s)).

Definition trim (s : jsstring) : jsstring := trimEnd (trimStart s).

(** [s.split(/\r?\n/)]: cut at every LF, or CR LF. *)
Fixpoint split_lines_aux (cur : jsstring) (s : jsstring) : list jsstring :=
  match s with
  | [] => [rev cur]
  | 13 :: 10 :: s' => rev cur :: split_lines_aux [] s'
  | 10 :: s' => rev cur :: split_lines_aux [] s'
  | c :: s' => split_lines_aux (c :: cur) s'
  end.

Definition split_lines (s : jsstring) : list jsstring := split_lines_aux [] s.

(** The code units of ['TRANSCRIBED_FINISH']. *)
Definition TRANSCRIBED_FINISH : jsstring :=
  [84; 82; 65; 78; 83; 67; 82; 73; 66; 69; 68; 95; 70; 73; 78; 73; 83; 72].

(* ================================================================== *)
(** * The state of the orchestrator *)
(* ================================================================== *)

(** [const STATE = { IDLE, RECORDING, STOPPING, FINALIZING }] *)
Inductive State := IDLE | RECORDING | STOPPING | FINALIZING.

Definition State_eqb (a b : State) : bool :=
  match a, b with
  | IDLE, IDLE | RECORDING, RECORDING
  | STOPPING, STOPPING | FINALIZING, FINALIZING => true
  | _, _ => false
  end.

(** What the guards of the send functions read of [asrProcess]. *)
Record ChildProcess := mkChild {
  pid : nat;
  stdin : bool;      (** [asrProcess.stdin] is not null *)
  killed : bool      (** [asrProcess.killed] *)
}.

(** The four callbacks [main.js] hands to [setTimeout]. *)
Inductive Callback :=
| CbStop       (** [() => { stopRecording(); stopTimer = null; }] *)
| CbRespawn    (** [startASRWorker] *)
| CbFade       (** the fade-out stage of [hideIndicator] *)
| CbHide.      (** the final hide of [hideIndicator] *)

Record Timer := mkTimer { tid : nat; due : Z; cb : Callback }.

Inductive RecorderMsg := StartCapture | StopCapture.
Inductive IndicatorMsg := SetListening | SetStopping | ShowHint | FadeOut.

(** What leaves the main process. *)
Inductive Effect :=
| WorkerWrite (p : nat) (bytes : Buffer)   (** [asrProcess.stdin.write(bytes)] *)
| RecorderSend (m : RecorderMsg)           (** [recorderWindow.webContents.send] *)
| IndicatorSend (m : IndicatorMsg)         (** [indicatorWindow.webContents.send] *)
| Blur                                     (** [w.blur()] on the focused window *)
| SendInputPaste                           (** [SendInput(4, PASTE_BUFFER, INPUT_SIZE)] *)
| FirstRunMarker                           (** the [.firstrun] file is written *)
| SaveSettings (paused : bool)             (** [saveSettings()] *)
| Spawn (p : nat).                         (** [spawn(pythonPath, [scriptPath])] *)

Record World := mkWorld {
  currentState : State;  (** [let currentState] *)
  pcmBuffers : list Buffer;
  recordingStartTime : option Z;
  recorderWindow : bool;  (** [recorderWindow] is not null *)
  ctrlDown : bool;
  winDown : bool;
  stopTimer : option nat;  (** the handle [setTimeout] returned, or null *)
  indicatorWindow : option bool;  (** [Some v]: the window exists and [isVisible()] is [v] *)
  firstRunShown : bool;
  isPaused : bool;
  asrProcess : option ChildProcess;
  lastReleaseTime : Z;
  now : Z;  (** the host: clock in milliseconds *)
  timers : list Timer;  (** pending one-shot timers, oldest first *)
  nextTimer : nat;
  children : list nat;  (** spawned children whose [close] has not been emitted *)
  nextPid : nat;
  pythonPath : bool;  (** [getPythonPath()] resolves *)
  win32 : bool;  (** [process.platform === 'win32'] *)
  clipboard : jsstring;
  appFocused : bool;  (** one of the application's windows has focus *)
  out : list Effect;  (** everything the handlers sent out, oldest first *)
  history : list State  (** ghost: the states assigned to [currentState], oldest first *)
}.

Definition set_currentState (v : State) (w : World) : World :=
  mkWorld
    v (pcmBuffers w) (recordingStartTime w) (recorderWindow w) (ctrlDown w)
    (winDown w) (stopTimer w) (indicatorWindow w) (firstRunShown w)
    (isPaused w) (asrProcess w) (lastReleaseTime w) (now w) (timers w)
    (nextTimer w) (children w) (nextPid w) (pythonPath w) (win32 w)
    (clipboard w) (appFocused w) (out w) (history w).

Definition set_pcmBuffers (v : list Buffer) (w : World) : World :=
  mkWorld
    (currentState w) v (recordingStartTime w) (recorderWindow w) (ctrlDown w)
    (winDown w) (stopTimer w) (indicatorWindow w) (firstRunShown w)
    (isPaused w) (asrProcess w) (lastReleaseTime w) (now w) (timers w)
    (nextTimer w) (children w) (nextPid w) (pythonPath w) (win32 w)
    (clipboard w) (appFocused w) (out w) (history w).

Definition set_recordingStartTime (v : option Z) (w : World) : World :=
  mkWorld
    (currentState w) (pcmBuffers w) v (recorderWindow w) (ctrlDown w)
    (winDown w) (stopTimer w) (indicatorWindow w) (firstRunShown w)
    (isPaused w) (asrProcess w) (lastReleaseTime w) (now w) (timers w)
    (nextTimer w) (children w) (nextPid w) (pythonPath w) (win32 w)
    (clipboard w) (appFocused w) (out w) (history w).

Definition set_ctrlDown (v : bool) (w : World) : World :=
  mkWorld
    (currentState w) (pcmBuffers w) (recordingStartTime w) (recorderWindow w)
    v (winDown w) (stopTimer w) (indicatorWindow w) (firstRunShown w)
    (isPaused w) (asrProcess w) (lastReleaseTime w) (now w) (timers w)
    (nextTimer w) (children w) (nextPid w) (pythonPath w) (win32 w)
    (clipboard w) (appFocused w) (out w) (history w).

Definition set_winDown (v : bool) (w : World) : World :=
  mkWorld
    (currentState w) (pcmBuffers w) (recordingStartTime w) (recorderWindow w)
    (ctrlDown w) v (stopTimer w) (indicatorWindow w) (firstRunShown w)
    (isPaused w) (asrProcess w) (lastReleaseTime w) (now w) (timers w)
    (nextTimer w) (children w) (nextPid w) (pythonPath w) (win32 w)
    (clipboard w) (appFocused w) (out w) (history w).

Definition set_stopTimer (v : option nat) (w : World) : World :=
  mkWorld
    (currentState w) (pcmBuffers w) (recordingStartTime w) (recorderWindow w)
    (ctrlDown w) (winDown w) v (indicatorWindow w) (firstRunShown w)
    (isPaused w) (asrProcess w) (lastReleaseTime w) (now w) (timers w)
    (nextTimer w) (children w) (nextPid w) (pythonPath w) (win32 w)
    (clipboard w) (appFocused w) (out w) (history w).

Definition set_indicatorWindow (v : option bool) (w : World) : World :=
  mkWorld
    (currentState w) (pcmBuffers w) (recordingStartTime w) (recorderWindow w)
    (ctrlDown w) (winDown w) (stopTimer w) v (firstRunShown w) (isPaused w)
    (asrProcess w) (lastReleaseTime w) (now w) (timers w) (nextTimer w)
    (children w) (nextPid w) (pythonPath w) (win32 w) (clipboard w)
    (appFocused w) (out w) (history w).

Definition set_firstRunShown (v : bool) (w : World) : World :=
  mkWorld
    (currentState w) (pcmBuffers w) (recordingStartTime w) (recorderWindow w)
    (ctrlDown w) (winDown w) (stopTimer w) (indicatorWindow w) v (isPaused w)
    (asrProcess w) (lastReleaseTime w) (now w) (timers w) (nextTimer w)
    (children w) (nextPid w) (pythonPath w) (win32 w) (clipboard w)
    (appFocused w) (out w) (history w).

Definition set_isPaused (v : bool) (w : World) : World :=
  mkWorld
    (currentState w) (pcmBuffers w) (recordingStartTime w) (recorderWindow w)
    (ctrlDown w) (winDown w) (stopTimer w) (indicatorWindow w)
    (firstRunShown w) v (asrProcess w) (lastReleaseTime w) (now w) (timers w)
    (nextTimer w) (children w) (nextPid w) (pythonPath w) (win32 w)
    (clipboard w) (appFocused w) (out w) (history w).

Definition set_asrProcess (v : option ChildProcess) (w : World) : World :=
  mkWorld
    (currentState w) (pcmBuffers w) (recordingStartTime w) (recorderWindow w)
    (ctrlDown w) (winDown w) (stopTimer w) (indicatorWindow w)
    (firstRunShown w) (isPaused w) v (lastReleaseTime w) (now w) (timers w)
    (nextTimer w) (children w) (nextPid w) (pythonPath w) (win32 w)
    (clipboard w) (appFocused w) (out w) (history w).

Definition set_lastReleaseTime (v : Z) (w : World) : World :=
  mkWorld
    (currentState w) (pcmBuffers w) (recordingStartTime w) (recorderWindow w)
    (ctrlDown w) (winDown w) (stopTimer w) (indicatorWindow w)
    (firstRunShown w) (isPaused w) (asrProcess w) v (now w) (timers w)
    (nextTimer w) (children w) (nextPid w) (pythonPath w) (win32 w)
    (clipboard w) (appFocused w) (out w) (history w).

Definition set_now (v : Z) (w : World) : World :=
  mkWorld
    (currentState w) (pcmBuffers w) (recordingStartTime w) (recorderWindow w)
    (ctrlDown w) (winDown w) (stopTimer w) (indicatorWindow w)
    (firstRunShown w) (isPaused w) (asrProcess w) (lastReleaseTime w) v
    (timers w) (nextTimer w) (children w) (nextPid w) (pythonPath w)
    (win32 w) (clipboard w) (appFocused w) (out w) (history w).

Definition set_timers (v : list Timer) (w : World) : World :=
  mkWorld
    (currentState w) (pcmBuffers w) (recordingStartTime w) (recorderWindow w)
    (ctrlDown w) (winDown w) (stopTimer w) (indicatorWindow w)
    (firstRunShown w) (isPaused w) (asrProcess w) (lastReleaseTime w) (now w)
    v (nextTimer w) (children w) (nextPid w) (pythonPath w) (win32 w)
    (clipboard w) (appFocused w) (out w) (history w).

Definition set_nextTimer (v : nat) (w : World) : World :=
  mkWorld
    (currentState w) (pcmBuffers w) (recordingStartTime w) (recorderWindow w)
    (ctrlDown w) (winDown w) (stopTimer w) (indicatorWindow w)
    (firstRunShown w) (isPaused w) (asrProcess w) (lastReleaseTime w) (now w)
    (timers w) v (children w) (nextPid w) (pythonPath w) (win32 w)
    (clipboard w) (appFocused w) (out w) (history w).

Definition set_children (v : list nat) (w : World) : World :=
  mkWorld
    (currentState w) (pcmBuffers w) (recordingStartTime w) (recorderWindow w)
    (ctrlDown w) (winDown w) (stopTimer w) (indicatorWindow w)
    (firstRunShown w) (isPaused w) (asrProcess w) (lastReleaseTime w) (now w)
    (timers w) (nextTimer w) v (nextPid w) (pythonPath w) (win32 w)
    (clipboard w) (appFocused w) (out w) (history w).

Definition set_nextPid (v : nat) (w : World) : World :=
  mkWorld
    (currentState w) (pcmBuffers w) (recordingStartTime w) (recorderWindow w)
    (ctrlDown w) (winDown w) (stopTimer w) (indicatorWindow w)
    (firstRunShown w) (isPaused w) (asrProcess w) (lastReleaseTime w) (now w)
    (timers w) (nextTimer w) (children w) v (pythonPath w) (win32 w)
    (clipboard w) (appFocused w) (out w) (history w).

Definition set_clipboard (v : jsstring) (w : World) : World :=
  mkWorld
    (currentState w) (pcmBuffers w) (recordingStartTime w) (recorderWindow w)
    (ctrlDown w) (winDown w) (stopTimer w) (indicatorWindow w)
    (firstRunShown w) (isPaused w) (asrProcess w) (lastReleaseTime w) (now w)
    (timers w) (nextTimer w) (children w) (nextPid w) (pythonPath w)
    (win32 w) v (appFocused w) (out w) (history w).

Definition set_appFocused (v : bool) (w : World) : World :=
  mkWorld
    (currentState w) (pcmBuffers w) (recordingStartTime w) (recorderWindow w)
    (ctrlDown w) (winDown w) (stopTimer w) (indicatorWindow w)
    (firstRunShown w) (isPaused w) (asrProcess w) (lastReleaseTime w) (now w)
    (timers w) (nextTimer w) (children w) (nextPid w) (pythonPath w)
    (win32 w) (clipboard w) v (out w) (history w).

Definition set_out (v : list Effect) (w : World) : World :=
  mkWorld
    (currentState w) (pcmBuffers w) (recordingStartTime w) (recorderWindow w)
    (ctrlDown w) (winDown w) (stopTimer w) (indicatorWindow w)
    (firstRunShown w) (isPaused w) (asrProcess w) (lastReleaseTime w) (now w)
    (timers w) (nextTimer w) (children w) (nextPid w) (pythonPath w)
    (win32 w) (clipboard w) (appFocused w) v (history w).

Definition set_history (v : list State) (w : World) : World :=
  mkWorld
    (currentState w) (pcmBuffers w) (recordingStartTime w) (recorderWindow w)
    (ctrlDown w) (winDown w) (stopTimer w) (indicatorWindow w)
    (firstRunShown w) (isPaused w) (asrProcess w) (lastReleaseTime w) (now w)
    (timers w) (nextTimer w) (children w) (nextPid w) (pythonPath w)
    (win32 w) (clipboard w) (appFocused w) (out w) v.

Definition emit (e : Effect) (w : World) : World := set_out (out w ++ [e]) w.

(* ================================================================== *)
(** * Timers *)
(* ================================================================== *)

Definition INPUT_SMOOTHING_MS : Z := 30.
Definition RESPAWN_DELAY_MS : Z := 2000.

(** [setTimeout(cb, delay)]: a fresh handle, the timer queued at [now + delay]. *)
Definition setTimeout (c : Callback) (delay : Z) (w : World) : nat * World :=
  let id := nextTimer w in
  (id, set_nextTimer (S id)
         (set_timers (timers w ++ [mkTimer id (now w + delay) c]) w)).

(** [clearTimeout(handle)] *)
Definition clearTimeout (id : nat) (w : World) : World :=
  set_timers (filter (fun t => negb (Nat.eqb (tid t) id)) (timers w)) w.

(* ================================================================== *)
(** * State transitions *)
(* ================================================================== *)

(** The table [allowed] of [transition]. *)
Definition allowed (s : State) : list State :=
  match s with
  | IDLE => [RECORDING]
  | RECORDING => [STOPPING]
  | STOPPING => [FINALIZING]
  | FINALIZING => [IDLE]
  end.

(** [transition(newState)]; the assignment [currentState = newState] is
    also appended to the ghost field [history]. *)
Definition transition (newState : State) (w : World) : World :=
  if State_eqb (currentState w) newState then w
  else if negb (existsb (State_eqb newState) (allowed (currentState w))) then w
  else set_history (history w ++ [newState]) (set_currentState newState w).

(* ================================================================== *)
(** * Indicator window *)
(* ================================================================== *)

Definition showIndicator (w : World) : World :=
  match indicatorWindow w with
  | Some visible =>
      let w1 := emit (IndicatorSend SetListening) w in
      let w2 := if visible then w1 else set_indicatorWindow (Some true) w1 in
      if firstRunShown w2 then w2
      else emit FirstRunMarker
             (emit (IndicatorSend ShowHint) (set_firstRunShown true w2))
  | None => w
  end.

Definition hideIndicator (immediate : bool) (w : World) : World :=
  match indicatorWindow w with
  | Some true =>
      if immediate then set_indicatorWindow (Some false) w
      else snd (setTimeout CbFade 150 (emit (IndicatorSend SetStopping) w))
  | _ => w
  end.

(** The callback [hideIndicator] queues for 150 ms later. *)
Definition fadeStage (w : World) : World :=
  match indicatorWindow w with
  | Some true => snd (setTimeout CbHide 120 (emit (IndicatorSend FadeOut) w))
  | _ => w
  end.

(** The callback the fade stage queues for 120 ms later. *)
Definition hideStage (w : World) : World :=
  match indicatorWindow w with
  | Some _ => set_indicatorWindow (Some false) w
  | None => w
  end.

(* ================================================================== *)
(** * Paste injection *)
(* ================================================================== *)

Definition injectText (text : jsstring) (w : World) : World :=
  if isPaused w then w
  else if falsy text || falsy (trim text) then w
  else
    let w1 := hideIndicator true w in
    let w2 := set_clipboard (trim text) w1 in
    let w3 := if appFocused w2 then emit Blur (set_appFocused false w2) else w2 in
    if win32 w3 then emit SendInputPaste w3 else w3.

(* ================================================================== *)
(** * The worker channel *)
(* ================================================================== *)

(** The guard [asrProcess && asrProcess.stdin && !asrProcess.killed]: the
    process the frames go to, when there is one. *)
Definition writable (w : World) : option nat :=
  match asrProcess w with
  | Some p => if stdin p && negb (killed p) then Some (pid p) else None
  | None => None
  end.

Definition TAG_START : Z := 1.
Definition TAG_AUDIO : Z := 2.
Definition TAG_END : Z := 3.

(** [stdin.write] of a Buffer does not throw: a failing pipe reports through
    the stream's error event, so a write is an output and nothing else. *)
Definition sendAudioToWorker (buffer : Buffer) (w : World) : World :=
  match writable w with
  | None => w
  | Some p =>
      match writeUInt32LE (Z.of_nat (length buffer)) with
      | None => w
      | Some len =>
          let header := writeUInt8 TAG_AUDIO ++ len in
          emit (WorkerWrite p buffer) (emit (WorkerWrite p header) w)
      end
  end.

Definition signalStartToWorker (w : World) : World :=
  match writable w with
  | Some p => emit (WorkerWrite p (writeUInt8 TAG_START)) w
  | None => w
  end.

Definition signalEndToWorker (w : World) : World :=
  match writable w with
  | Some p => emit (WorkerWrite p (writeUInt8 TAG_END)) w
  | None => w
  end.

(** [startASRWorker]: nothing without an interpreter; otherwise a child is
    spawned and becomes [asrProcess].  A child that cannot start reports it
    through its [error] event and then closes, which are events of the loop
    below; the [catch] around [spawn] is for a synchronous throw, which
    [spawn] with these arguments does not raise. *)
Definition startASRWorker (w : World) : World :=
  if negb (pythonPath w) then w
  else
    let p := nextPid w in
    emit (Spawn p)
      (set_asrProcess (Some (mkChild p true false))
         (set_children (p :: children w) (set_nextPid (S p) w))).

(** The [close] handler. *)
Definition onWorkerClose (w : World) : World :=
  snd (setTimeout CbRespawn RESPAWN_DELAY_MS (set_asrProcess None w)).

(** The [error] handler. *)
Definition onWorkerError (w : World) : World := set_asrProcess None w.

(** The body of the loop over the lines of a [stdout] chunk. *)
Definition onWorkerLine (line : jsstring) (w : World) : World :=
  let text := trim line in
  if jsstring_eqb text TRANSCRIBED_FINISH then w
  else if falsy text then w
  else
    let w1 := if 0 <? lastReleaseTime w then set_lastReleaseTime 0 w else w in
    injectText text w1.

Definition onWorkerStdout (d : jsstring) (w : World) : World :=
  fold_left (fun acc line => onWorkerLine line acc) (split_lines d) w.

(* ================================================================== *)
(** * Input logic *)
(* ================================================================== *)

Definition startRecording (w : World) : World :=
  let w1 := set_pcmBuffers [] w in
  let w2 := set_recordingStartTime (Some (now w1)) w1 in
  let w3 := transition RECORDING w2 in
  let w4 := showIndicator w3 in
  let w5 := signalStartToWorker w4 in
  if recorderWindow w5 then emit (RecorderSend StartCapture) w5 else w5.

Definition resetToIdle (w : World) : World :=
  transition IDLE (set_recordingStartTime None (set_pcmBuffers [] w)).

Definition finalizeRecording (w : World) : World :=
  resetToIdle (transition FINALIZING w).

(** [performance.now()] is read for the latency log only; it is modelled by
    the same clock as [Date.now()]. *)
Definition stopRecording (w : World) : World :=
  let w1 := set_lastReleaseTime (now w) w in
  let w2 := hideIndicator false w1 in
  let w3 := transition STOPPING w2 in
  let w4 := if recorderWindow w3 then emit (RecorderSend StopCapture) w3 else w3 in
  let w5 := signalEndToWorker w4 in
  finalizeRecording w5.

(** The truthiness of [stopTimer]. *)
Definition armed (w : World) : bool :=
  match stopTimer w with Some _ => true | None => false end.

Definition checkInputState (w : World) : World :=
  if isPaused w then w
  else
    let keysHeld := ctrlDown w && winDown w in
    if keysHeld then
      let w1 := match stopTimer w with
                | Some id => set_stopTimer None (clearTimeout id w)
                | None => w
                end in
      if State_eqb (currentState w1) IDLE then startRecording w1 else w1
    else
      if State_eqb (currentState w) RECORDING && negb (armed w) then
        let (id, w1) := setTimeout CbStop INPUT_SMOOTHING_MS w in
        set_stopTimer (Some id) w1
      else w.

(** The body of the stop timer. *)
Definition stopTimerFired (w : World) : World :=
  set_stopTimer None (stopRecording w).

(* ================================================================== *)
(** * IPC handlers and the key listener *)
(* ================================================================== *)

(** [ipcMain.on('audio-data')]; a throwing conversion leaves the handler
    before anything is sent. *)
Definition onAudioData (data : list JsNum.number) (w : World) : World :=
  if State_eqb (currentState w) RECORDING then
    match float32ToInt16 data with
    | Some pcm => sendAudioToWorker pcm w
    | None => w
    end
  else w.

(** [ipcMain.on('capture-error')] *)
Definition onCaptureError (w : World) : World :=
  if negb (State_eqb (currentState w) IDLE) then resetToIdle w else w.

(** [(GetAsyncKeyState(vk) & 0x8000) !== 0] *)
Definition keyDown (k : Z) : bool := negb (Z.land k 32768 =? 0).

(** One tick of the interval of [startKeyListener]; the arguments are what
    [GetAsyncKeyState] returns for VK_CONTROL, VK_LWIN and VK_RWIN. *)
Definition onKeyTick (kCtrl kLWin kRWin : Z) (w : World) : World :=
  let w1 := set_ctrlDown (keyDown kCtrl) w in
  let w2 := set_winDown (keyDown kLWin || keyDown kRWin) w1 in
  checkInputState w2.

(** The hotkey predicate of one sample. *)
Definition engaged (kCtrl kLWin kRWin : Z) : bool :=
  keyDown kCtrl && (keyDown kLWin || keyDown kRWin).

(** The click handler of the tray's pause entry. *)
Definition onTogglePause (w : World) : World :=
  let w1 := set_isPaused (negb (isPaused w)) w in
  emit (SaveSettings (isPaused w1)) w1.

(* ================================================================== *)
(** * The event loop *)
(* ================================================================== *)

(** What the loop can be woken by: a tick of the 20 ms key interval with
    the three key states read, a one-shot timer, an IPC message of the
    recorder window, the tray's pause entry, a change of focus, an event of
    a running child, or time passing. *)
Inductive Event :=
| Tick (kCtrl kLWin kRWin : Z)
| TimerFire (id : nat)
| AudioData (data : list JsNum.number)
| CaptureError
| TogglePause
| Focus (own : bool)
| WorkerStdout (p : nat) (d : jsstring)
| WorkerError (p : nat)
| WorkerClose (p : nat) (code : Z)
| Elapse (dt : Z).

Definition runCallback (c : Callback) (w : World) : World :=
  match c with
  | CbStop => stopTimerFired w
  | CbRespawn => startASRWorker w
  | CbFade => fadeStage w
  | CbHide => hideStage w
  end.

Definition findTimer (id : nat) (w : World) : option Timer :=
  find (fun t => Nat.eqb (tid t) id) (timers w).

Definition isChild (p : nat) (w : World) : bool :=
  existsb (Nat.eqb p) (children w).

(** One turn of the loop.  [None]: the event cannot happen in this world (a
    timer that is not queued or not yet due, a process that is not running,
    a clock running backwards).  Timers may fire late, never early. *)
Definition step (e : Event) (w : World) : option World :=
  match e with
  | Tick kc kl kr => Some (onKeyTick kc kl kr w)
  | TimerFire id =>
      match findTimer id w with
      | Some t =>
          if due t <=? now w then Some (runCallback (cb t) (clearTimeout id w))
          else None
      | None => None
      end
  | AudioData data => Some (onAudioData data w)
  | CaptureError => Some (onCaptureError w)
  | TogglePause => Some (onTogglePause w)
  | Focus own => Some (set_appFocused own w)
  | WorkerStdout p d => if isChild p w then Some (onWorkerStdout d w) else None
  | WorkerError p => if isChild p w then Some (onWorkerError w) else None
  | WorkerClose p _ =>
      if isChild p w then
        Some (onWorkerClose
                (set_children (filter (fun q => negb (Nat.eqb q p)) (children w)) w))
      else None
  | Elapse dt => if 0 <=? dt then Some (set_now (now w + dt) w) else None
  end.

Fixpoint run (es : list Event) (w : World) : option World :=
  match es with
  | [] => Some w
  | e :: es' =>
      match step e w with
      | Some w' => run es' w'
      | None => None
      end
  end.

(** The world when [app.whenReady()] has run its callback at time [t0]:
    settings loaded, the three windows created, the worker started. *)
Definition boot (t0 : Z) (paused firstRun python onWindows : bool) : World :=
  startASRWorker
    (mkWorld IDLE [] None true false false None (Some false) firstRun paused
       None 0 t0 [] 0%nat [] 0%nat python onWindows [] false [] []).

(* ================================================================== *)
(** * Writing into an allocated buffer *)
(* ================================================================== *)

(** [Buffer.alloc(n)]: [n] zero bytes. *)
Definition alloc (n : nat) : Buffer := repeat 0 n.

(** The bytes [bytes] stored at offset [off]; [None] is the RangeError of
    an offset that leaves no room. *)
Definition store (off : nat) (bytes buf : Buffer) : option Buffer :=
  if (off + length bytes <=? length buf)%nat
  then Some (firstn off buf ++ bytes ++ skipn (off + length bytes) buf)
  else None.

(** A [buf.writeXxx(value, off)]: the value's bytes, when it is in range,
    stored at [off]. *)
Definition put (bytes : option Buffer) (off : nat) (buf : Buffer)
  : option Buffer :=
  match bytes with
  | Some b => store off b buf
  | None => None
  end.

(** One statement after another, the first of which may throw. *)
Definition andThen {A B : Type} (o : option A) (f : A -> option B)
  : option B :=
  match o with
  | Some a => f a
  | None => None
  end.

(** [buf.writeUInt16LE(v)]: two bytes, or the RangeError. *)
Definition writeUInt16LE (v : Z) : option Buffer :=
  if (0 <=? v) && (v <? 65536) then
    Some [ Z.land v 255; Z.land (Z.shiftr v 8) 255 ]
  else None.

(** [buf.writeBigUInt64LE(v)]: eight bytes, or the RangeError. *)
Definition writeBigUInt64LE (v : Z) : option Buffer :=
  if (0 <=? v) && (v <? 2 ^ 64) then
    Some (map (fun k => Z.land (Z.shiftr v (8 * Z.of_nat k)) 255) (seq 0 8))
  else None.

(** [buf.write(string, off)] for a string of ASCII characters: as many of
    its bytes as fit. *)
Definition writeAscii (s : Buffer) (off : nat) (buf : Buffer) : option Buffer :=
  store off (firstn (length buf - off) s) buf.

(* ================================================================== *)
(** * The keyboard input records ([buildKeyboardInput], [PASTE_BUFFER]) *)
(* ================================================================== *)

Definition VK_CONTROL : Z := 17.
Definition VK_V : Z := 86.
Definition KEYEVENTF_KEYUP : Z := 2.
Definition INPUT_KEYBOARD : Z := 1.
Definition INPUT_SIZE : nat := 40.

(** The six writes into the zeroed record, in the order of the source;
    [None] when one of them throws. *)
Definition buildKeyboardInput (wVk dwFlags : Z) : option Buffer :=
  andThen (put (writeUInt32LE INPUT_KEYBOARD) 0 (alloc INPUT_SIZE)) (fun b1 =>
  andThen (put (writeUInt16LE wVk) 8 b1) (fun b2 =>
  andThen (put (writeUInt16LE 0) 10 b2) (fun b3 =>
  andThen (put (writeUInt32LE dwFlags) 12 b3) (fun b4 =>
  andThen (put (writeUInt32LE 0) 16 b4) (fun b5 =>
  put (writeBigUInt64LE 0) 24 b5))))).

(** [Buffer.concat] of the four records. *)
Definition PASTE_BUFFER : option Buffer :=
  andThen (buildKeyboardInput VK_CONTROL 0) (fun a =>
  andThen (buildKeyboardInput VK_V 0) (fun b =>
  andThen (buildKeyboardInput VK_V KEYEVENTF_KEYUP) (fun c =>
  andThen (buildKeyboardInput VK_CONTROL KEYEVENTF_KEYUP) (fun d =>
  Some (a ++ b ++ c ++ d))))).

(* ================================================================== *)
(** * The WAV header ([generateWavHeader]) *)
(* ================================================================== *)

Definition SAMPLE_RATE : Z := 16000.
Definition CHANNELS : Z := 1.
Definition BITS_PER_SAMPLE : Z := 16.

(** The character codes of the four tags. *)
Definition RIFF : Buffer := [82; 73; 70; 70].
Definition WAVE : Buffer := [87; 65; 86; 69].
Definition fmt_ : Buffer := [102; 109; 116; 32].
Definition data_ : Buffer := [100; 97; 116; 97].

(** The thirteen writes into the zeroed header, for an integer
    [dataLength]; [None] when one of them throws. *)
Definition generateWavHeader (dataLength : Z) : option Buffer :=
  let byteRate := (SAMPLE_RATE * CHANNELS * BITS_PER_SAMPLE) / 8 in
  let blockAlign := (CHANNELS * BITS_PER_SAMPLE) / 8 in
  andThen (writeAscii RIFF 0 (alloc 44)) (fun b1 =>
  andThen (put (writeUInt32LE (36 + dataLength)) 4 b1) (fun b2 =>
  andThen (writeAscii WAVE 8 b2) (fun b3 =>
  andThen (writeAscii fmt_ 12 b3) (fun b4 =>
  andThen (put (writeUInt32LE 16) 16 b4) (fun b5 =>
  andThen (put (writeUInt16LE 1) 20 b5) (fun b6 =>
  andThen (put (writeUInt16LE CHANNELS) 22 b6) (fun b7 =>
  andThen (put (writeUInt32LE SAMPLE_RATE) 24 b7) (fun b8 =>
  andThen (put (writeUInt32LE byteRate) 28 b8) (fun b9 =>
  andThen (put (writeUInt16LE blockAlign) 32 b9) (fun b10 =>
  andThen (put (writeUInt16LE BITS_PER_SAMPLE) 34 b10) (fun b11 =>
  andThen (writeAscii data_ 36 b11) (fun b12 =>
  put (writeUInt32LE dataLength) 40 b12)))))))))))).

(* ================================================================== *)
(** * The interpreter lookup ([getPythonPath]) *)
(* ================================================================== *)

(** What [getPythonPath] reads of its host: four environment variables
    ([None] when a variable is not set), [path.join] and
    [fs.existsSync]. *)
Record PathHost := mkPathHost {
  WISPR_PYTHON_PATH : option jsstring;
  SystemDrive : option jsstring;
  LOCALAPPDATA : option jsstring;
  USERPROFILE : option jsstring;
  path_join : list jsstring -> jsstring;
  existsSync : jsstring -> bool
}.

(** A variable that is set and not the empty string. *)
Definition truthy (v : option jsstring) : bool :=
  match v with
  | Some (_ :: _) => true
  | _ => false
  end.

(** [v || d] *)
Definition orElse (v : option jsstring) (d : jsstring) : jsstring :=
  match v with
  | Some (c :: s) => c :: s
  | _ => d
  end.

(** The code units of ['C:']. *)
Definition C_COLON : jsstring :=
  [67; 58].

(** The code units of ['Python313']. *)
Definition PYTHON313 : jsstring :=
  [80; 121; 116; 104; 111; 110; 51; 49; 51].

(** The code units of ['Python312']. *)
Definition PYTHON312 : jsstring :=
  [80; 121; 116; 104; 111; 110; 51; 49; 50].

(** The code units of ['Python311']. *)
Definition PYTHON311 : jsstring :=
  [80; 121; 116; 104; 111; 110; 51; 49; 49].

(** The code units of ['Python310']. *)
Definition PYTHON310 : jsstring :=
  [80; 121; 116; 104; 111; 110; 51; 49; 48].

(** The code units of ['python.exe']. *)
Definition PYTHON_EXE : jsstring :=
  [112; 121; 116; 104; 111; 110; 46; 101; 120; 101].

(** The code units of ['Programs']. *)
Definition PROGRAMS : jsstring :=
  [80; 114; 111; 103; 114; 97; 109; 115].

(** The code units of ['Python']. *)
Definition PYTHON : jsstring :=
  [80; 121; 116; 104; 111; 110].

(** The code units of ['AppData']. *)
Definition APPDATA : jsstring :=
  [65; 112; 112; 68; 97; 116; 97].

(** The code units of ['Local']. *)
Definition LOCAL : jsstring :=
  [76; 111; 99; 97; 108].

(** The version directories, newest first. *)
Definition PYTHON_DIRS : list jsstring :=
  [PYTHON313; PYTHON312; PYTHON311; PYTHON310].

(** The array [commonPaths], given the value of [localAppData]. *)
Definition commonPaths (h : PathHost) (localAppData : jsstring)
  : list jsstring :=
  map (fun v => path_join h [orElse (SystemDrive h) C_COLON; v; PYTHON_EXE])
      PYTHON_DIRS
  ++ map (fun v => path_join h [localAppData; PROGRAMS; PYTHON; v; PYTHON_EXE])
         PYTHON_DIRS.

(** [process.env.LOCALAPPDATA || path.join(process.env.USERPROFILE,
    'AppData', 'Local')]; [path.join] throws a TypeError on an argument
    that is not a string, which is [None] here. *)
Definition localAppData (h : PathHost) : option jsstring :=
  if truthy (LOCALAPPDATA h) then LOCALAPPDATA h
  else match USERPROFILE h with
       | Some u => Some (path_join h [u; APPDATA; LOCAL])
       | None => None
       end.

Inductive Resolved :=
| Found (p : jsstring)     (** the path returned *)
| NotFound                 (** [null] *)
| Threw.                   (** the TypeError of [path.join] *)

(** The loop over [commonPaths]: the first candidate that exists. *)
Definition searchCommonPaths (h : PathHost) : Resolved :=
  match localAppData h with
  | None => Threw
  | Some lad =>
      match find (existsSync h) (commonPaths h lad) with
      | Some p => Found p
      | None => NotFound
      end
  end.

(** The override first, when it is set, not empty and exists; then the
    candidates. *)
Definition getPythonPath (h : PathHost) : Resolved :=
  match WISPR_PYTHON_PATH h with
  | Some (c :: s) =>
      if existsSync h (c :: s) then Found (c :: s) else searchCommonPaths h
  | _ => searchCommonPaths h
  end.

(* ################################################################## *)
(** * Part II: the notions the properties are stated with *)
(* ################################################################## *)

(* ================================================================== *)
(** * The strict cycle of [transition] *)
(* ================================================================== *)

(** The single successor of a state on the cycle. *)
Definition successor (s : State) : State :=
  match s with
  | IDLE => RECORDING
  | RECORDING => STOPPING
  | STOPPING => FINALIZING
  | FINALIZING => IDLE
  end.

(** A list of states in which each one is the successor of the one before,
    the first being the successor of [s]. *)
Fixpoint cycle_path (s : State) (path : list State) : Prop :=
  match path with
  | [] => True
  | t :: rest => t = successor s /\ cycle_path t rest
  end.

(** The requests of a sequence, applied in order. *)
Definition transitions (reqs : list State) (w : World) : World :=
  fold_left (fun acc t => transition t acc) reqs w.

(* ================================================================== *)
(** * The framing protocol *)
(* ================================================================== *)

(** The frames of the host-to-worker protocol. *)
Inductive Frame := START | AUDIO (payload : Buffer) | END.

(** The 4-byte little-endian unsigned encoding, written with quotients and
    remainders as the protocol table describes it. *)
Definition spec_le32 (n : Z) : Buffer :=
  [ n mod 256; (n / 256) mod 256; (n / 65536) mod 256; (n / 16777216) mod 256 ].

(** The byte layout of a frame as the protocol table gives it: the tag, and
    for AUDIO the length of the payload and then the payload. *)
Definition spec_frame_bytes (f : Frame) : Buffer :=
  match f with
  | START => [1]
  | AUDIO payload => 2 :: spec_le32 (Z.of_nat (length payload)) ++ payload
  | END => [3]
  end.

(** A payload of 16-bit PCM: bytes, two per sample, short enough for the
    length field. *)
Definition pcm16 (payload : Buffer) : Prop :=
  Forall is_byte payload
  /\ Nat.Even (length payload)
  /\ Z.of_nat (length payload) < 2 ^ 32.

Definition pcm16_frame (f : Frame) : Prop :=
  match f with AUDIO payload => pcm16 payload | _ => True end.

(** The bytes a list of outputs puts on the standard input of process [p]. *)
Fixpoint stdin_of (p : nat) (effs : list Effect) : Buffer :=
  match effs with
  | [] => []
  | WorkerWrite q bytes :: rest =>
      if Nat.eqb q p then bytes ++ stdin_of p rest else stdin_of p rest
  | _ :: rest => stdin_of p rest
  end.

(** The outputs [effs] put whole frames, and nothing else, on the standard
    input of every process. *)
Definition framed (effs : list Effect) : Prop :=
  forall p, exists frames,
    stdin_of p effs = concat (map spec_frame_bytes frames)
    /\ Forall pcm16_frame frames.

(** [w'] comes from [w] by sending further outputs that are whole frames. *)
Definition ext (w w' : World) : Prop :=
  exists effs, out w' = out w ++ effs /\ framed effs.

Definition is_write (e : Effect) : bool :=
  match e with WorkerWrite _ _ => true | _ => false end.

(** A booted application on Windows with an interpreter, not paused, the
    first-run hint already shown; the examples start from it. *)
Definition demo_world : World :=
  Eval vm_compute in boot 1000 false true true true.

(* ================================================================== *)
(** * Clipping and scaling *)
(* ================================================================== *)


(* ================================================================== *)
(** * Paste injection: the guarded cases *)
(* ================================================================== *)

(** The code units of three spaces. *)
Definition three_spaces : jsstring := [32; 32; 32].

(** The code units of ['hi']. *)
Definition hi : jsstring := [104; 105].

(* ================================================================== *)
(** * The capture-error handler *)
(* ================================================================== *)

(** The hotkey held: control and the left Windows key down. *)
Definition held : Event := Tick (-32768) (-32768) 0.

(** The hotkey released. *)
Definition released : Event := Tick 0 0 0.

(** The world in the middle of a recording with its worker alive. *)
Definition recording_world : World :=
  Eval vm_compute in
  match run [held] demo_world with
  | Some w => w
  | None => demo_world
  end.

(* ================================================================== *)
(** * The audio handler *)
(* ================================================================== *)

(** The chunk was converted and written to a worker as one AUDIO frame. *)
Definition forwarded (data : list JsNum.number) (w : World) : Prop :=
  exists p pcm,
    float32ToInt16 data = Some pcm
    /\ out (onAudioData data w) =
       out w ++ [ WorkerWrite p (2 :: spec_le32 (Z.of_nat (length pcm)));
                  WorkerWrite p pcm ].

(** The world in the middle of a recording whose worker has just exited. *)
Definition crashed_world : World :=
  Eval vm_compute in
  match run [held; WorkerClose 0 1] demo_world with
  | Some w => w
  | None => demo_world
  end.

(* ================================================================== *)
(** * Respawn of the worker *)
(* ================================================================== *)

(** The timer identifiers handed out so far are below [nextTimer]. *)
Definition fresh_ids (w : World) : Prop :=
  Forall (fun t => (tid t < nextTimer w)%nat) (timers w).

(** A working installation: the interpreter resolves, the worker is live
    and running, and timer identifiers are fresh. *)
Definition healthy (w : World) : Prop :=
  pythonPath w = true
  /\ (exists c, asrProcess w = Some c /\ isChild (pid c) w = true
                /\ writable w = Some (pid c))
  /\ fresh_ids w.

(** One crash of the live worker, the two seconds, and the timer. *)
Definition crash_cycle (w : World) : option World :=
  match asrProcess w with
  | Some c =>
      run [ WorkerClose (pid c) 1; Elapse RESPAWN_DELAY_MS;
            TimerFire (nextTimer w) ] w
  | None => None
  end.

Fixpoint crash_cycles (n : nat) (w : World) : option World :=
  match n with
  | O => Some w
  | S k =>
      match crash_cycle w with
      | Some w' => crash_cycles k w'
      | None => None
      end
  end.

(* ================================================================== *)
(** * What a handler does to the state machine and the timers *)
(* ================================================================== *)

(** The state and the ghost record of its assignments. *)
Definition st (w : World) : State * list State := (currentState w, history w).

(** [w'] has the timers of [w] and then some more, none a stop timer,
    with the next identifiers in order. *)
Definition appended (w w' : World) : Prop :=
  exists extra,
    timers w' = timers w ++ extra
    /\ Forall (fun t => cb t <> CbStop) extra
    /\ map tid extra = seq (nextTimer w) (length extra)
    /\ nextTimer w' = (nextTimer w + length extra)%nat.

(** [w'] comes from [w] by the transition requests [reqs], with the pending
    stop timer, the clock, the pause flag and the recorder window untouched
    and no stop timer added. *)
Definition acts (reqs : list State) (w w' : World) : Prop :=
  st w' = st (transitions reqs w)
  /\ stopTimer w' = stopTimer w
  /\ now w' = now w
  /\ recorderWindow w' = recorderWindow w
  /\ isPaused w' = isPaused w
  /\ appended w w'.

(** The states a list of requests assigns, starting from [s]. *)
Fixpoint path_of (s : State) (reqs : list State) : list State :=
  match reqs with
  | [] => []
  | t :: rest =>
      if State_eqb t (successor s) then t :: path_of t rest
      else path_of s rest
  end.

(* ================================================================== *)
(** * The invariant of the event loop *)
(* ================================================================== *)

(** Between two turns of the loop: the state is Idle or Recording; the
    variable [stopTimer] and the stop timer in the queue go together, and
    only during a recording; a stop timer is due at most one smoothing
    window ahead; timer identifiers are fresh and distinct; the recorder
    window exists. *)
Definition wf (w : World) : Prop :=
  (currentState w = IDLE \/ currentState w = RECORDING)
  /\ (forall id, stopTimer w = Some id ->
        currentState w = RECORDING
        /\ exists d, In (mkTimer id d CbStop) (timers w))
  /\ (forall t, In t (timers w) -> cb t = CbStop ->
        stopTimer w = Some (tid t) /\ due t <= now w + INPUT_SMOOTHING_MS)
  /\ fresh_ids w
  /\ NoDup (map tid (timers w))
  /\ recorderWindow w = true.

(** [disarm]: the first statement of the held branch of [checkInputState]. *)
Definition disarm (w : World) : World :=
  match stopTimer w with
  | Some id => set_stopTimer None (clearTimeout id w)
  | None => w
  end.

(** [arm]: the assignment in the released branch of [checkInputState]. *)
Definition arm (w : World) : World :=
  set_stopTimer (Some (nextTimer w)) (snd (setTimeout CbStop INPUT_SMOOTHING_MS w)).

(* ================================================================== *)
(** * The transition requests of an event *)
(* ================================================================== *)

(** The calls of [transition] an event leads to, in order. *)
Definition requests (e : Event) (w : World) : list State :=
  match e with
  | Tick kc kl kr =>
      if negb (isPaused w) && engaged kc kl kr
         && State_eqb (currentState w) IDLE
      then [RECORDING] else []
  | TimerFire id =>
      match findTimer id w with
      | Some t =>
          match cb t with
          | CbStop => [STOPPING; FINALIZING; IDLE]
          | _ => []
          end
      | None => []
      end
  | CaptureError =>
      if negb (State_eqb (currentState w) IDLE) then [IDLE] else []
  | _ => []
  end.

(* ================================================================== *)
(** * Pause *)
(* ================================================================== *)

Definition is_sample (e : Event) : bool :=
  match e with Tick _ _ _ => true | _ => false end.

(** The booted application after the pause entry of the tray is clicked. *)
Definition paused_world : World := Eval vm_compute in onTogglePause demo_world.

(* ================================================================== *)
(** * The smoothing window *)
(* ================================================================== *)

(** During a recording, before the deadline [D]: the invariant holds, the
    state is Recording, nothing has been assigned since the history [h],
    and no stop timer is due before [D], now or when armed from here. *)
Definition in_window (D : Z) (h : list State) (w : World) : Prop :=
  wf w
  /\ currentState w = RECORDING
  /\ history w = h
  /\ (forall t, In t (timers w) -> cb t = CbStop -> D <= due t)
  /\ D <= now w + INPUT_SMOOTHING_MS.

(** The recording world after the hotkey is released. *)
Definition released_world : World :=
  Eval vm_compute in
  match step released recording_world with
  | Some w => w
  | None => recording_world
  end.

(** Twenty milliseconds and one audio chunk later. *)
Definition window_world : World :=
  Eval vm_compute in
  match run [Elapse 10; AudioData [JsNum.one]; Elapse 10] released_world with
  | Some w => w
  | None => released_world
  end.

(** The hotkey pressed again, inside the window. *)
Definition reengaged_world : World :=
  Eval vm_compute in
  match step held window_world with
  | Some w => w
  | None => window_world
  end.

(* ================================================================== *)
(** * Pausing with a stop timer pending *)
(* ================================================================== *)

(** Input samples and the passing of time. *)
Definition is_input (e : Event) : bool :=
  match e with Tick _ _ _ | Elapse _ => true | _ => false end.

(** Any event but a click on the tray's pause entry and the firing of
    the timer [id]. *)
Definition leaves_pending (id : nat) (e : Event) : bool :=
  match e with
  | TogglePause => false
  | TimerFire i => negb (Nat.eqb i id)
  | _ => true
  end.

(** What [stopRecording] sends: the stopping cue when the indicator is
    visible, the stop-capture signal, the END frame to a live worker. *)
Definition stop_outputs (w : World) : list Effect :=
  match indicatorWindow w with
  | Some true => [IndicatorSend SetStopping]
  | _ => []
  end
  ++ (if recorderWindow w then [RecorderSend StopCapture] else [])
  ++ match writable w with
     | Some p => [WorkerWrite p [3]]
     | None => []
     end.

(** The dictation paused right after the release. *)
Definition paused_released_world : World :=
  Eval vm_compute in onTogglePause released_world.

(** Thirty milliseconds later, the hotkey having been pressed again
    meanwhile, a chunk of audio and a capture error having arrived. *)
Definition paused_reengaged_world : World :=
  Eval vm_compute in
  match run [Elapse 10; held; AudioData [JsNum.one]; CaptureError;
             Elapse 20; held] paused_released_world with
  | Some w => w
  | None => paused_released_world
  end.

(* ================================================================== *)
(** * Reachable worlds *)
(* ================================================================== *)

(** The worlds the application can be in between two turns of the loop. *)
Definition reachable (w : World) : Prop :=
  exists t0 paused firstRun python onWindows es,
    run es (boot t0 paused firstRun python onWindows) = Some w.

(* ================================================================== *)
(** * Reading a buffer back *)
(* ================================================================== *)

(** The [len] bytes from offset [off]. *)
Definition slice (off len : nat) (buf : Buffer) : Buffer :=
  firstn len (skipn off buf).

Definition readUInt16LE (b : Buffer) : option Z :=
  match b with
  | [b0; b1] => Some (Z.lor b0 (Z.shiftl b1 8))
  | _ => None
  end.

(* ================================================================== *)
(** * The keyboard input records ([buildKeyboardInput], [PASTE_BUFFER]) *)
(* ================================================================== *)

(** What [SendInput] reads of one record of [INPUT_SIZE] bytes: the type,
    the virtual key and the flags. *)
Definition decodeInput (r : Buffer) : option (Z * Z * Z) :=
  match readUInt32LE (slice 0 4 r), readUInt16LE (slice 8 2 r),
        readUInt32LE (slice 12 4 r) with
  | Some ty, Some vk, Some fl => Some (ty, vk, fl)
  | _, _, _ => None
  end.

(** The records of an array of [n] inputs. *)
Fixpoint decodeInputs (n : nat) (b : Buffer) : option (list (Z * Z * Z)) :=
  match n with
  | O => match b with [] => Some [] | _ => None end
  | S k =>
      match decodeInput (firstn INPUT_SIZE b) with
      | Some r =>
          if (INPUT_SIZE <=? length b)%nat then
            option_map (cons r) (decodeInputs k (skipn INPUT_SIZE b))
          else None
      | None => None
      end
  end.

(* ================================================================== *)
(** * The WAV header ([generateWavHeader]) *)
(* ================================================================== *)

(** The fields of a 44-byte canonical WAV header, read back. *)
Record WavHeader := mkWavHeader {
  riffTag : Buffer; riffSize : Z; waveTag : Buffer;
  fmtTag : Buffer; fmtSize : Z; audioFormat : Z; numChannels : Z;
  sampleRate : Z; byteRate : Z; blockAlign : Z; bitsPerSample : Z;
  dataTag : Buffer; dataSize : Z
}.

Definition readWavHeader (h : Buffer) : option WavHeader :=
  match readUInt32LE (slice 4 4 h), readUInt32LE (slice 16 4 h),
        readUInt16LE (slice 20 2 h), readUInt16LE (slice 22 2 h),
        readUInt32LE (slice 24 4 h), readUInt32LE (slice 28 4 h),
        readUInt16LE (slice 32 2 h), readUInt16LE (slice 34 2 h),
        readUInt32LE (slice 40 4 h) with
  | Some rs, Some fs, Some af, Some nc, Some sr, Some br, Some ba, Some bps,
    Some ds =>
      Some (mkWavHeader (slice 0 4 h) rs (slice 8 4 h) (slice 12 4 h)
              fs af nc sr br ba bps (slice 36 4 h) ds)
  | _, _, _, _, _, _, _, _, _ => None
  end.

(* ================================================================== *)
(** * The interpreter lookup ([getPythonPath]) *)
(* ================================================================== *)

(** The override is set, not empty, and exists. *)
Definition overrideUsable (h : PathHost) : bool :=
  match WISPR_PYTHON_PATH h with
  | Some (c :: s) => existsSync h (c :: s)
  | _ => false
  end.

(* ================================================================== *)
(** * Trimming *)
(* ================================================================== *)

(** Empty, or beginning with a code unit that is not whitespace. *)
Definition clean_start (s : jsstring) : Prop :=
  match s with
  | [] => True
  | c :: _ => is_whitespace c = false
  end.

(* ================================================================== *)
(** * The lines of a chunk of the worker's output *)
(* ================================================================== *)

(** A line the [stdout] handler passes on: not the sentinel, not empty. *)
Definition is_transcript (text : jsstring) : bool :=
  negb (jsstring_eqb text TRANSCRIBED_FINISH) && negb (falsy text).

(** The texts a chunk leads to a paste of, in order. *)
Definition transcripts (d : jsstring) : list jsstring :=
  filter is_transcript (map trim (split_lines d)).

(** What the pastes of a list of texts send out: the blur of the focused
    window with the first one, a Ctrl+V for each on Windows. *)
Fixpoint paste_outputs (focused onWindows : bool) (texts : list jsstring)
  : list Effect :=
  match texts with
  | [] => []
  | _ :: rest =>
      (if focused then [Blur] else [])
      ++ (if onWindows then [SendInputPaste] else [])
      ++ paste_outputs false onWindows rest
  end.

(** The latency stamp after the first token has been logged. *)
Definition stamp_cleared (w : World) : World :=
  if 0 <? lastReleaseTime w then set_lastReleaseTime 0 w else w.

(* ================================================================== *)
(** * The staged hide of the indicator *)
(* ================================================================== *)

(** The turns in which the two timers of a staged hide started in [w] run,
    [d1] after the start and [d2] after the fade. *)
Definition staged_hide (w : World) (d1 d2 : Z) : list Event :=
  [ Elapse d1; TimerFire (nextTimer w);
    Elapse d2; TimerFire (S (nextTimer w)) ].

(* ================================================================== *)
(** * What a turn of the loop sends out *)
(* ================================================================== *)

(** What [showIndicator] sends: the listening cue, and the first time the
    hint and the marker file. *)
Definition show_outputs (w : World) : list Effect :=
  match indicatorWindow w with
  | Some _ =>
      IndicatorSend SetListening
      :: (if firstRunShown w then []
          else [IndicatorSend ShowHint; FirstRunMarker])
  | None => []
  end.

(** What [startRecording] sends: the cues of the indicator, the START
    frame to a live worker, the start-capture signal. *)
Definition start_outputs (w : World) : list Effect :=
  show_outputs w
  ++ match writable w with
     | Some p => [WorkerWrite p [1]]
     | None => []
     end
  ++ (if recorderWindow w then [RecorderSend StartCapture] else []).

(** What the [audio-data] handler sends: the header and the payload of an
    AUDIO frame, during a recording, to a live worker, when the chunk
    converts and its length fits the header. *)
Definition audio_outputs (data : list JsNum.number) (w : World)
  : list Effect :=
  if State_eqb (currentState w) RECORDING then
    match float32ToInt16 data, writable w with
    | Some pcm, Some p =>
        match writeUInt32LE (Z.of_nat (length pcm)) with
        | Some len => [WorkerWrite p (2 :: len); WorkerWrite p pcm]
        | None => []
        end
    | _, _ => []
    end
  else [].

(** What the turn of event [e] sends out from world [w]. *)
Definition outputs (e : Event) (w : World) : list Effect :=
  match e with
  | Tick kc kl kr =>
      if negb (isPaused w) && engaged kc kl kr
         && State_eqb (currentState w) IDLE
      then start_outputs w else []
  | TimerFire id =>
      match findTimer id w with
      | Some t =>
          match cb t with
          | CbStop => stop_outputs w
          | CbRespawn => if pythonPath w then [Spawn (nextPid w)] else []
          | CbFade =>
              match indicatorWindow w with
              | Some true => [IndicatorSend FadeOut]
              | _ => []
              end
          | CbHide => []
          end
      | None => []
      end
  | AudioData data => audio_outputs data w
  | TogglePause => [SaveSettings (negb (isPaused w))]
  | WorkerStdout _ d =>
      if isPaused w then []
      else paste_outputs (appFocused w) (win32 w) (transcripts d)
  | _ => []
  end.

(* ================================================================== *)
(** * One dictation, from press to stop *)
(* ================================================================== *)

(** The AUDIO frames the chunks of a recording lead to: one for each chunk
    that converts and whose length fits the header, in order. *)
Definition sent_frames (chunks : list (list JsNum.number)) : list Frame :=
  flat_map (fun c =>
              match float32ToInt16 c with
              | Some pcm =>
                  if Z.of_nat (length pcm) <? 2 ^ 32 then [AUDIO pcm] else []
              | None => []
              end) chunks.

(** The turns of one dictation: the hotkey sampled as pressed, the chunks
    of the recorder, the hotkey sampled as released, the time [dt], the
    stop timer [id]. *)
Definition dictation (press : Event) (chunks : list (list JsNum.number))
  (release : Event) (dt : Z) (id : nat) : list Event :=
  press :: map AudioData chunks ++ [release; Elapse dt; TimerFire id].

(* ================================================================== *)
(** * The deadline of a pending stop *)
(* ================================================================== *)

(** A sample with the hotkey released, or time passing. *)
Definition is_release (e : Event) : bool :=
  match e with
  | Tick kc kl kr => negb (engaged kc kl kr)
  | Elapse _ => true
  | _ => false
  end.

(* ================================================================== *)
(** * A recording started while the indicator is fading *)
(* ================================================================== *)

(** The turns of a recording started while the fade of the previous one
    is pending: the pressed sample, the time until the fade timer [f]
    runs, the fade, its 120 ms, the hide timer [h]. *)
Definition restart_during_fade (press : Event) (dt : Z) (f : nat) (d2 : Z)
  (h : nat) : list Event :=
  [press; Elapse dt; TimerFire f; Elapse d2; TimerFire h].

(* ================================================================== *)
(** * A worker lost in the middle of a recording *)
(* ================================================================== *)

(** The turns of an outage during a recording: the worker [p] exits, the
    chunks [lost] arrive meanwhile, the respawn timer [id] runs after
    [dt], and the chunk [data] arrives. *)
Definition outage (p : nat) (code : Z) (lost : list (list JsNum.number))
  (dt : Z) (id : nat) (data : list JsNum.number) : list Event :=
  WorkerClose p code
  :: map AudioData lost ++ [Elapse dt; TimerFire id; AudioData data].

(* ================================================================== *)
(** * The capture signals of the recorder window *)
(* ================================================================== *)

(** The messages sent to the recorder window, in order. *)
Definition recorder_msgs (effs : list Effect) : list RecorderMsg :=
  flat_map (fun e => match e with RecorderSend m => [m] | _ => [] end) effs.

(** [n] times a start-capture and then a stop-capture. *)
Definition capture_pairs (n : nat) : list RecorderMsg :=
  concat (repeat [StartCapture; StopCapture] n).

(** The capture messages that go with the states assigned since the state
    was last Idle. *)
Definition capture_since_idle (s : State) : list RecorderMsg :=
  match s with
  | IDLE => []
  | RECORDING => [StartCapture]
  | STOPPING | FINALIZING => [StartCapture; StopCapture]
  end.

(** The message that goes with the assignment of a state. *)
Definition capture_of (s : State) : list RecorderMsg :=
  match s with
  | RECORDING => [StartCapture]
  | STOPPING => [StopCapture]
  | _ => []
  end.

(* ================================================================== *)
(** * One worker at a time *)
(* ================================================================== *)

Definition is_respawn (t : Timer) : bool :=
  match cb t with CbRespawn => true | _ => false end.

(** The respawns that are queued. *)
Definition respawns (w : World) : nat :=
  length (filter is_respawn (timers w)).


(** What of a world the worker's life cycle reads and writes. *)
Definition wk (w : World) : option ChildProcess * list nat * nat * bool :=
  (asrProcess w, children w, nextPid w, pythonPath w).

(** [w'] has the worker of [w], no respawn more, and the first-run flag
    when [w] had it. *)
Definition quiet (w w' : World) : Prop :=
  wk w' = wk w
  /\ (respawns w' <= respawns w)%nat
  /\ (firstRunShown w = true -> firstRunShown w' = true).

(* ================================================================== *)
(** * The first-run hint *)
(* ================================================================== *)

Definition is_hint (e : Effect) : bool :=
  match e with IndicatorSend ShowHint => true | _ => false end.

(** How often the hint was sent to the indicator. *)
Definition hints (effs : list Effect) : nat := length (filter is_hint effs).

(* ================================================================== *)
(** * No interpreter *)
(* ================================================================== *)

(** An output that starts a process or writes to one. *)
Definition is_worker_effect (e : Effect) : bool :=
  match e with
  | WorkerWrite _ _ | Spawn _ => true
  | _ => false
  end.

(* ================================================================== *)
(** * Examples for the further properties *)
(* ================================================================== *)

(** [path.join] on Windows for segments that need no normalising: the
    segments with a backslash between them. *)
Fixpoint win_join (segs : list jsstring) : jsstring :=
  match segs with
  | [] => []
  | [s] => s
  | s :: rest => s ++ 92 :: win_join rest
  end.

(** The code units of ['C:\Python312\python.exe']. *)
Definition python312_exe : jsstring :=
  Eval vm_compute in win_join [C_COLON; PYTHON312; PYTHON_EXE].

(** A machine with Python 3.12 installed on the system drive, and nothing
    set but [USERPROFILE]. *)
Definition demo_host : PathHost :=
  mkPathHost None None None (Some [85]) win_join
    (jsstring_eqb python312_exe).


(** A chunk of the worker's output: ['hi'], CR LF, the sentinel, LF. *)
Definition demo_chunk : jsstring :=
  Eval vm_compute in hi ++ [13; 10] ++ TRANSCRIBED_FINISH ++ [10].

(** The booted application after one dictation: the state is Idle again,
    the indicator is still visible and its fade is pending. *)
Definition fading_world : World :=
  Eval vm_compute in
  match run [held; released; Elapse 30; TimerFire 0] demo_world with
  | Some w => w
  | None => demo_world
  end.

(* ################################################################## *)
(** * Part III: properties *)
(* ################################################################## *)

(* ================================================================== *)
(** * The strict cycle of [transition] *)
(* ================================================================== *)

Lemma State_eqb_eq : forall a b, State_eqb a b = true <-> a = b.
Proof. intros [] []; simpl; split; congruence. Qed.

Lemma State_eqb_refl : forall a, State_eqb a a = true.
Proof. intros []; reflexivity. Qed.

Lemma last_nonempty : forall (A : Type) (l : list A) (x d d' : A),
  last (x :: l) d = last (x :: l) d'.
Proof.
  induction l as [|y l IH]; intros x d d'; [reflexivity|].
  change (last (y :: l) d = last (y :: l) d'). apply IH.
Qed.

Lemma cycle_path_app : forall p1 s p2,
  cycle_path s p1 -> cycle_path (last p1 s) p2 -> cycle_path s (p1 ++ p2).
Proof.
  induction p1 as [|t p1 IH]; intros s p2 H1 H2.
  - exact H2.
  - destruct H1 as [Ht H1]. split; [exact Ht|].
    apply IH; [exact H1|].
    destruct p1 as [|u p1]; [exact H2|].
    change (last (t :: u :: p1) s) with (last (u :: p1) s) in H2.
    rewrite (last_nonempty _ p1 u t s). exact H2.
Qed.

(** What one request does: the state is assigned when the target is the
    successor, and nothing at all happens otherwise. *)
Lemma transition_cases : forall t w,
  transition t w =
  if State_eqb t (successor (currentState w))
  then set_history (history w ++ [t]) (set_currentState t w)
  else w.
Proof.
  intros t w. unfold transition.
  destruct (currentState w), t; reflexivity.
Qed.

Lemma transitions_path : forall reqs w,
  exists path,
    history (transitions reqs w) = history w ++ path
    /\ cycle_path (currentState w) path
    /\ currentState (transitions reqs w) = last path (currentState w).
Proof.
  induction reqs as [|t reqs IH]; intros w.
  - exists []. simpl. rewrite app_nil_r. auto.
  - unfold transitions in *. simpl.
    destruct (IH (transition t w)) as [path [Hh [Hp Hc]]].
    rewrite transition_cases in *.
    destruct (State_eqb t (successor (currentState w))) eqn:E.
    + apply State_eqb_eq in E. simpl in *.
      exists (t :: path). rewrite Hh, <- app_assoc. simpl.
      repeat split; auto.
      rewrite Hc. destruct path as [|u path]; [reflexivity|].
      change (last (t :: u :: path) (currentState w)) with
        (last (u :: path) (currentState w)).
      apply last_nonempty.
    + exists path. auto.
Qed.

(* ================================================================== *)
(** * Little-endian integers *)
(* ================================================================== *)

Lemma some_inj : forall (A : Type) (a b : A), Some a = Some b -> a = b.
Proof. intros A a b H. congruence. Qed.

Lemma testbit_255 : forall i, 0 <= i -> Z.testbit 255 i = (i <? 8).
Proof.
  intros i Hi. change 255 with (Z.ones 8).
  apply Z.testbit_ones_nonneg; lia.
Qed.

Lemma testbit_byte_at : forall v k i,
  0 <= k -> 0 <= i ->
  Z.testbit (Z.land (Z.shiftr v k) 255) i = Z.testbit v (i + k) && (i <? 8).
Proof.
  intros v k i Hk Hi.
  rewrite Z.land_spec, Z.shiftr_spec, testbit_255 by lia. reflexivity.
Qed.

Lemma land_255_range : forall v, 0 <= Z.land v 255 < 256.
Proof.
  intros v. change 255 with (Z.ones 8). rewrite Z.land_ones by lia.
  apply Z.mod_pos_bound. lia.
Qed.

Lemma testbit_high_u32 : forall v i,
  0 <= v < 2 ^ 32 -> 32 <= i -> Z.testbit v i = false.
Proof.
  intros v i Hv Hi.
  destruct (Z.eq_dec v 0) as [->|Hnz]; [apply Z.testbit_0_l|].
  apply Z.bits_above_log2; [lia|].
  assert (Z.log2 v < 32) by (apply Z.log2_lt_pow2; lia). lia.
Qed.

(** Reading back what [writeUInt32LE] wrote gives the number written. *)
Lemma readUInt32LE_writeUInt32LE : forall v b,
  writeUInt32LE v = Some b -> readUInt32LE b = Some v.
Proof.
  intros v b. unfold writeUInt32LE.
  destruct ((0 <=? v) && (v <? 2 ^ 32)) eqn:R; [|discriminate].
  apply andb_true_iff in R. destruct R as [R1 R2].
  apply Z.leb_le in R1. apply Z.ltb_lt in R2.
  intros E. apply some_inj in E. subst b. unfold readUInt32LE. f_equal.
  apply Z.bits_inj'. intros n Hn.
  rewrite !Z.lor_spec.
  replace (Z.land v 255) with (Z.land (Z.shiftr v 0) 255)
    by (rewrite Z.shiftr_0_r; reflexivity).
  destruct (Z.ltb_spec n 8) as [L8|G8].
  { rewrite testbit_byte_at by lia.
    rewrite !Z.shiftl_spec_low by lia.
    replace (n + 0) with n by lia.
    destruct (Z.ltb_spec n 8); [|lia].
    rewrite andb_true_r, !orb_false_r. reflexivity. }
  destruct (Z.ltb_spec n 16) as [L16|G16].
  { rewrite (Z.shiftl_spec _ 8) by lia.
    rewrite !testbit_byte_at by lia.
    rewrite !Z.shiftl_spec_low by lia.
    replace (n - 8 + 8) with n by lia.
    destruct (Z.ltb_spec n 8); [lia|].
    destruct (Z.ltb_spec (n - 8) 8); [|lia].
    rewrite andb_false_r, andb_true_r, !orb_false_r. reflexivity. }
  destruct (Z.ltb_spec n 24) as [L24|G24].
  { rewrite (Z.shiftl_spec _ 8), (Z.shiftl_spec _ 16) by lia.
    rewrite !testbit_byte_at by lia.
    rewrite !Z.shiftl_spec_low by lia.
    replace (n - 16 + 16) with n by lia.
    destruct (Z.ltb_spec n 8); [lia|].
    destruct (Z.ltb_spec (n - 8) 8); [lia|].
    destruct (Z.ltb_spec (n - 16) 8); [|lia].
    rewrite !andb_false_r, andb_true_r, !orb_false_r. reflexivity. }
  rewrite (Z.shiftl_spec _ 8), (Z.shiftl_spec _ 16), (Z.shiftl_spec _ 24) by lia.
  rewrite !testbit_byte_at by lia.
  replace (n - 24 + 24) with n by lia.
  destruct (Z.ltb_spec n 8); [lia|].
  destruct (Z.ltb_spec (n - 8) 8); [lia|].
  destruct (Z.ltb_spec (n - 16) 8); [lia|].
  rewrite !andb_false_r. simpl.
  destruct (Z.ltb_spec (n - 24) 8).
  - rewrite andb_true_r. reflexivity.
  - rewrite andb_false_r. symmetry. apply testbit_high_u32; lia.
Qed.

(* ================================================================== *)
(** * The framing protocol *)
(* ================================================================== *)

Lemma stdin_of_app : forall p a b,
  stdin_of p (a ++ b) = stdin_of p a ++ stdin_of p b.
Proof.
  induction a as [|e a IH]; intros b; simpl; [reflexivity|].
  destruct e; try apply IH.
  destruct (Nat.eqb p0 p); [|apply IH].
  rewrite IH, app_assoc. reflexivity.
Qed.

Lemma land_255_mod : forall v, Z.land v 255 = v mod 256.
Proof.
  intros v. change 255 with (Z.ones 8). rewrite Z.land_ones by lia. reflexivity.
Qed.

Lemma writeUInt32LE_spec : forall v,
  0 <= v < 2 ^ 32 -> writeUInt32LE v = Some (spec_le32 v).
Proof.
  intros v Hv. unfold writeUInt32LE, spec_le32.
  destruct (Z.leb_spec 0 v); [|lia].
  destruct (Z.ltb_spec v (2 ^ 32)); [|lia].
  simpl andb. cbv iota.
  rewrite !land_255_mod, !Z.shiftr_div_pow2 by lia. reflexivity.
Qed.

(** The four bytes of the length field weigh 1, 256, 65536 and 16777216. *)
Lemma spec_le32_value : forall v,
  0 <= v < 2 ^ 32 ->
  exists l0 l1 l2 l3,
    spec_le32 v = [l0; l1; l2; l3]
    /\ is_byte l0 /\ is_byte l1 /\ is_byte l2 /\ is_byte l3
    /\ l0 + 256 * l1 + 65536 * l2 + 16777216 * l3 = v.
Proof.
  intros v Hv. unfold spec_le32, is_byte.
  exists (v mod 256), ((v / 256) mod 256), ((v / 65536) mod 256),
         ((v / 16777216) mod 256).
  split; [reflexivity|].
  assert (H1 := Z.mod_pos_bound v 256 ltac:(lia)).
  assert (H2 := Z.mod_pos_bound (v / 256) 256 ltac:(lia)).
  assert (H3 := Z.mod_pos_bound (v / 65536) 256 ltac:(lia)).
  assert (H4 := Z.mod_pos_bound (v / 16777216) 256 ltac:(lia)).
  repeat split; try lia.
  assert (E1 := Z.div_mod v 256 ltac:(lia)).
  assert (E2 := Z.div_mod (v / 256) 256 ltac:(lia)).
  assert (E3 := Z.div_mod (v / 65536) 256 ltac:(lia)).
  assert (D2 : v / 256 / 256 = v / 65536)
    by (rewrite Z.div_div by lia; reflexivity).
  assert (D3 : v / 65536 / 256 = v / 16777216)
    by (rewrite Z.div_div by lia; reflexivity).
  assert (S : v / 16777216 < 256)
    by (apply Z.div_lt_upper_bound; lia).
  assert (P : 0 <= v / 16777216) by (apply Z.div_pos; lia).
  rewrite (Z.mod_small (v / 16777216) 256) by lia.
  rewrite D2 in E2. rewrite D3 in E3. lia.
Qed.

(** ** What the three send functions write *)

Lemma signalStartToWorker_out : forall w,
  out (signalStartToWorker w) =
  out w ++ match writable w with
           | Some p => [WorkerWrite p (spec_frame_bytes START)]
           | None => []
           end.
Proof.
  intros w. unfold signalStartToWorker.
  destruct (writable w); simpl; [reflexivity|].
  rewrite app_nil_r. reflexivity.
Qed.

Lemma signalEndToWorker_out : forall w,
  out (signalEndToWorker w) =
  out w ++ match writable w with
           | Some p => [WorkerWrite p (spec_frame_bytes END)]
           | None => []
           end.
Proof.
  intros w. unfold signalEndToWorker.
  destruct (writable w); simpl; [reflexivity|].
  rewrite app_nil_r. reflexivity.
Qed.

Lemma sendAudioToWorker_out : forall buffer w,
  out (sendAudioToWorker buffer w) =
  out w ++ match writable w with
           | Some p =>
               if Z.of_nat (length buffer) <? 2 ^ 32 then
                 [ WorkerWrite p (2 :: spec_le32 (Z.of_nat (length buffer)));
                   WorkerWrite p buffer ]
               else []
           | None => []
           end.
Proof.
  intros buffer w. unfold sendAudioToWorker.
  destruct (writable w) as [p|]; [|rewrite app_nil_r; reflexivity].
  destruct (Z.ltb_spec (Z.of_nat (length buffer)) (2 ^ 32)) as [L|G].
  - rewrite writeUInt32LE_spec by lia. simpl.
    rewrite <- app_assoc. reflexivity.
  - unfold writeUInt32LE.
    destruct (Z.ltb_spec (Z.of_nat (length buffer)) (2 ^ 32)); [lia|].
    rewrite andb_false_r, app_nil_r. reflexivity.
Qed.

(** ** Every step writes whole frames *)

Lemma framed_nil : framed [].
Proof. intros p. exists []. split; [reflexivity|constructor]. Qed.

Lemma framed_app : forall a b, framed a -> framed b -> framed (a ++ b).
Proof.
  intros a b Ha Hb p.
  destruct (Ha p) as [fa [Ea Fa]]. destruct (Hb p) as [fb [Eb Fb]].
  exists (fa ++ fb). rewrite stdin_of_app, Ea, Eb, map_app, concat_app.
  split; [reflexivity|]. apply Forall_app. auto.
Qed.

Lemma framed_other : forall e, is_write e = false -> framed [e].
Proof.
  intros e He p. exists []. split; [|constructor].
  destruct e; try reflexivity. discriminate.
Qed.

Lemma framed_frame : forall q f,
  pcm16_frame f -> framed [WorkerWrite q (spec_frame_bytes f)].
Proof.
  intros q f Hf p. simpl. destruct (Nat.eqb q p).
  - exists [f]. simpl. rewrite !app_nil_r. split; [reflexivity|].
    constructor; [exact Hf|constructor].
  - exists []. split; [reflexivity|constructor].
Qed.

Lemma framed_audio : forall q payload,
  pcm16 payload ->
  framed [ WorkerWrite q (2 :: spec_le32 (Z.of_nat (length payload)));
           WorkerWrite q payload ].
Proof.
  intros q payload Hp p. simpl. destruct (Nat.eqb q p).
  - exists [AUDIO payload]. simpl. rewrite !app_nil_r.
    split; [reflexivity|]. constructor; [exact Hp|constructor].
  - exists []. split; [reflexivity|constructor].
Qed.

Lemma ext_refl : forall w, ext w w.
Proof.
  intros w. exists []. rewrite app_nil_r. split; [reflexivity|apply framed_nil].
Qed.

Lemma ext_trans : forall a b c, ext a b -> ext b c -> ext a c.
Proof.
  intros a b c [e1 [E1 F1]] [e2 [E2 F2]].
  exists (e1 ++ e2). rewrite E2, E1, app_assoc.
  split; [reflexivity|apply framed_app; assumption].
Qed.

Lemma ext_same : forall w w', out w' = out w -> ext w w'.
Proof.
  intros w w' E. exists []. rewrite app_nil_r.
  split; [exact E|apply framed_nil].
Qed.

Lemma ext_emit : forall e w, is_write e = false -> ext w (emit e w).
Proof.
  intros e w He. exists [e]. split; [reflexivity|apply framed_other; exact He].
Qed.

Create HintDb ext.

Lemma ext_setTimeout : forall c d w, ext w (snd (setTimeout c d w)).
Proof. intros. apply ext_same. reflexivity. Qed.

Lemma ext_clearTimeout : forall id w, ext w (clearTimeout id w).
Proof. intros. apply ext_same. reflexivity. Qed.

Lemma ext_transition : forall t w, ext w (transition t w).
Proof.
  intros t w. apply ext_same. rewrite transition_cases.
  destruct (State_eqb t (successor (currentState w))); reflexivity.
Qed.

#[local] Hint Resolve ext_setTimeout ext_clearTimeout ext_transition : ext.

Lemma ext_showIndicator : forall w, ext w (showIndicator w).
Proof.
  intros w. unfold showIndicator.
  destruct (indicatorWindow w) as [[|]|]; [| |apply ext_refl].
  - simpl. destruct (firstRunShown w).
    + apply ext_emit. reflexivity.
    + exists [IndicatorSend SetListening; IndicatorSend ShowHint; FirstRunMarker].
      simpl. rewrite <- !app_assoc. split; [reflexivity|].
      intros p. exists []. split; [reflexivity|constructor].
  - simpl. destruct (firstRunShown w).
    + exists [IndicatorSend SetListening].
      split; [reflexivity|apply framed_other; reflexivity].
    + exists [IndicatorSend SetListening; IndicatorSend ShowHint; FirstRunMarker].
      simpl. rewrite <- !app_assoc. split; [reflexivity|].
      intros p. exists []. split; [reflexivity|constructor].
Qed.

Lemma ext_hideIndicator : forall b w, ext w (hideIndicator b w).
Proof.
  intros b w. unfold hideIndicator.
  destruct (indicatorWindow w) as [[|]|]; try apply ext_refl.
  destruct b.
  - apply ext_same. reflexivity.
  - exists [IndicatorSend SetStopping].
    split; [reflexivity|apply framed_other; reflexivity].
Qed.

Lemma ext_fadeStage : forall w, ext w (fadeStage w).
Proof.
  intros w. unfold fadeStage.
  destruct (indicatorWindow w) as [[|]|]; try apply ext_refl.
  exists [IndicatorSend FadeOut].
  split; [reflexivity|apply framed_other; reflexivity].
Qed.

Lemma ext_hideStage : forall w, ext w (hideStage w).
Proof.
  intros w. unfold hideStage.
  destruct (indicatorWindow w); [apply ext_same; reflexivity|apply ext_refl].
Qed.

Lemma ext_signalStartToWorker : forall w, ext w (signalStartToWorker w).
Proof.
  intros w. eexists. split; [apply signalStartToWorker_out|].
  destruct (writable w); [apply framed_frame; exact I|apply framed_nil].
Qed.

Lemma ext_signalEndToWorker : forall w, ext w (signalEndToWorker w).
Proof.
  intros w. eexists. split; [apply signalEndToWorker_out|].
  destruct (writable w); [apply framed_frame; exact I|apply framed_nil].
Qed.

#[local] Hint Resolve ext_showIndicator ext_hideIndicator ext_fadeStage
  ext_hideStage ext_signalStartToWorker ext_signalEndToWorker : ext.

Lemma ext_injectText : forall text w, ext w (injectText text w).
Proof.
  intros text w. unfold injectText.
  destruct (isPaused w); [apply ext_refl|].
  destruct (falsy text || falsy (trim text)); [apply ext_refl|].
  set (w2 := set_clipboard (trim text) (hideIndicator true w)).
  assert (H2 : ext w w2).
  { eapply ext_trans; [apply ext_hideIndicator|]. apply ext_same. reflexivity. }
  assert (H3 : ext w (if appFocused w2
                      then emit Blur (set_appFocused false w2) else w2)).
  { destruct (appFocused w2); [|exact H2].
    eapply ext_trans; [exact H2|].
    exists [Blur]. split; [reflexivity|apply framed_other; reflexivity]. }
  cbv zeta.
  destruct (win32 _); [|exact H3].
  eapply ext_trans; [exact H3|]. apply ext_emit. reflexivity.
Qed.

#[local] Hint Resolve ext_injectText : ext.

Lemma ext_onWorkerLine : forall line w, ext w (onWorkerLine line w).
Proof.
  intros line w. unfold onWorkerLine. cbv zeta.
  destruct (jsstring_eqb _ _); [apply ext_refl|].
  destruct (falsy _); [apply ext_refl|].
  eapply ext_trans; [|apply ext_injectText].
  destruct (0 <? lastReleaseTime w); [apply ext_same; reflexivity|apply ext_refl].
Qed.

Lemma ext_onWorkerStdout : forall d w, ext w (onWorkerStdout d w).
Proof.
  intros d w. unfold onWorkerStdout.
  generalize (split_lines d) as lines. intros lines. revert w.
  induction lines as [|l lines IH]; intros w; simpl; [apply ext_refl|].
  eapply ext_trans; [apply ext_onWorkerLine|apply IH].
Qed.

Lemma ext_startASRWorker : forall w, ext w (startASRWorker w).
Proof.
  intros w. unfold startASRWorker.
  destruct (negb (pythonPath w)); [apply ext_refl|].
  exists [Spawn (nextPid w)].
  split; [reflexivity|apply framed_other; reflexivity].
Qed.

Lemma ext_resetToIdle : forall w, ext w (resetToIdle w).
Proof.
  intros w. unfold resetToIdle.
  eapply ext_trans; [|apply ext_transition]. apply ext_same. reflexivity.
Qed.

#[local] Hint Resolve ext_onWorkerStdout ext_startASRWorker ext_resetToIdle : ext.

Lemma ext_startRecording : forall w, ext w (startRecording w).
Proof.
  intros w. unfold startRecording. cbv zeta.
  match goal with |- ext _ (if recorderWindow ?x then _ else _) =>
    assert (H : ext w x)
  end.
  { eapply ext_trans; [|apply ext_signalStartToWorker].
    eapply ext_trans; [|apply ext_showIndicator].
    eapply ext_trans; [|apply ext_transition].
    apply ext_same. reflexivity. }
  destruct (recorderWindow _); [|exact H].
  eapply ext_trans; [exact H|]. apply ext_emit. reflexivity.
Qed.

Lemma ext_stopRecording : forall w, ext w (stopRecording w).
Proof.
  intros w. unfold stopRecording, finalizeRecording. cbv zeta.
  eapply ext_trans; [|apply ext_resetToIdle].
  eapply ext_trans; [|apply ext_transition].
  eapply ext_trans; [|apply ext_signalEndToWorker].
  match goal with |- ext _ (if recorderWindow ?x then _ else _) =>
    assert (H : ext w x)
  end.
  { eapply ext_trans; [|apply ext_transition].
    eapply ext_trans; [|apply ext_hideIndicator].
    apply ext_same. reflexivity. }
  destruct (recorderWindow _); [|exact H].
  eapply ext_trans; [exact H|]. apply ext_emit. reflexivity.
Qed.

#[local] Hint Resolve ext_startRecording ext_stopRecording : ext.

Lemma ext_checkInputState : forall w, ext w (checkInputState w).
Proof.
  intros w. unfold checkInputState.
  destruct (isPaused w); [apply ext_refl|]. cbv zeta.
  destruct (ctrlDown w && winDown w).
  - match goal with |- ext _ (if State_eqb (currentState ?x) _ then _ else _) =>
      assert (H : ext w x)
    end.
    { destruct (stopTimer w); [apply ext_same; reflexivity|apply ext_refl]. }
    destruct (State_eqb _ _); [|exact H].
    eapply ext_trans; [exact H|apply ext_startRecording].
  - destruct (State_eqb _ _ && negb _); [|apply ext_refl].
    apply ext_same. reflexivity.
Qed.

Lemma ext_onKeyTick : forall kc kl kr w, ext w (onKeyTick kc kl kr w).
Proof.
  intros kc kl kr w. unfold onKeyTick. cbv zeta.
  eapply ext_trans; [|apply ext_checkInputState]. apply ext_same. reflexivity.
Qed.

(** ** The shape of a converted chunk *)

Lemma writeInt16LE_shape : forall v two,
  writeInt16LE v = Some two -> length two = 2%nat /\ Forall is_byte two.
Proof.
  intros v two. unfold writeInt16LE.
  destruct (_ || _); [discriminate|].
  intros E. apply some_inj in E. subst two. split; [reflexivity|].
  repeat constructor; apply land_255_range.
Qed.

Lemma float32ToInt16_shape : forall floatArray buf,
  float32ToInt16 floatArray = Some buf ->
  length buf = (2 * length floatArray)%nat /\ Forall is_byte buf.
Proof.
  induction floatArray as [|x rest IH]; intros buf; simpl.
  - intros E. injection E as <-. split; [reflexivity|constructor].
  - destruct (sample16 x) as [two|] eqn:S; [|discriminate].
    destruct (float32ToInt16 rest) as [b|]; [|discriminate].
    intros E. injection E as <-.
    destruct (writeInt16LE_shape _ _ S) as [L2 B2].
    destruct (IH b eq_refl) as [Lb Bb].
    split.
    + rewrite length_app, L2, Lb. lia.
    + apply Forall_app. auto.
Qed.

Lemma ext_onAudioData : forall data w, ext w (onAudioData data w).
Proof.
  intros data w. unfold onAudioData.
  destruct (State_eqb _ _); [|apply ext_refl].
  destruct (float32ToInt16 data) as [pcm|] eqn:C; [|apply ext_refl].
  eexists. split; [apply sendAudioToWorker_out|].
  destruct (writable w) as [p|]; [|apply framed_nil].
  destruct (Z.ltb_spec (Z.of_nat (length pcm)) (2 ^ 32)); [|apply framed_nil].
  apply framed_audio.
  destruct (float32ToInt16_shape _ _ C) as [L B].
  split; [exact B|]. split; [|assumption].
  exists (length data). exact L.
Qed.

Lemma ext_onCaptureError : forall w, ext w (onCaptureError w).
Proof.
  intros w. unfold onCaptureError.
  destruct (negb _); [apply ext_resetToIdle|apply ext_refl].
Qed.

Lemma ext_runCallback : forall c w, ext w (runCallback c w).
Proof.
  intros [] w; simpl; auto with ext.
  unfold stopTimerFired.
  eapply ext_trans; [apply ext_stopRecording|].
  generalize (stopRecording w). intros x. apply ext_same. reflexivity.
Qed.

Lemma ext_step : forall e w w', step e w = Some w' -> ext w w'.
Proof.
  intros e w w' H. destruct e; simpl in H.
  - injection H as <-. apply ext_onKeyTick.
  - destruct (findTimer id w) as [t|]; [|discriminate].
    destruct (due t <=? now w); [|discriminate].
    injection H as <-.
    eapply ext_trans; [apply ext_clearTimeout|apply ext_runCallback].
  - injection H as <-. apply ext_onAudioData.
  - injection H as <-. apply ext_onCaptureError.
  - injection H as <-. unfold onTogglePause. cbv zeta.
    eapply ext_trans; [|apply ext_emit; reflexivity].
    apply ext_same. reflexivity.
  - injection H as <-. apply ext_same. reflexivity.
  - destruct (isChild p w); [|discriminate].
    injection H as <-. apply ext_onWorkerStdout.
  - destruct (isChild p w); [|discriminate].
    injection H as <-. apply ext_same. reflexivity.
  - destruct (isChild p w); [|discriminate].
    injection H as <-. apply ext_same. reflexivity.
  - destruct (0 <=? dt); [|discriminate].
    injection H as <-. apply ext_same. reflexivity.
Qed.

Lemma ext_run : forall es w w', run es w = Some w' -> ext w w'.
Proof.
  induction es as [|e es IH]; intros w w' H; simpl in H.
  - injection H as <-. apply ext_refl.
  - destruct (step e w) as [w1|] eqn:S; [|discriminate].
    eapply ext_trans; [apply (ext_step _ _ _ S)|apply IH; exact H].
Qed.

(** C4: the frames written to the worker's standard input are byte-exact.
    With a live worker [p], [signalStartToWorker] writes the single byte
    0x01, [signalEndToWorker] the single byte 0x03, and
    [sendAudioToWorker] the byte 0x02, then four bytes that are the
    little-endian unsigned length of the payload, then the payload itself and
    nothing more.  Over any run of the event loop, what is appended to the
    standard input of any process is a concatenation of such frames, every
    AUDIO payload being 16-bit PCM (bytes, two per sample). *)
Theorem worker_frames_byte_exact :
  forall (w : World) (p : nat) (buffer : Buffer),
    writable w = Some p ->
    Z.of_nat (length buffer) < 2 ^ 32 ->
    out (signalStartToWorker w) = out w ++ [WorkerWrite p [1]]
    /\ out (signalEndToWorker w) = out w ++ [WorkerWrite p [3]]
    /\ (exists l0 l1 l2 l3,
           out (sendAudioToWorker buffer w) =
             out w ++ [WorkerWrite p [2; l0; l1; l2; l3]; WorkerWrite p buffer]
           /\ is_byte l0 /\ is_byte l1 /\ is_byte l2 /\ is_byte l3
           /\ l0 + 256 * l1 + 65536 * l2 + 16777216 * l3
              = Z.of_nat (length buffer)
           /\ readUInt32LE [l0; l1; l2; l3] = Some (Z.of_nat (length buffer)))
    /\ (forall es w' q,
           run es w = Some w' ->
           exists frames,
             stdin_of q (out w') =
               stdin_of q (out w) ++ concat (map spec_frame_bytes frames)
             /\ Forall pcm16_frame frames).
Proof.
  intros w p buffer Hp Hlen.
  split; [rewrite signalStartToWorker_out, Hp; reflexivity|].
  split; [rewrite signalEndToWorker_out, Hp; reflexivity|].
  split.
  - assert (R : 0 <= Z.of_nat (length buffer) < 2 ^ 32) by lia.
    destruct (spec_le32_value _ R) as [l0 [l1 [l2 [l3 [E [B0 [B1 [B2 [B3 V]]]]]]]]].
    exists l0, l1, l2, l3.
    rewrite sendAudioToWorker_out, Hp.
    destruct (Z.ltb_spec (Z.of_nat (length buffer)) (2 ^ 32)); [|lia].
    rewrite E. split; [reflexivity|].
    split; [exact B0|]. split; [exact B1|]. split; [exact B2|].
    split; [exact B3|]. split; [exact V|].
    apply readUInt32LE_writeUInt32LE.
    rewrite (writeUInt32LE_spec _ R). f_equal. exact E.
  - intros es w' q Hrun.
    destruct (ext_run _ _ _ Hrun) as [effs [E F]].
    destruct (F q) as [frames [S P]].
    exists frames. rewrite E, stdin_of_app, S. auto.
Qed.

Lemma worker_frames_byte_exact_witness :
  writable demo_world = Some 0%nat
  /\ out (signalStartToWorker demo_world)
     = out demo_world ++ [WorkerWrite 0 [1]]
  /\ out (signalEndToWorker demo_world)
     = out demo_world ++ [WorkerWrite 0 [3]].
Proof.
  split; [reflexivity|].
  destruct (worker_frames_byte_exact demo_world 0%nat [255; 127])
    as [H1 [H2 _]]; [reflexivity|reflexivity|].
  split; [exact H1|exact H2].
Defined.

(* ================================================================== *)
(** * Clipping and scaling *)
(* ================================================================== *)

















(* ================================================================== *)
(** * Paste injection: the guarded cases *)
(* ================================================================== *)

Lemma trimStart_whitespace : forall s,
  forallb is_whitespace s = true -> trimStart s = [].
Proof.
  induction s as [|c s IH]; intros H; [reflexivity|].
  cbn [forallb] in H. apply andb_true_iff in H. destruct H as [Hc Hs].
  cbn [trimStart]. rewrite Hc. apply IH. exact Hs.
Qed.

Lemma trim_whitespace : forall s,
  forallb is_whitespace s = true -> trim s = [].
Proof.
  intros s H. unfold trim. rewrite (trimStart_whitespace s H). reflexivity.
Qed.

(** C9: [injectText] does nothing at all when the system is paused, when
    the text is empty, or when the text consists of whitespace only: the
    world it returns is the world it was given, so the clipboard and the
    focus are what they were and nothing was sent, no synthetic input among
    it. *)
Theorem injectText_noop :
  forall (text : jsstring) (w : World),
    isPaused w = true \/ text = [] \/ forallb is_whitespace text = true ->
    injectText text w = w
    /\ clipboard (injectText text w) = clipboard w
    /\ appFocused (injectText text w) = appFocused w
    /\ out (injectText text w) = out w.
Proof.
  intros text w H.
  assert (E : injectText text w = w).
  { unfold injectText. destruct (isPaused w) eqn:P; [reflexivity|].
    destruct H as [H|[H|H]].
    - discriminate.
    - subst text. reflexivity.
    - rewrite (trim_whitespace text H). cbn [falsy].
      rewrite orb_true_r. reflexivity. }
  rewrite E. repeat split; reflexivity.
Qed.

Lemma injectText_noop_witness :
  injectText [] demo_world = demo_world
  /\ injectText three_spaces demo_world = demo_world
  /\ injectText hi (onTogglePause demo_world) = onTogglePause demo_world
  /\ clipboard (injectText hi demo_world) = hi.
Proof.
  split; [apply (injectText_noop [] demo_world); right; left; reflexivity|].
  split; [apply (injectText_noop three_spaces demo_world);
          right; right; reflexivity|].
  split; [apply (injectText_noop hi (onTogglePause demo_world));
          left; reflexivity|].
  reflexivity.
Defined.

(* ================================================================== *)
(** * The capture-error handler *)
(* ================================================================== *)

(** What [resetToIdle] does: the window and the timestamp are cleared in
    every state; the state itself follows [transition], which moves to
    Idle from Finalizing only. *)
Lemma resetToIdle_fields : forall w,
  pcmBuffers (resetToIdle w) = []
  /\ recordingStartTime (resetToIdle w) = None
  /\ currentState (resetToIdle w) =
     match currentState w with
     | FINALIZING => IDLE
     | s => s
     end.
Proof.
  intros w. destruct w as [cs pb rst rw cd wd st iw frs ip ap lrt nw tm nt
                            ch np pp w32 cl af ot hs].
  destruct cs; repeat split; reflexivity.
Qed.

Lemma onCaptureError_recording : forall w,
  currentState w = RECORDING ->
  currentState (onCaptureError w) = RECORDING
  /\ pcmBuffers (onCaptureError w) = []
  /\ recordingStartTime (onCaptureError w) = None
  /\ history (onCaptureError w) = history w.
Proof.
  intros w H. unfold onCaptureError. rewrite H. cbn [State_eqb negb].
  destruct (resetToIdle_fields w) as [A [B C]]. rewrite H in C.
  repeat split; try assumption.
  clear A B C. destruct w as [cs pb rst rw cd wd st iw frs ip ap lrt nw tm nt
                              ch np pp w32 cl af ot hs].
  cbn [currentState] in H. subst cs. reflexivity.
Qed.

(** In no world the loop can be in does a capture error change the
    state: the only state other than Idle between two turns is Recording. *)
Lemma capture_error_never_resets : forall w,
  wf w -> currentState (onCaptureError w) = currentState w.
Proof.
  intros w [[B|B] _].
  - unfold onCaptureError. rewrite B. cbn [State_eqb negb]. exact B.
  - destruct (onCaptureError_recording w B) as [E _]. congruence.
Qed.

(** C1, on the code: a capture error during a recording clears the audio
    window and the start timestamp but leaves the state Recording, because
    [resetToIdle] asks [transition] for Idle and the table allows Idle from
    Finalizing only.  The next audio chunk is still forwarded. *)
Theorem capture_error_keeps_recording :
  exists w1 w2 w3,
    run [held] demo_world = Some w1
    /\ currentState w1 = RECORDING
    /\ step CaptureError w1 = Some w2
    /\ currentState w2 = RECORDING
    /\ pcmBuffers w2 = []
    /\ recordingStartTime w2 = None
    /\ history w2 = [RECORDING]
    /\ step (AudioData [JsNum.one]) w2 = Some w3
    /\ out w3 = out w2 ++ [WorkerWrite 0 [2; 2; 0; 0; 0];
                           WorkerWrite 0 [255; 127]].
Proof.
  exists recording_world.
  exists (set_recordingStartTime None recording_world).
  eexists.
  split; [vm_compute; reflexivity|].
  split; [reflexivity|]. split; [vm_compute; reflexivity|].
  split; [reflexivity|]. split; [reflexivity|].
  split; [reflexivity|]. split; [reflexivity|].
  split; vm_compute; reflexivity.
Qed.

(* ================================================================== *)
(** * The audio handler *)
(* ================================================================== *)

Lemma app_cons_not_self : forall (A : Type) (l m : list A) (x : A),
  l <> l ++ x :: m.
Proof.
  intros A l m x E. apply (f_equal (@length A)) in E.
  rewrite length_app in E. cbn [length] in E. lia.
Qed.

Lemma onAudioData_not_recording : forall data w,
  currentState w <> RECORDING -> onAudioData data w = w.
Proof.
  intros data w H. unfold onAudioData.
  destruct (State_eqb (currentState w) RECORDING) eqn:E; [|reflexivity].
  apply State_eqb_eq in E. contradiction.
Qed.

Lemma onAudioData_no_worker : forall data w,
  writable w = None -> onAudioData data w = w.
Proof.
  intros data w H. unfold onAudioData, sendAudioToWorker. rewrite H.
  destruct (State_eqb _ _); [|reflexivity].
  destruct (float32ToInt16 data); reflexivity.
Qed.

(** C6 as stated fails: in the state Recording, with the worker gone, a
    chunk is dropped. *)
Lemma audio_dropped_while_recording_without_worker :
  run [held; WorkerClose 0 1] demo_world = Some crashed_world
  /\ currentState crashed_world = RECORDING
  /\ onAudioData [JsNum.one] crashed_world = crashed_world
  /\ ~ (forwarded [JsNum.one] crashed_world
        <-> currentState crashed_world = RECORDING).
Proof.
  assert (D : onAudioData [JsNum.one] crashed_world = crashed_world)
    by (apply onAudioData_no_worker; reflexivity).
  split; [vm_compute; reflexivity|].
  split; [reflexivity|]. split; [exact D|].
  intros [_ H]. destruct (H eq_refl) as [p [pcm [_ E]]].
  rewrite D in E. exact (app_cons_not_self _ _ _ _ E).
Qed.

(** C6, amended: a chunk is converted and written to the worker as one
    AUDIO frame if and only if the state is Recording and there is a live
    worker handle when it arrives; in any other state, and without a live
    handle, the chunk is dropped and the world is unchanged.  (The chunk is
    one the conversion accepts, short enough for the length field.) *)
Theorem audio_forwarded_iff_recording_and_live :
  forall (data : list JsNum.number) (pcm : Buffer) (w : World),
    float32ToInt16 data = Some pcm ->
    Z.of_nat (length pcm) < 2 ^ 32 ->
    (forwarded data w <->
       currentState w = RECORDING /\ exists p, writable w = Some p)
    /\ (currentState w <> RECORDING -> onAudioData data w = w)
    /\ (writable w = None -> onAudioData data w = w).
Proof.
  intros data pcm w C L.
  split; [|split; [apply onAudioData_not_recording|apply onAudioData_no_worker]].
  split.
  - intros [p [pcm' [C' E]]].
    destruct (State_eqb (currentState w) RECORDING) eqn:S.
    + apply State_eqb_eq in S. split; [exact S|].
      destruct (writable w) as [q|] eqn:W; [eauto|].
      rewrite (onAudioData_no_worker data w W) in E.
      destruct (app_cons_not_self _ _ _ _ E).
    + assert (N : currentState w <> RECORDING).
      { intros K. rewrite K in S. discriminate. }
      rewrite (onAudioData_not_recording data w N) in E.
      destruct (app_cons_not_self _ _ _ _ E).
  - intros [S [p W]]. exists p, pcm. split; [exact C|].
    unfold onAudioData. rewrite S, C. cbn [State_eqb].
    rewrite sendAudioToWorker_out, W.
    destruct (Z.ltb_spec (Z.of_nat (length pcm)) (2 ^ 32)); [reflexivity|lia].
Qed.

Lemma audio_forwarded_iff_recording_and_live_witness :
  float32ToInt16 [JsNum.one] = Some [255; 127]
  /\ forwarded [JsNum.one] recording_world
  /\ onAudioData [JsNum.one] demo_world = demo_world.
Proof.
  assert (C : float32ToInt16 [JsNum.one] = Some [255; 127])
    by (vm_compute; reflexivity).
  destruct (audio_forwarded_iff_recording_and_live
              [JsNum.one] [255; 127] recording_world C eq_refl) as [[_ F] _].
  destruct (audio_forwarded_iff_recording_and_live
              [JsNum.one] [255; 127] demo_world C eq_refl) as [_ [D _]].
  split; [exact C|]. split.
  - apply F. split; [reflexivity|]. exists 0%nat. reflexivity.
  - apply D. discriminate.
Defined.

(** Projections of updated worlds. *)
Ltac world_simpl :=
  cbn [currentState pcmBuffers recordingStartTime recorderWindow ctrlDown
       winDown stopTimer indicatorWindow firstRunShown isPaused asrProcess
       lastReleaseTime now timers nextTimer children nextPid pythonPath win32
       clipboard appFocused out history
       set_currentState set_pcmBuffers set_recordingStartTime set_ctrlDown
       set_winDown set_stopTimer set_indicatorWindow set_firstRunShown
       set_isPaused set_asrProcess set_lastReleaseTime set_now set_timers
       set_nextTimer set_children set_nextPid set_clipboard set_appFocused
       set_out set_history emit fst snd] in *.

(* ================================================================== *)
(** * Respawn of the worker *)
(* ================================================================== *)

Lemma find_fresh : forall id ts (t : Timer),
  Forall (fun u => (tid u < id)%nat) ts ->
  tid t = id ->
  find (fun u => Nat.eqb (tid u) id) (ts ++ [t]) = Some t.
Proof.
  intros id ts t F E. induction F as [|u ts Hu F IH]; cbn [app find].
  - rewrite E, Nat.eqb_refl. reflexivity.
  - destruct (Nat.eqb_spec (tid u) id); [lia|exact IH].
Qed.

Lemma filter_fresh : forall id ts (t : Timer),
  Forall (fun u => (tid u < id)%nat) ts ->
  tid t = id ->
  filter (fun u => negb (Nat.eqb (tid u) id)) (ts ++ [t]) = ts.
Proof.
  intros id ts t F E. induction F as [|u ts Hu F IH]; cbn [app filter].
  - rewrite E, Nat.eqb_refl. reflexivity.
  - destruct (Nat.eqb_spec (tid u) id); [lia|]. cbn [negb]. rewrite IH.
    reflexivity.
Qed.

(** What the [close] handler leaves behind. *)
Lemma step_WorkerClose : forall w p code w',
  step (WorkerClose p code) w = Some w' ->
  isChild p w = true
  /\ asrProcess w' = None
  /\ timers w' =
       timers w ++ [mkTimer (nextTimer w) (now w + RESPAWN_DELAY_MS) CbRespawn]
  /\ nextTimer w' = S (nextTimer w)
  /\ now w' = now w
  /\ pythonPath w' = pythonPath w
  /\ nextPid w' = nextPid w
  /\ out w' = out w
  /\ currentState w' = currentState w.
Proof.
  intros w p code w' H. cbn [step] in H.
  destruct (isChild p w); [|discriminate].
  apply some_inj in H. subst w'.
  repeat split; reflexivity.
Qed.

Lemma crash_cycle_healthy : forall w,
  healthy w ->
  exists w',
    crash_cycle w = Some w'
    /\ healthy w'
    /\ now w' = now w + RESPAWN_DELAY_MS
    /\ timers w' = timers w
    /\ nextPid w' = S (nextPid w)
    /\ out w' = out w ++ [Spawn (nextPid w)].
Proof.
  intros w [Hp [[c [Ha [Hc Hw]]] Hf]].
  unfold crash_cycle. rewrite Ha.
  destruct w as [cs pb rst rw cd wd st iw frs ip ap lrt nw tm nt
                 ch np pp w32 cl af ot hs].
  unfold fresh_ids, isChild, writable in *. world_simpl. subst pp ap.
  cbn [run step]. unfold isChild. world_simpl. rewrite Hc.
  unfold onWorkerClose, setTimeout. world_simpl.
  assert (Z : (0 <=? RESPAWN_DELAY_MS) = true) by reflexivity. rewrite Z.
  unfold findTimer. world_simpl.
  rewrite (find_fresh nt tm (mkTimer nt (nw + RESPAWN_DELAY_MS) CbRespawn)
             Hf eq_refl). cbn [due cb].
  destruct (Z.leb_spec (nw + RESPAWN_DELAY_MS) (nw + RESPAWN_DELAY_MS)); [|lia].
  unfold clearTimeout. world_simpl.
  rewrite (filter_fresh nt tm (mkTimer nt (nw + RESPAWN_DELAY_MS) CbRespawn)
             Hf eq_refl).
  cbn [runCallback]. unfold startASRWorker. world_simpl. cbn [negb].
  eexists. split; [reflexivity|].
  unfold healthy, fresh_ids, isChild, writable. world_simpl.
  split.
  - split; [reflexivity|]. split.
    + exists (mkChild np true false).
      cbn [pid stdin killed existsb andb negb]. rewrite Nat.eqb_refl.
      repeat split; reflexivity.
    + eapply Forall_impl; [|exact Hf].
      cbn beta. intros. lia.
  - repeat split; reflexivity.
Qed.

Lemma crash_cycles_healthy : forall n w,
  healthy w ->
  exists w',
    crash_cycles n w = Some w'
    /\ healthy w'
    /\ now w' = now w + Z.of_nat n * RESPAWN_DELAY_MS
    /\ timers w' = timers w
    /\ nextPid w' = (nextPid w + n)%nat
    /\ out w' = out w ++ map Spawn (seq (nextPid w) n).
Proof.
  induction n as [|n IH]; intros w H.
  - exists w. cbn [crash_cycles seq map]. rewrite app_nil_r.
    split; [reflexivity|]. split; [exact H|].
    repeat split; lia.
  - destruct (crash_cycle_healthy w H) as [w1 [E1 [H1 [N1 [T1 [P1 O1]]]]]].
    destruct (IH w1 H1) as [w2 [E2 [H2 [N2 [T2 [P2 O2]]]]]].
    exists w2. cbn [crash_cycles]. rewrite E1.
    split; [exact E2|]. split; [exact H2|].
    split; [rewrite N2, N1; lia|].
    split; [rewrite T2, T1; reflexivity|].
    split; [rewrite P2, P1; lia|].
    rewrite O2, O1, P1, <- app_assoc. reflexivity.
Qed.

(** The respawn timer cannot run before its two seconds are over. *)
Lemma respawn_not_early : forall w p code w1 dt w2,
  fresh_ids w ->
  step (WorkerClose p code) w = Some w1 ->
  step (Elapse dt) w1 = Some w2 ->
  dt < RESPAWN_DELAY_MS ->
  step (TimerFire (nextTimer w)) w2 = None.
Proof.
  intros w p code w1 dt w2 Hf H1 H2 Hdt.
  destruct (step_WorkerClose _ _ _ _ H1) as [_ [_ [T [_ [N _]]]]].
  cbn [step] in H2. destruct (0 <=? dt); [|discriminate].
  apply some_inj in H2. subst w2.
  cbn [step]. unfold findTimer. world_simpl. rewrite T.
  rewrite (find_fresh (nextTimer w) (timers w)
             (mkTimer (nextTimer w) (now w + RESPAWN_DELAY_MS) CbRespawn)
             Hf eq_refl).
  cbn [due]. rewrite N.
  destruct (Z.leb_spec (now w + RESPAWN_DELAY_MS) (now w + dt)); [lia|].
  reflexivity.
Qed.

(** C7: every exit of a running worker schedules exactly one respawn, two
    seconds ahead.  The [close] handler discards the handle and queues one
    timer, due 2000 ms after the exit, whose callback is [startASRWorker];
    that timer cannot fire before the two seconds are over.  The handler
    consults no counter, so crashes in any number behave alike: after [n]
    consecutive crashes of the live worker, each followed by its two seconds
    and its timer, the application has spawned [n] new workers, one per
    crash, has a live worker again, and [n] times 2000 ms have passed. *)
Theorem worker_exit_schedules_one_respawn :
  (forall w p code w',
      step (WorkerClose p code) w = Some w' ->
      asrProcess w' = None
      /\ timers w' =
           timers w ++ [mkTimer (nextTimer w) (now w + 2000) CbRespawn])
  /\ (forall w, runCallback CbRespawn w = startASRWorker w)
  /\ (forall w p code w1 dt w2,
        fresh_ids w ->
        step (WorkerClose p code) w = Some w1 ->
        step (Elapse dt) w1 = Some w2 ->
        dt < 2000 ->
        step (TimerFire (nextTimer w)) w2 = None)
  /\ (forall n w,
        healthy w ->
        exists w',
          crash_cycles n w = Some w'
          /\ healthy w'
          /\ now w' = now w + Z.of_nat n * 2000
          /\ timers w' = timers w
          /\ out w' = out w ++ map Spawn (seq (nextPid w) n)).
Proof.
  split.
  { intros w p code w' H.
    destruct (step_WorkerClose _ _ _ _ H) as [_ [A [T _]]]. auto. }
  split; [reflexivity|].
  split; [exact respawn_not_early|].
  intros n w H.
  destruct (crash_cycles_healthy n w H) as [w' [E [H' [N [T [_ O]]]]]].
  exists w'. auto.
Qed.

Lemma worker_exit_schedules_one_respawn_witness :
  healthy demo_world
  /\ (exists w',
        crash_cycles 3 demo_world = Some w'
        /\ now w' = 7000
        /\ out w' = [Spawn 0; Spawn 1; Spawn 2; Spawn 3])
  /\ (exists w',
        step (WorkerClose 0 1) demo_world = Some w'
        /\ timers w' = [mkTimer 0 3000 CbRespawn]).
Proof.
  assert (H : healthy demo_world).
  { split; [reflexivity|]. split.
    - exists (mkChild 0 true false). repeat split; reflexivity.
    - constructor. }
  destruct worker_exit_schedules_one_respawn as [A [_ [_ B]]].
  split; [exact H|]. split.
  - destruct (B 3%nat demo_world H) as [w' [E [_ [N [_ O]]]]].
    exists w'. split; [exact E|]. split; [exact N|exact O].
  - eexists. split; [reflexivity|].
    apply (A demo_world 0%nat 1 _ eq_refl).
Defined.

(* ================================================================== *)
(** * What a handler does to the state machine and the timers *)
(* ================================================================== *)

Lemma st_transition : forall t a b,
  st a = st b -> st (transition t a) = st (transition t b).
Proof.
  intros t a b E. unfold st in E.
  assert (Ec : currentState a = currentState b) by congruence.
  assert (Eh : history a = history b) by congruence.
  rewrite !transition_cases, Ec.
  destruct (State_eqb t (successor (currentState b))).
  - unfold st. world_simpl. rewrite Eh. reflexivity.
  - unfold st. congruence.
Qed.

Lemma st_transitions : forall reqs a b,
  st a = st b -> st (transitions reqs a) = st (transitions reqs b).
Proof.
  induction reqs as [|t reqs IH]; intros a b E; [exact E|].
  unfold transitions in *. cbn [fold_left]. apply IH, st_transition, E.
Qed.

Lemma transitions_app : forall r1 r2 w,
  transitions (r1 ++ r2) w = transitions r2 (transitions r1 w).
Proof. intros. unfold transitions. apply fold_left_app. Qed.

Lemma transition_frame : forall t w,
  stopTimer (transition t w) = stopTimer w
  /\ now (transition t w) = now w
  /\ recorderWindow (transition t w) = recorderWindow w
  /\ isPaused (transition t w) = isPaused w
  /\ timers (transition t w) = timers w
  /\ nextTimer (transition t w) = nextTimer w
  /\ out (transition t w) = out w
  /\ asrProcess (transition t w) = asrProcess w
  /\ indicatorWindow (transition t w) = indicatorWindow w
  /\ pcmBuffers (transition t w) = pcmBuffers w
  /\ recordingStartTime (transition t w) = recordingStartTime w
  /\ lastReleaseTime (transition t w) = lastReleaseTime w.
Proof.
  intros t w. rewrite transition_cases.
  destruct (State_eqb t (successor (currentState w)));
    repeat split; reflexivity.
Qed.

Lemma appended_refl : forall w w',
  timers w' = timers w -> nextTimer w' = nextTimer w -> appended w w'.
Proof.
  intros w w' T N. exists []. rewrite app_nil_r. cbn [length].
  repeat split; try assumption; try constructor. lia.
Qed.

Lemma appended_trans : forall a b c,
  appended a b -> appended b c -> appended a c.
Proof.
  intros a b c [e1 [T1 [F1 [I1 N1]]]] [e2 [T2 [F2 [I2 N2]]]].
  exists (e1 ++ e2). rewrite T2, T1, app_assoc. split; [reflexivity|].
  split; [apply Forall_app; auto|].
  rewrite map_app, length_app, seq_app, I1, I2, N1, N2.
  split; [reflexivity|lia].
Qed.

Lemma acts_refl : forall w, acts [] w w.
Proof.
  intros w. repeat split. apply appended_refl; reflexivity.
Qed.

Lemma acts_same : forall w w',
  st w' = st w -> stopTimer w' = stopTimer w -> now w' = now w ->
  recorderWindow w' = recorderWindow w -> isPaused w' = isPaused w ->
  timers w' = timers w -> nextTimer w' = nextTimer w ->
  acts [] w w'.
Proof.
  intros w w' H1 H2 H3 H4 H5 H6 H7.
  repeat split; try assumption. apply appended_refl; assumption.
Qed.

Lemma acts_trans : forall r1 r2 a b c,
  acts r1 a b -> acts r2 b c -> acts (r1 ++ r2) a c.
Proof.
  intros r1 r2 a b c [S1 [A1 [B1 [C1 [D1 E1]]]]] [S2 [A2 [B2 [C2 [D2 E2]]]]].
  split.
  { rewrite S2, transitions_app. apply st_transitions. exact S1. }
  repeat split; try congruence.
  eapply appended_trans; eassumption.
Qed.

(** The same with the list of requests left to be computed. *)
Lemma acts_step : forall r r1 r2 a b c,
  acts r1 a b -> acts r2 b c -> r = r1 ++ r2 -> acts r a c.
Proof. intros. subst r. eapply acts_trans; eassumption. Qed.

Lemma acts_transition : forall t w, acts [t] w (transition t w).
Proof.
  intros t w. destruct (transition_frame t w) as [A [B [C [D [E [F _]]]]]].
  split; [reflexivity|]. repeat split; try assumption.
  apply appended_refl; assumption.
Qed.

Lemma acts_setTimeout : forall c d w,
  c <> CbStop -> acts [] w (snd (setTimeout c d w)).
Proof.
  intros c d w Hc. repeat split.
  exists [mkTimer (nextTimer w) (now w + d) c].
  split; [reflexivity|]. split; [repeat constructor; exact Hc|].
  split; [reflexivity|]. cbn [length]. unfold setTimeout. world_simpl. lia.
Qed.

Lemma acts_emit : forall e w, acts [] w (emit e w).
Proof. intros. apply acts_same; reflexivity. Qed.

Lemma acts_showIndicator : forall w, acts [] w (showIndicator w).
Proof.
  intros w. unfold showIndicator.
  destruct (indicatorWindow w) as [[|]|]; [| |apply acts_refl]; world_simpl;
    destruct (firstRunShown w); apply acts_same; reflexivity.
Qed.

Lemma acts_hideIndicator : forall b w, acts [] w (hideIndicator b w).
Proof.
  intros b w. unfold hideIndicator.
  destruct (indicatorWindow w) as [[|]|]; try apply acts_refl.
  destruct b; [apply acts_same; reflexivity|].
  apply (acts_step [] [] [] w (emit (IndicatorSend SetStopping) w));
    [apply acts_emit|apply acts_setTimeout; discriminate|reflexivity].
Qed.

Lemma acts_fadeStage : forall w, acts [] w (fadeStage w).
Proof.
  intros w. unfold fadeStage.
  destruct (indicatorWindow w) as [[|]|]; try apply acts_refl.
  apply (acts_step [] [] [] w (emit (IndicatorSend FadeOut) w));
    [apply acts_emit|apply acts_setTimeout; discriminate|reflexivity].
Qed.

Lemma acts_hideStage : forall w, acts [] w (hideStage w).
Proof.
  intros w. unfold hideStage.
  destruct (indicatorWindow w); [apply acts_same; reflexivity|apply acts_refl].
Qed.

Lemma acts_signalStartToWorker : forall w, acts [] w (signalStartToWorker w).
Proof.
  intros w. unfold signalStartToWorker.
  destruct (writable w); [apply acts_emit|apply acts_refl].
Qed.

Lemma acts_signalEndToWorker : forall w, acts [] w (signalEndToWorker w).
Proof.
  intros w. unfold signalEndToWorker.
  destruct (writable w); [apply acts_emit|apply acts_refl].
Qed.

Lemma acts_sendAudioToWorker : forall b w, acts [] w (sendAudioToWorker b w).
Proof.
  intros b w. unfold sendAudioToWorker.
  destruct (writable w); [|apply acts_refl].
  destruct (writeUInt32LE _); [|apply acts_refl].
  apply acts_same; reflexivity.
Qed.

Lemma acts_injectText : forall text w, acts [] w (injectText text w).
Proof.
  intros text w. unfold injectText.
  destruct (isPaused w); [apply acts_refl|].
  destruct (falsy text || falsy (trim text)); [apply acts_refl|]. cbv zeta.
  assert (H1 : acts [] w (hideIndicator true w)) by apply acts_hideIndicator.
  revert H1. generalize (hideIndicator true w). intros w1 H1.
  assert (H2 : acts [] w (set_clipboard (trim text) w1)).
  { apply (acts_step [] [] [] w w1); [exact H1| |reflexivity].
    apply acts_same; reflexivity. }
  revert H2. generalize (set_clipboard (trim text) w1). intros w2 H2.
  assert (H3 : acts [] w (if appFocused w2
                          then emit Blur (set_appFocused false w2) else w2)).
  { destruct (appFocused w2); [|exact H2].
    apply (acts_step [] [] [] w w2); [exact H2| |reflexivity].
    apply acts_same; reflexivity. }
  revert H3.
  generalize (if appFocused w2 then emit Blur (set_appFocused false w2) else w2).
  intros w3 H3.
  destruct (win32 w3); [|exact H3].
  apply (acts_step [] [] [] w w3); [exact H3|apply acts_emit|reflexivity].
Qed.

Lemma acts_onWorkerLine : forall line w, acts [] w (onWorkerLine line w).
Proof.
  intros line w. unfold onWorkerLine. cbv zeta.
  destruct (jsstring_eqb _ _); [apply acts_refl|].
  destruct (falsy _); [apply acts_refl|].
  eapply (acts_step [] [] []); [|apply acts_injectText|reflexivity].
  destruct (0 <? lastReleaseTime w); [apply acts_same; reflexivity|apply acts_refl].
Qed.

Lemma acts_onWorkerStdout : forall d w, acts [] w (onWorkerStdout d w).
Proof.
  intros d w. unfold onWorkerStdout.
  generalize (split_lines d) as lines. intros lines. revert w.
  induction lines as [|l lines IH]; intros w; cbn [fold_left]; [apply acts_refl|].
  eapply (acts_step [] [] []); [apply acts_onWorkerLine|apply IH|reflexivity].
Qed.

Lemma acts_startASRWorker : forall w, acts [] w (startASRWorker w).
Proof.
  intros w. unfold startASRWorker.
  destruct (negb (pythonPath w)); [apply acts_refl|apply acts_same; reflexivity].
Qed.

Lemma acts_onWorkerClose : forall w, acts [] w (onWorkerClose w).
Proof.
  intros w. unfold onWorkerClose.
  eapply (acts_step [] [] []);
    [|apply acts_setTimeout; discriminate|reflexivity].
  apply acts_same; reflexivity.
Qed.

Lemma acts_resetToIdle : forall w, acts [IDLE] w (resetToIdle w).
Proof.
  intros w. unfold resetToIdle.
  eapply (acts_step [IDLE] [] [IDLE]); [|apply acts_transition|reflexivity].
  apply acts_same; reflexivity.
Qed.

Lemma acts_finalizeRecording : forall w,
  acts [FINALIZING; IDLE] w (finalizeRecording w).
Proof.
  intros w. unfold finalizeRecording.
  eapply (acts_step _ [FINALIZING] [IDLE]);
    [apply acts_transition|apply acts_resetToIdle|reflexivity].
Qed.

Lemma acts_if_emit : forall (b : bool) e r w w1,
  acts r w w1 -> acts r w (if b then emit e w1 else w1).
Proof.
  intros b e r w w1 H. destruct b; [|exact H].
  apply (acts_step r r [] w w1); [exact H|apply acts_emit|].
  rewrite app_nil_r. reflexivity.
Qed.

Lemma acts_startRecording : forall w, acts [RECORDING] w (startRecording w).
Proof.
  intros w. unfold startRecording. cbv zeta.
  apply acts_if_emit.
  eapply (acts_step _ [RECORDING] []);
    [|apply acts_signalStartToWorker|reflexivity].
  eapply (acts_step _ [RECORDING] []);
    [|apply acts_showIndicator|reflexivity].
  eapply (acts_step _ [] [RECORDING]); [|apply acts_transition|reflexivity].
  apply acts_same; reflexivity.
Qed.

Lemma acts_stopRecording : forall w,
  acts [STOPPING; FINALIZING; IDLE] w (stopRecording w).
Proof.
  intros w. unfold stopRecording. cbv zeta.
  eapply (acts_step _ [STOPPING] [FINALIZING; IDLE]);
    [|apply acts_finalizeRecording|reflexivity].
  eapply (acts_step _ [STOPPING] []);
    [|apply acts_signalEndToWorker|reflexivity].
  apply acts_if_emit.
  eapply (acts_step _ [] [STOPPING]); [|apply acts_transition|reflexivity].
  eapply (acts_step _ [] []); [|apply acts_hideIndicator|reflexivity].
  apply acts_same; reflexivity.
Qed.

Lemma acts_onAudioData : forall data w, acts [] w (onAudioData data w).
Proof.
  intros data w. unfold onAudioData.
  destruct (State_eqb _ _); [|apply acts_refl].
  destruct (float32ToInt16 data); [apply acts_sendAudioToWorker|apply acts_refl].
Qed.

Lemma acts_onCaptureError : forall w,
  acts (if negb (State_eqb (currentState w) IDLE) then [IDLE] else [])
       w (onCaptureError w).
Proof.
  intros w. unfold onCaptureError.
  destruct (negb _); [apply acts_resetToIdle|apply acts_refl].
Qed.

Lemma transitions_st : forall reqs w,
  st (transitions reqs w) =
  (last (path_of (currentState w) reqs) (currentState w),
   history w ++ path_of (currentState w) reqs).
Proof.
  induction reqs as [|t reqs IH]; intros w.
  - cbn [path_of last]. rewrite app_nil_r. reflexivity.
  - unfold transitions in *. cbn [fold_left path_of].
    rewrite IH, transition_cases.
    destruct (State_eqb t (successor (currentState w))) eqn:E.
    + world_simpl. rewrite <- app_assoc. cbn [app]. f_equal.
      destruct (path_of t reqs) as [|u p]; [reflexivity|].
      change (last (t :: u :: p) (currentState w)) with
        (last (u :: p) (currentState w)).
      apply last_nonempty.
    + reflexivity.
Qed.

Lemma path_of_cycle : forall reqs s, cycle_path s (path_of s reqs).
Proof.
  induction reqs as [|t reqs IH]; intros s; cbn [path_of]; [exact I|].
  destruct (State_eqb t (successor s)) eqn:E; [|apply IH].
  apply State_eqb_eq in E. split; [exact E|apply IH].
Qed.

(* ================================================================== *)
(** * The invariant of the event loop *)
(* ================================================================== *)

Lemma checkInputState_cases : forall w,
  checkInputState w =
  if isPaused w then w
  else if ctrlDown w && winDown w then
         if State_eqb (currentState w) IDLE
         then startRecording (disarm w) else disarm w
       else if State_eqb (currentState w) RECORDING && negb (armed w)
            then arm w else w.
Proof.
  intros w. unfold checkInputState, disarm, arm.
  destruct (isPaused w); [reflexivity|].
  destruct (ctrlDown w && winDown w); [|reflexivity].
  cbv zeta. destruct (stopTimer w); reflexivity.
Qed.

Lemma wf_same_core : forall w w',
  wf w ->
  currentState w' = currentState w -> stopTimer w' = stopTimer w ->
  timers w' = timers w -> nextTimer w' = nextTimer w -> now w' = now w ->
  recorderWindow w' = recorderWindow w ->
  wf w'.
Proof.
  intros w w' H E1 E2 E3 E4 E5 E6. unfold wf, fresh_ids in *.
  rewrite E1, E2, E3, E4, E5, E6. exact H.
Qed.

Lemma in_seq_map_tid : forall (t : Timer) extra n,
  In t extra -> map tid extra = seq n (length extra) ->
  (n <= tid t < n + length extra)%nat.
Proof.
  intros t extra n Hin Hm.
  assert (Hi : In (tid t) (seq n (length extra))).
  { rewrite <- Hm. apply in_map. exact Hin. }
  apply in_seq in Hi. exact Hi.
Qed.

(** A handler that leaves the stop machinery alone keeps the invariant,
    as long as the state stays, or changes with no stop timer pending. *)
Lemma wf_acts : forall reqs w w',
  wf w -> acts reqs w w' ->
  currentState w' = currentState w
  \/ (stopTimer w = None
      /\ (currentState w' = IDLE \/ currentState w' = RECORDING)) ->
  wf w'.
Proof.
  intros reqs w w' [B [A [S [F [N R]]]]] [_ [E2 [E3 [E4 [_ Ap]]]]] Hs.
  destruct Ap as [extra [T [Fx [Ix Nx]]]].
  unfold wf, fresh_ids in *. rewrite E2, E3, E4, T, Nx.
  split; [destruct Hs as [->|[_ Hs]]; assumption|].
  split.
  { intros id Hid. destruct Hs as [Hs|[Hn _]]; [|congruence].
    destruct (A id Hid) as [Hr [d Hd]]. split; [congruence|].
    exists d. apply in_or_app. left. exact Hd. }
  split.
  { intros t Hin Hcb. apply in_app_or in Hin. destruct Hin as [Hin|Hin].
    - apply S; assumption.
    - rewrite Forall_forall in Fx. destruct (Fx t Hin Hcb). }
  split.
  { apply Forall_app. split.
    - eapply Forall_impl; [|exact F]. cbn beta. intros. lia.
    - apply Forall_forall. intros t Hin.
      pose proof (in_seq_map_tid t extra _ Hin Ix). lia. }
  split; [|exact R].
  rewrite map_app, Ix. apply NoDup_app; [exact N|apply seq_NoDup|].
  intros a Ha Hb. apply in_seq in Hb. apply in_map_iff in Ha.
  destruct Ha as [t [<- Ht]]. rewrite Forall_forall in F.
  specialize (F t Ht). cbn beta in F. lia.
Qed.

Lemma NoDup_map_filter : forall (A B : Type) (f : A -> B) (p : A -> bool) l,
  NoDup (map f l) -> NoDup (map f (filter p l)).
Proof.
  intros A B f p l. induction l as [|a l IH]; intros H; [constructor|].
  cbn [map filter] in *. inversion H as [|x xs Hx Hxs]; subst.
  destruct (p a); [|apply IH; exact Hxs].
  cbn [map]. constructor; [|apply IH; exact Hxs].
  intros Hin. apply Hx. apply in_map_iff in Hin.
  destruct Hin as [b [Eb Hb]]. apply filter_In in Hb.
  apply in_map_iff. exists b. tauto.
Qed.

Lemma NoDup_map_inj : forall (A B : Type) (f : A -> B) l a b,
  NoDup (map f l) -> In a l -> In b l -> f a = f b -> a = b.
Proof.
  intros A B f l. induction l as [|x l IH]; intros a b H Ha Hb E;
    [destruct Ha|].
  cbn [map] in H. inversion H as [|y ys Hy Hys]; subst.
  destruct Ha as [Ha|Ha], Hb as [Hb|Hb].
  - congruence.
  - subst x. exfalso. apply Hy. rewrite E. apply in_map. exact Hb.
  - subst x. exfalso. apply Hy. rewrite <- E. apply in_map. exact Ha.
  - apply IH; assumption.
Qed.

Lemma wf_disarm : forall w,
  wf w ->
  wf (disarm w)
  /\ stopTimer (disarm w) = None
  /\ currentState (disarm w) = currentState w
  /\ now (disarm w) = now w
  /\ history (disarm w) = history w
  /\ out (disarm w) = out w
  /\ isPaused (disarm w) = isPaused w.
Proof.
  intros w H. unfold disarm.
  destruct (stopTimer w) as [id|] eqn:E;
    [|split; [exact H|repeat split; try reflexivity; exact E]].
  split; [|repeat split; reflexivity].
  destruct H as [B [A [S [F [N R]]]]].
  unfold wf, fresh_ids, clearTimeout in *. world_simpl.
  split; [exact B|]. split; [discriminate|].
  split.
  { intros t Hin Hcb. apply filter_In in Hin. destruct Hin as [Hin Hne].
    destruct (S t Hin Hcb) as [Hid _].
    assert (tid t = id) by congruence. subst id.
    rewrite Nat.eqb_refl in Hne. discriminate. }
  split.
  { apply Forall_forall. intros t Hin. apply filter_In in Hin.
    rewrite Forall_forall in F. apply F. tauto. }
  split; [apply NoDup_map_filter; exact N|exact R].
Qed.

Lemma wf_arm : forall w,
  wf w -> currentState w = RECORDING -> stopTimer w = None -> wf (arm w).
Proof.
  intros w [B [A [S [F [N R]]]]] Hr Hn.
  unfold wf, fresh_ids, arm, setTimeout in *. world_simpl.
  split; [exact B|].
  split.
  { intros id Hid. split; [exact Hr|].
    exists (now w + INPUT_SMOOTHING_MS). apply in_or_app. right.
    left. congruence. }
  split.
  { intros t Hin Hcb. apply in_app_or in Hin. destruct Hin as [Hin|Hin].
    - destruct (S t Hin Hcb) as [Hid _]. congruence.
    - destruct Hin as [<-|[]]. cbn [tid due]. split; [reflexivity|lia]. }
  split.
  { apply Forall_app. split.
    - eapply Forall_impl; [|exact F]. cbn beta. intros. lia.
    - repeat constructor. }
  split; [|exact R].
  rewrite map_app. apply NoDup_app; [exact N|repeat constructor; intros []|].
  intros a Ha [<-|[]]. apply in_map_iff in Ha.
  destruct Ha as [t [Et Ht]]. rewrite Forall_forall in F.
  specialize (F t Ht). cbn beta in F. cbn [tid] in Et. lia.
Qed.

Lemma findTimer_some : forall id w t,
  findTimer id w = Some t -> In t (timers w) /\ tid t = id.
Proof.
  intros id w t H. unfold findTimer in H. apply find_some in H.
  destruct H as [Hin He]. apply Nat.eqb_eq in He. auto.
Qed.

Lemma wf_clear_other : forall w id t,
  wf w -> findTimer id w = Some t -> cb t <> CbStop ->
  wf (clearTimeout id w).
Proof.
  intros w id t [B [A [S [F [N R]]]]] Hf Hc.
  destruct (findTimer_some _ _ _ Hf) as [Hin Hid].
  unfold wf, fresh_ids, clearTimeout in *. world_simpl.
  split; [exact B|].
  split.
  { intros id' Hid'. destruct (A id' Hid') as [Hr [d Hd]].
    split; [exact Hr|]. exists d. apply filter_In. split; [exact Hd|].
    cbn [tid]. destruct (Nat.eqb_spec id' id) as [E|]; [|reflexivity].
    exfalso. apply Hc.
    assert (Et : t = mkTimer id' d CbStop).
    { apply (NoDup_map_inj _ _ tid (timers w)); try assumption.
      cbn [tid]. congruence. }
    rewrite Et. reflexivity. }
  split.
  { intros u Hu Hcb. apply filter_In in Hu. apply S; tauto. }
  split.
  { apply Forall_forall. intros u Hu. apply filter_In in Hu.
    rewrite Forall_forall in F. apply F. tauto. }
  split; [apply NoDup_map_filter; exact N|exact R].
Qed.

Lemma wf_elapse : forall w dt,
  wf w -> 0 <= dt -> wf (set_now (now w + dt) w).
Proof.
  intros w dt [B [A [S [F [N R]]]]] Hdt.
  unfold wf, fresh_ids in *. world_simpl.
  split; [exact B|]. split; [exact A|].
  split; [|split; [exact F|split; [exact N|exact R]]].
  intros t Hin Hcb. destruct (S t Hin Hcb) as [Hid Hd].
  split; [exact Hid|lia].
Qed.

(** [stopRecording] neither reads nor writes [stopTimer]. *)
Lemma stopRecording_set_stopTimer : forall v w,
  stopRecording (set_stopTimer v w) = set_stopTimer v (stopRecording w).
Proof.
  intros v w.
  destruct w as [cs pb rst rw cd wd st0 iw frs ip ap lrt nw tm nt
                 ch np pp w32 cl af ot hs].
  destruct iw as [[|]|], rw, cs, ap as [[p [|] [|]]|]; reflexivity.
Qed.

Lemma acts_st : forall reqs w w',
  acts reqs w w' ->
  currentState w' = last (path_of (currentState w) reqs) (currentState w)
  /\ history w' = history w ++ path_of (currentState w) reqs.
Proof.
  intros reqs w w' [S _]. rewrite transitions_st in S. unfold st in S.
  split; congruence.
Qed.

(** The turn in which the stop timer runs: the timer is the one
    [stopTimer] names, a recording is under way, and the turn amounts to
    [stopRecording] on the disarmed world. *)
Lemma step_TimerFire_stop : forall w id t,
  wf w -> findTimer id w = Some t -> cb t = CbStop -> due t <= now w ->
  step (TimerFire id) w = Some (stopRecording (disarm w))
  /\ stopTimer w = Some id
  /\ currentState w = RECORDING.
Proof.
  intros w id t H Hf Hc Hd.
  destruct (findTimer_some _ _ _ Hf) as [Hin Hid].
  destruct H as [B [A [S [F [N R]]]]].
  destruct (S t Hin Hc) as [Hs _]. rewrite Hid in Hs.
  destruct (A id Hs) as [Hr _].
  split; [|split; assumption].
  cbn [step]. rewrite Hf, Hc.
  destruct (Z.leb_spec (due t) (now w)); [|lia].
  cbn [runCallback]. unfold stopTimerFired, disarm. rewrite Hs.
  rewrite stopRecording_set_stopTimer. reflexivity.
Qed.

Lemma wf_stopRecording_disarm : forall w,
  wf w -> currentState w = RECORDING ->
  wf (stopRecording (disarm w))
  /\ currentState (stopRecording (disarm w)) = IDLE
  /\ history (stopRecording (disarm w))
     = history w ++ [STOPPING; FINALIZING; IDLE]
  /\ stopTimer (stopRecording (disarm w)) = None.
Proof.
  intros w H Hr.
  destruct (wf_disarm w H) as [Hw [Hn [Hc [_ [Hh _]]]]].
  pose proof (acts_stopRecording (disarm w)) as Ha.
  destruct (acts_st _ _ _ Ha) as [Sc Sh].
  rewrite Hc, Hr in Sc, Sh. cbn in Sc, Sh. rewrite Hh in Sh.
  split.
  { eapply wf_acts; [exact Hw|exact Ha|]. right. split; [exact Hn|].
    left. exact Sc. }
  split; [exact Sc|]. split; [exact Sh|].
  destruct Ha as [_ [E _]]. congruence.
Qed.

Lemma wf_checkInputState : forall w, wf w -> wf (checkInputState w).
Proof.
  intros w H. rewrite checkInputState_cases.
  destruct (isPaused w); [exact H|].
  destruct (wf_disarm w H) as [Hw [Hn [Hc _]]].
  destruct (ctrlDown w && winDown w).
  - destruct (State_eqb (currentState w) IDLE) eqn:E; [|exact Hw].
    apply State_eqb_eq in E.
    pose proof (acts_startRecording (disarm w)) as Ha.
    destruct (acts_st _ _ _ Ha) as [Sc _].
    rewrite Hc, E in Sc. cbn in Sc.
    eapply wf_acts; [exact Hw|exact Ha|]. right. auto.
  - destruct (State_eqb (currentState w) RECORDING) eqn:E;
      [|exact H].
    apply State_eqb_eq in E. unfold armed.
    destruct (stopTimer w) eqn:T; [exact H|].
    cbn [negb andb]. apply wf_arm; assumption.
Qed.

(** The invariant holds at every turn. *)
Lemma wf_step : forall e w w', wf w -> step e w = Some w' -> wf w'.
Proof.
  intros e w w' H Hs. destruct e; cbn [step] in Hs.
  - apply some_inj in Hs. subst w'. unfold onKeyTick. cbv zeta.
    apply wf_checkInputState.
    eapply wf_same_core; [exact H|reflexivity..].
  - destruct (findTimer id w) as [t|] eqn:Hf; [|discriminate].
    destruct (Z.leb_spec (due t) (now w)) as [Hd|]; [|discriminate].
    destruct (cb t) eqn:Hc.
    + destruct (step_TimerFire_stop w id t H Hf Hc Hd) as [E [_ Hr]].
      cbn [step] in E. rewrite Hf, Hc in E.
      destruct (Z.leb_spec (due t) (now w)); [|lia].
      rewrite E in Hs. apply some_inj in Hs. subst w'.
      apply wf_stopRecording_disarm; assumption.
    + apply some_inj in Hs. subst w'. cbn [runCallback].
      assert (Hw : wf (clearTimeout id w)).
      { eapply wf_clear_other; [exact H|exact Hf|]. rewrite Hc. discriminate. }
      eapply wf_acts; [exact Hw|apply acts_startASRWorker|].
      left. destruct (acts_st _ _ _ (acts_startASRWorker (clearTimeout id w)))
        as [Sc _]. exact Sc.
    + apply some_inj in Hs. subst w'. cbn [runCallback].
      assert (Hw : wf (clearTimeout id w)).
      { eapply wf_clear_other; [exact H|exact Hf|]. rewrite Hc. discriminate. }
      eapply wf_acts; [exact Hw|apply acts_fadeStage|].
      left. destruct (acts_st _ _ _ (acts_fadeStage (clearTimeout id w)))
        as [Sc _]. exact Sc.
    + apply some_inj in Hs. subst w'. cbn [runCallback].
      assert (Hw : wf (clearTimeout id w)).
      { eapply wf_clear_other; [exact H|exact Hf|]. rewrite Hc. discriminate. }
      eapply wf_acts; [exact Hw|apply acts_hideStage|].
      left. destruct (acts_st _ _ _ (acts_hideStage (clearTimeout id w)))
        as [Sc _]. exact Sc.
  - apply some_inj in Hs. subst w'.
    eapply wf_acts; [exact H|apply acts_onAudioData|].
    left. destruct (acts_st _ _ _ (acts_onAudioData data w)) as [Sc _].
    exact Sc.
  - apply some_inj in Hs. subst w'.
    eapply wf_acts; [exact H|apply acts_onCaptureError|].
    left. destruct (acts_st _ _ _ (acts_onCaptureError w)) as [Sc _].
    rewrite Sc. destruct H as [[B|B] _]; rewrite B; reflexivity.
  - apply some_inj in Hs. subst w'.
    eapply wf_same_core; [exact H|reflexivity..].
  - apply some_inj in Hs. subst w'.
    eapply wf_same_core; [exact H|reflexivity..].
  - destruct (isChild p w); [|discriminate].
    apply some_inj in Hs. subst w'.
    eapply wf_acts; [exact H|apply acts_onWorkerStdout|].
    left. destruct (acts_st _ _ _ (acts_onWorkerStdout d w)) as [Sc _].
    exact Sc.
  - destruct (isChild p w); [|discriminate].
    apply some_inj in Hs. subst w'.
    eapply wf_same_core; [exact H|reflexivity..].
  - destruct (isChild p w); [|discriminate].
    apply some_inj in Hs. subst w'.
    match goal with |- wf (onWorkerClose ?x) =>
      assert (Hx : wf x) by (eapply wf_same_core; [exact H|reflexivity..]);
      revert Hx; generalize x
    end.
    intros x Hx. eapply wf_acts; [exact Hx|apply acts_onWorkerClose|].
    left. destruct (acts_st _ _ _ (acts_onWorkerClose x)) as [Sc _].
    exact Sc.
  - destruct (Z.leb_spec 0 dt); [|discriminate].
    apply some_inj in Hs. subst w'. apply wf_elapse; assumption.
Qed.

Lemma wf_run : forall es w w', wf w -> run es w = Some w' -> wf w'.
Proof.
  induction es as [|e es IH]; intros w w' H Hr; cbn [run] in Hr.
  - apply some_inj in Hr. subst w'. exact H.
  - destruct (step e w) as [w1|] eqn:S; [|discriminate].
    apply (IH w1); [eapply wf_step; eassumption|exact Hr].
Qed.

Lemma wf_boot : forall t0 paused firstRun python onWindows,
  wf (boot t0 paused firstRun python onWindows).
Proof.
  intros. unfold boot.
  match goal with |- wf (startASRWorker ?x) =>
    assert (Hx : wf x); [|revert Hx; generalize x]
  end.
  { unfold wf, fresh_ids. world_simpl.
    split; [left; reflexivity|]. split; [discriminate|].
    split; [intros t []|]. repeat constructor. }
  intros x Hx. eapply wf_acts; [exact Hx|apply acts_startASRWorker|].
  left. destruct (acts_st _ _ _ (acts_startASRWorker x)) as [Sc _]. exact Sc.
Qed.

Lemma demo_world_boot : demo_world = boot 1000 false true true true.
Proof. vm_compute. reflexivity. Qed.

Lemma wf_demo_world : wf demo_world.
Proof. rewrite demo_world_boot. apply wf_boot. Qed.

Lemma wf_recording_world : wf recording_world.
Proof.
  apply (wf_run [held] demo_world); [apply wf_demo_world|].
  vm_compute. reflexivity.
Qed.

(* ================================================================== *)
(** * The transition requests of an event *)
(* ================================================================== *)

Lemma st_disarm : forall w, st (disarm w) = st w.
Proof. intros w. unfold disarm. destruct (stopTimer w); reflexivity. Qed.

Lemma st_acts : forall reqs w0 w w',
  st w = st w0 -> acts reqs w w' -> st w' = st (transitions reqs w0).
Proof.
  intros reqs w0 w w' E [S _]. rewrite S. apply st_transitions. exact E.
Qed.

Lemma st_checkInputState : forall w,
  st (checkInputState w) =
  st (transitions
        (if negb (isPaused w) && (ctrlDown w && winDown w)
            && State_eqb (currentState w) IDLE
         then [RECORDING] else []) w).
Proof.
  intros w. rewrite checkInputState_cases.
  destruct (isPaused w); [reflexivity|].
  destruct (ctrlDown w && winDown w); cbn [negb andb].
  - destruct (State_eqb (currentState w) IDLE).
    + apply (st_acts _ w (disarm w)); [apply st_disarm|apply acts_startRecording].
    + apply st_disarm.
  - destruct (State_eqb (currentState w) RECORDING && negb (armed w));
      reflexivity.
Qed.

(** Every turn of the loop changes the state by calls of [transition] and
    in no other way. *)
Lemma step_requests : forall e w w',
  step e w = Some w' -> st w' = st (transitions (requests e w) w).
Proof.
  intros e w w' Hs. destruct e; cbn [step requests] in *.
  - apply some_inj in Hs. subst w'. unfold onKeyTick. cbv zeta.
    rewrite st_checkInputState. world_simpl. unfold engaged.
    match goal with |- st (transitions ?r _) = st (transitions ?r _) =>
      generalize r
    end.
    intros r. apply st_transitions. reflexivity.
  - destruct (findTimer id w) as [t|]; [|discriminate].
    destruct (due t <=? now w); [|discriminate].
    apply some_inj in Hs. subst w'.
    destruct (cb t); cbn [runCallback].
    + unfold stopTimerFired.
      rewrite <- stopRecording_set_stopTimer.
      apply (st_acts _ w (set_stopTimer None (clearTimeout id w)));
        [reflexivity|apply acts_stopRecording].
    + apply (st_acts [] w (clearTimeout id w));
        [reflexivity|apply acts_startASRWorker].
    + apply (st_acts [] w (clearTimeout id w));
        [reflexivity|apply acts_fadeStage].
    + apply (st_acts [] w (clearTimeout id w));
        [reflexivity|apply acts_hideStage].
  - apply some_inj in Hs. subst w'.
    apply (st_acts [] w w); [reflexivity|apply acts_onAudioData].
  - apply some_inj in Hs. subst w'.
    apply (st_acts _ w w); [reflexivity|apply acts_onCaptureError].
  - apply some_inj in Hs. subst w'. reflexivity.
  - apply some_inj in Hs. subst w'. reflexivity.
  - destruct (isChild p w); [|discriminate].
    apply some_inj in Hs. subst w'.
    apply (st_acts [] w w); [reflexivity|apply acts_onWorkerStdout].
  - destruct (isChild p w); [|discriminate].
    apply some_inj in Hs. subst w'. reflexivity.
  - destruct (isChild p w); [|discriminate].
    apply some_inj in Hs. subst w'.
    match goal with |- st (onWorkerClose ?x) = _ =>
      apply (st_acts [] w x); [reflexivity|apply acts_onWorkerClose]
    end.
  - destruct (0 <=? dt); [|discriminate].
    apply some_inj in Hs. subst w'. reflexivity.
Qed.

(** Over a whole run the assigned states follow the cycle. *)
Lemma run_cycle : forall es w w',
  run es w = Some w' ->
  exists path,
    history w' = history w ++ path
    /\ cycle_path (currentState w) path
    /\ currentState w' = last path (currentState w).
Proof.
  induction es as [|e es IH]; intros w w' Hr; cbn [run] in Hr.
  - apply some_inj in Hr. subst w'. exists [].
    rewrite app_nil_r. repeat split.
  - destruct (step e w) as [w1|] eqn:S; [|discriminate].
    destruct (IH w1 w' Hr) as [p2 [H2 [C2 L2]]].
    pose proof (step_requests _ _ _ S) as E.
    rewrite transitions_st in E. unfold st in E.
    assert (Ec : currentState w1 =
                 last (path_of (currentState w) (requests e w)) (currentState w))
      by congruence.
    assert (Eh : history w1 =
                 history w ++ path_of (currentState w) (requests e w))
      by congruence.
    set (p1 := path_of (currentState w) (requests e w)) in *.
    exists (p1 ++ p2). rewrite H2, Eh, app_assoc.
    split; [reflexivity|]. rewrite Ec in C2, L2.
    split.
    + apply cycle_path_app; [apply path_of_cycle|exact C2].
    + rewrite L2. destruct p2 as [|u p2].
      * rewrite app_nil_r. reflexivity.
      * clear. induction p1 as [|v p1 IHp]; [apply last_nonempty|].
        cbn [app]. destruct p1 as [|x p1].
        -- cbn [app]. change (last (v :: u :: p2) (currentState w))
             with (last (u :: p2) (currentState w)). apply last_nonempty.
        -- change (last (v :: (x :: p1) ++ u :: p2) (currentState w))
             with (last ((x :: p1) ++ u :: p2) (currentState w)).
           rewrite <- IHp.
           change (last (v :: x :: p1) (currentState w))
             with (last (x :: p1) (currentState w)). reflexivity.
Qed.

(** C2: for every sequence of transition requests the state only moves
    along the cycle Idle, Recording, Stopping, Finalizing, Idle: the states
    assigned during the sequence form a path in which each state is the
    single successor of the one before it, the final state is the end of
    that path, and a request whose target is not the successor of the
    current state changes nothing (it is neither an error nor a move).  The
    same holds for the event loop as a whole, whose handlers change the
    state through [transition] only: over any run the assigned states form
    such a path. *)
Theorem transition_strict_cycle : forall (reqs : list State) (w : World),
  (exists path,
      history (transitions reqs w) = history w ++ path
      /\ cycle_path (currentState w) path
      /\ currentState (transitions reqs w) = last path (currentState w))
  /\ (forall t w1,
        transition t w1 =
        if State_eqb t (successor (currentState w1))
        then set_history (history w1 ++ [t]) (set_currentState t w1)
        else w1)
  /\ (forall s, allowed s = [successor s])
  /\ (forall es w',
        run es w = Some w' ->
        exists path,
          history w' = history w ++ path
          /\ cycle_path (currentState w) path
          /\ currentState w' = last path (currentState w)).
Proof.
  intros reqs w. split; [apply transitions_path|].
  split; [apply transition_cases|].
  split; [intros []; reflexivity|].
  intros es w'. apply run_cycle.
Qed.

Lemma transition_strict_cycle_witness :
  option_map (fun w => (currentState w, history w))
    (run [held; released; Elapse 30; TimerFire 0] demo_world)
  = Some (IDLE, [RECORDING; STOPPING; FINALIZING; IDLE])
  /\ transition STOPPING demo_world = demo_world
  /\ currentState (transitions [STOPPING; RECORDING; IDLE; RECORDING;
                                STOPPING] demo_world) = STOPPING
  /\ cycle_path IDLE [RECORDING; STOPPING].
Proof.
  destruct (transition_strict_cycle
              [STOPPING; RECORDING; IDLE; RECORDING; STOPPING] demo_world)
    as [[path [Hh [Hp Hc]]] [T _]].
  split; [vm_compute; reflexivity|].
  split; [rewrite T; reflexivity|].
  split; [vm_compute; reflexivity|].
  vm_compute in Hh. subst path. exact Hp.
Defined.

(* ================================================================== *)
(** * Pause *)
(* ================================================================== *)

Lemma path_of_incl : forall reqs s t, In t (path_of s reqs) -> In t reqs.
Proof.
  induction reqs as [|r reqs IH]; intros s t H; cbn [path_of] in H; [exact H|].
  destruct (State_eqb r (successor s)).
  - destruct H as [H|H]; [left; exact H|right; exact (IH _ _ H)].
  - right. exact (IH _ _ H).
Qed.

Lemma last_in : forall (A : Type) (l : list A) (x d : A),
  In (last (x :: l) d) (x :: l).
Proof.
  induction l as [|y l IH]; intros x d; [left; reflexivity|].
  change (last (x :: y :: l) d) with (last (y :: l) d).
  right. apply IH.
Qed.

Lemma last_in_or_default : forall (A : Type) (l : list A) (d : A),
  last l d = d \/ In (last l d) l.
Proof.
  intros A [|x l] d; [left; reflexivity|right; apply last_in].
Qed.

Lemma onKeyTick_paused : forall kc kl kr w,
  isPaused w = true ->
  onKeyTick kc kl kr w =
  set_winDown (keyDown kl || keyDown kr) (set_ctrlDown (keyDown kc) w).
Proof.
  intros kc kl kr w P. unfold onKeyTick, checkInputState. cbv zeta.
  world_simpl. rewrite P. reflexivity.
Qed.

Lemma requests_paused : forall e w,
  isPaused w = true -> ~ In RECORDING (requests e w).
Proof.
  intros e w P H. destruct e; cbn [requests] in H; try exact H.
  - rewrite P in H. exact H.
  - destruct (findTimer id w) as [t|]; [|exact H].
    destruct (cb t); try exact H.
    destruct H as [H|[H|[H|[]]]]; discriminate.
  - destruct (negb _); [|exact H]. destruct H as [H|[]]. discriminate.
Qed.

Lemma run_samples_paused : forall samples w w',
  forallb is_sample samples = true ->
  isPaused w = true ->
  run samples w = Some w' ->
  isPaused w' = true
  /\ currentState w' = currentState w
  /\ history w' = history w
  /\ stopTimer w' = stopTimer w
  /\ timers w' = timers w
  /\ out w' = out w
  /\ pcmBuffers w' = pcmBuffers w
  /\ recordingStartTime w' = recordingStartTime w.
Proof.
  induction samples as [|e es IH]; intros w w' F P Hr; cbn [run] in Hr.
  - apply some_inj in Hr. subst w'. repeat split. exact P.
  - cbn [forallb] in F. apply andb_true_iff in F. destruct F as [Fe Fs].
    destruct e; try discriminate. cbn [step] in Hr.
    rewrite (onKeyTick_paused _ _ _ w P) in Hr.
    apply IH in Hr; [|exact Fs|exact P]. exact Hr.
Qed.

(** C8: while the paused flag is true no transition to Recording occurs.
    A paused input sample only stores the two key flags; over any sequence
    of input samples processed while paused the state, the record of
    assigned states, the stop timer, the timer queue and everything sent
    stay as they were; and no event at all, processed while the flag is
    true, assigns Recording or takes the state to Recording. *)
Theorem paused_never_starts_recording :
  (forall kc kl kr w,
      isPaused w = true ->
      onKeyTick kc kl kr w =
      set_winDown (keyDown kl || keyDown kr) (set_ctrlDown (keyDown kc) w))
  /\ (forall samples w w',
        forallb is_sample samples = true ->
        isPaused w = true ->
        run samples w = Some w' ->
        isPaused w' = true
        /\ currentState w' = currentState w
        /\ history w' = history w
        /\ stopTimer w' = stopTimer w
        /\ timers w' = timers w
        /\ out w' = out w)
  /\ (forall e w w',
        isPaused w = true ->
        step e w = Some w' ->
        (exists path,
            history w' = history w ++ path /\ ~ In RECORDING path)
        /\ (currentState w' = RECORDING -> currentState w = RECORDING)).
Proof.
  split; [exact onKeyTick_paused|]. split.
  { intros samples w w' F P Hr.
    destruct (run_samples_paused samples w w' F P Hr)
      as [A [B [C [D [E [G _]]]]]]. repeat split; assumption. }
  intros e w w' P Hs.
  pose proof (step_requests _ _ _ Hs) as E.
  rewrite transitions_st in E. unfold st in E.
  pose proof (requests_paused e w P) as N.
  set (p := path_of (currentState w) (requests e w)) in *.
  assert (Np : ~ In RECORDING p).
  { intros H. apply N. exact (path_of_incl _ _ _ H). }
  split.
  - exists p. split; [congruence|exact Np].
  - intros Hr.
    assert (Ec : currentState w' = last p (currentState w)) by congruence.
    destruct (last_in_or_default _ p (currentState w)) as [L|L].
    + congruence.
    + exfalso. apply Np. rewrite <- Hr, Ec. exact L.
Qed.

Lemma paused_never_starts_recording_witness :
  isPaused paused_world = true
  /\ (exists w',
        run [held; released; held] paused_world = Some w'
        /\ currentState w' = IDLE /\ history w' = [] /\ out w' = out paused_world)
  /\ (currentState (onKeyTick (-32768) (-32768) 0 demo_world) = RECORDING).
Proof.
  destruct paused_never_starts_recording as [_ [B _]].
  split; [reflexivity|]. split.
  - eexists. split; [vm_compute; reflexivity|].
    destruct (B [held; released; held] paused_world _ eq_refl eq_refl
                ltac:(vm_compute; reflexivity)) as [_ [S [H [_ [_ O]]]]].
    split; [exact S|]. split; [exact H|exact O].
  - vm_compute. reflexivity.
Defined.

(* ================================================================== *)
(** * The smoothing window *)
(* ================================================================== *)

Lemma acts_timers : forall reqs w w' t,
  acts reqs w w' -> In t (timers w') -> cb t = CbStop -> In t (timers w).
Proof.
  intros reqs w w' t [_ [_ [_ [_ [_ [extra [T [F _]]]]]]]] Hin Hc.
  rewrite T in Hin. apply in_app_or in Hin. destruct Hin as [Hin|Hin];
    [exact Hin|].
  rewrite Forall_forall in F. destruct (F t Hin Hc).
Qed.

Lemma acts_now : forall reqs w w', acts reqs w w' -> now w' = now w.
Proof. intros reqs w w' [_ [_ [E _]]]. exact E. Qed.

Lemma disarm_timers : forall w t, In t (timers (disarm w)) -> In t (timers w).
Proof.
  intros w t. unfold disarm. destruct (stopTimer w); [|auto].
  unfold clearTimeout. world_simpl. intros H. apply filter_In in H. tauto.
Qed.

Lemma checkInputState_now : forall w, now (checkInputState w) = now w.
Proof.
  intros w. rewrite checkInputState_cases.
  destruct (isPaused w); [reflexivity|].
  assert (D : now (disarm w) = now w)
    by (unfold disarm; destruct (stopTimer w); reflexivity).
  destruct (ctrlDown w && winDown w).
  - destruct (State_eqb _ _); [|exact D].
    rewrite (acts_now _ _ _ (acts_startRecording (disarm w))). exact D.
  - destruct (_ && _); reflexivity.
Qed.

(** A stop timer in the queue after a turn was there before, or was armed
    in this turn, one smoothing window ahead. *)
Lemma checkInputState_timers : forall w t,
  In t (timers (checkInputState w)) -> cb t = CbStop ->
  In t (timers w) \/ due t = now w + INPUT_SMOOTHING_MS.
Proof.
  intros w t. rewrite checkInputState_cases.
  destruct (isPaused w); [auto|].
  destruct (ctrlDown w && winDown w).
  - destruct (State_eqb _ _).
    + intros Hin Hc. left. apply disarm_timers.
      exact (acts_timers _ _ _ _ (acts_startRecording (disarm w)) Hin Hc).
    + intros Hin _. left. apply disarm_timers. exact Hin.
  - destruct (_ && _); [|auto].
    unfold arm, setTimeout. world_simpl. intros Hin _.
    apply in_app_or in Hin. destruct Hin as [Hin|[<-|[]]]; [auto|].
    right. reflexivity.
Qed.

Lemma step_now : forall e w w', step e w = Some w' -> now w <= now w'.
Proof.
  intros e w w' Hs. destruct e; cbn [step] in Hs.
  - apply some_inj in Hs. subst w'. unfold onKeyTick. cbv zeta.
    rewrite checkInputState_now. world_simpl. lia.
  - destruct (findTimer id w) as [t|]; [|discriminate].
    destruct (due t <=? now w); [|discriminate].
    apply some_inj in Hs. subst w'.
    destruct (cb t); cbn [runCallback].
    + unfold stopTimerFired. rewrite <- stopRecording_set_stopTimer.
      rewrite (acts_now _ _ _ (acts_stopRecording _)).
      unfold clearTimeout. world_simpl. lia.
    + rewrite (acts_now _ _ _ (acts_startASRWorker (clearTimeout id w))).
      unfold clearTimeout. world_simpl. lia.
    + rewrite (acts_now _ _ _ (acts_fadeStage (clearTimeout id w))).
      unfold clearTimeout. world_simpl. lia.
    + rewrite (acts_now _ _ _ (acts_hideStage (clearTimeout id w))).
      unfold clearTimeout. world_simpl. lia.
  - apply some_inj in Hs. subst w'.
    rewrite (acts_now _ _ _ (acts_onAudioData data w)). lia.
  - apply some_inj in Hs. subst w'.
    rewrite (acts_now _ _ _ (acts_onCaptureError w)). lia.
  - apply some_inj in Hs. subst w'. unfold onTogglePause. world_simpl. lia.
  - apply some_inj in Hs. subst w'. world_simpl. lia.
  - destruct (isChild p w); [|discriminate].
    apply some_inj in Hs. subst w'.
    rewrite (acts_now _ _ _ (acts_onWorkerStdout d w)). lia.
  - destruct (isChild p w); [|discriminate].
    apply some_inj in Hs. subst w'. unfold onWorkerError. world_simpl. lia.
  - destruct (isChild p w); [|discriminate].
    apply some_inj in Hs. subst w'.
    match goal with |- _ <= now (onWorkerClose ?x) =>
      rewrite (acts_now _ _ _ (acts_onWorkerClose x))
    end.
    world_simpl. lia.
  - destruct (Z.leb_spec 0 dt); [|discriminate].
    apply some_inj in Hs. subst w'. world_simpl. lia.
Qed.

Lemma run_now : forall es w w', run es w = Some w' -> now w <= now w'.
Proof.
  induction es as [|e es IH]; intros w w' Hr; cbn [run] in Hr.
  - apply some_inj in Hr. subst w'. lia.
  - destruct (step e w) as [w1|] eqn:S; [|discriminate].
    pose proof (step_now _ _ _ S). pose proof (IH _ _ Hr). lia.
Qed.

Lemma clearTimeout_timers : forall id w t,
  In t (timers (clearTimeout id w)) -> In t (timers w).
Proof.
  intros id w t. unfold clearTimeout. world_simpl.
  intros H. apply filter_In in H. tauto.
Qed.

Lemma step_stop_timers : forall e w w' t,
  step e w = Some w' -> In t (timers w') -> cb t = CbStop ->
  In t (timers w) \/ due t = now w + INPUT_SMOOTHING_MS.
Proof.
  intros e w w' t Hs Hin Hc. destruct e; cbn [step] in Hs.
  - apply some_inj in Hs. subst w'. unfold onKeyTick in Hin. cbv zeta in Hin.
    apply checkInputState_timers in Hin; [|exact Hc]. exact Hin.
  - destruct (findTimer id w) as [u|]; [|discriminate].
    destruct (due u <=? now w); [|discriminate].
    apply some_inj in Hs. subst w'. left.
    apply (clearTimeout_timers id).
    destruct (cb u); cbn [runCallback] in Hin.
    + unfold stopTimerFired in Hin.
      rewrite <- stopRecording_set_stopTimer in Hin.
      exact (acts_timers _ _ _ _ (acts_stopRecording _) Hin Hc).
    + exact (acts_timers _ _ _ _ (acts_startASRWorker _) Hin Hc).
    + exact (acts_timers _ _ _ _ (acts_fadeStage _) Hin Hc).
    + exact (acts_timers _ _ _ _ (acts_hideStage _) Hin Hc).
  - apply some_inj in Hs. subst w'. left.
    exact (acts_timers _ _ _ _ (acts_onAudioData _ _) Hin Hc).
  - apply some_inj in Hs. subst w'. left.
    exact (acts_timers _ _ _ _ (acts_onCaptureError _) Hin Hc).
  - apply some_inj in Hs. subst w'. left. exact Hin.
  - apply some_inj in Hs. subst w'. left. exact Hin.
  - destruct (isChild p w); [|discriminate].
    apply some_inj in Hs. subst w'. left.
    exact (acts_timers _ _ _ _ (acts_onWorkerStdout _ _) Hin Hc).
  - destruct (isChild p w); [|discriminate].
    apply some_inj in Hs. subst w'. left. exact Hin.
  - destruct (isChild p w); [|discriminate].
    apply some_inj in Hs. subst w'. left.
    exact (acts_timers _ _ _ _ (acts_onWorkerClose _) Hin Hc).
  - destruct (0 <=? dt); [|discriminate].
    apply some_inj in Hs. subst w'. left. exact Hin.
Qed.

Lemma requests_in_window : forall D h e w w',
  in_window D h w -> step e w = Some w' -> now w < D ->
  path_of RECORDING (requests e w) = [].
Proof.
  intros D h e w w' [H [Hr [Hh [Ht Hd]]]] Hs Hn.
  destruct e; cbn [requests]; try reflexivity.
  - rewrite Hr. cbn [State_eqb]. rewrite andb_false_r. reflexivity.
  - cbn [step] in Hs.
    destruct (findTimer id w) as [t|] eqn:Hf; [|reflexivity].
    destruct (findTimer_some _ _ _ Hf) as [Hin _].
    destruct (Z.leb_spec (due t) (now w)) as [Hle|]; [|discriminate].
    destruct (cb t) eqn:Hc; try reflexivity.
    specialize (Ht t Hin Hc). lia.
  - rewrite Hr. reflexivity.
Qed.

Lemma in_window_step : forall D h e w w',
  in_window D h w -> step e w = Some w' -> now w' < D -> in_window D h w'.
Proof.
  intros D h e w w' J Hs Hn.
  pose proof (step_now _ _ _ Hs) as Hm.
  pose proof (requests_in_window D h e w w' J Hs ltac:(lia)) as Hp.
  destruct J as [H [Hr [Hh [Ht Hd]]]].
  pose proof (step_requests _ _ _ Hs) as E.
  rewrite transitions_st, Hr, Hp in E. unfold st in E. cbn [last] in E.
  rewrite app_nil_r in E.
  split; [eapply wf_step; eassumption|].
  split; [congruence|]. split; [congruence|].
  split; [|lia].
  intros t Hin Hc.
  destruct (step_stop_timers _ _ _ _ Hs Hin Hc) as [Ho|Hnew].
  - apply Ht; assumption.
  - lia.
Qed.

Lemma in_window_run : forall D h es w w',
  in_window D h w -> run es w = Some w' -> now w' < D -> in_window D h w'.
Proof.
  intros D h es. induction es as [|e es IH]; intros w w' J Hr Hn;
    cbn [run] in Hr.
  - apply some_inj in Hr. subst w'. exact J.
  - destruct (step e w) as [w1|] eqn:S; [|discriminate].
    pose proof (run_now _ _ _ Hr) as Hm.
    apply (IH w1 w'); [|exact Hr|exact Hn].
    eapply in_window_step; [exact J|exact S|lia].
Qed.

(** A released sample during a recording with no stop timer pending arms
    one, a smoothing window ahead. *)
Lemma released_sample_arms : forall w kc kl kr w1,
  currentState w = RECORDING -> isPaused w = false -> stopTimer w = None ->
  engaged kc kl kr = false ->
  step (Tick kc kl kr) w = Some w1 ->
  stopTimer w1 = Some (nextTimer w)
  /\ timers w1 =
     timers w ++ [mkTimer (nextTimer w) (now w + INPUT_SMOOTHING_MS) CbStop]
  /\ currentState w1 = RECORDING
  /\ history w1 = history w
  /\ out w1 = out w
  /\ isPaused w1 = false.
Proof.
  intros w kc kl kr w1 Hr Hp Hn He Hs. cbn [step] in Hs.
  apply some_inj in Hs. subst w1. unfold onKeyTick. cbv zeta.
  rewrite checkInputState_cases. unfold armed, engaged in *. world_simpl.
  rewrite Hp, He, Hr, Hn. cbn [State_eqb negb andb].
  unfold arm, setTimeout. world_simpl. repeat split; assumption.
Qed.

(** A held sample during a recording, the system not paused, disarms. *)
Lemma held_sample_disarms : forall w kc kl kr w1,
  wf w -> currentState w = RECORDING -> isPaused w = false ->
  engaged kc kl kr = true ->
  step (Tick kc kl kr) w = Some w1 ->
  stopTimer w1 = None
  /\ (forall t, In t (timers w1) -> cb t <> CbStop)
  /\ currentState w1 = RECORDING
  /\ history w1 = history w
  /\ out w1 = out w.
Proof.
  intros w kc kl kr w1 H Hr Hp He Hs.
  pose proof (wf_step _ _ _ H Hs) as H1.
  cbn [step] in Hs. apply some_inj in Hs. subst w1.
  unfold onKeyTick in *. cbv zeta in *.
  rewrite checkInputState_cases in *. unfold engaged in *.
  world_simpl. rewrite Hp, He, Hr in *. cbn [State_eqb] in *.
  match goal with |- context [disarm ?x] =>
    assert (Hx : wf x) by (eapply wf_same_core; [exact H|reflexivity..]);
    destruct (wf_disarm x Hx) as [_ [A [B [_ [C [D _]]]]]]
  end.
  split; [exact A|].
  split.
  { intros t Hin Hc. destruct H1 as [_ [_ [S _]]].
    destruct (S t Hin Hc) as [E _]. rewrite A in E. discriminate. }
  split; [rewrite B; exact Hr|]. split; [exact C|exact D].
Qed.

(** C3 as stated fails.  The hotkey is released during a recording, the
    dictation is paused from the tray within the window, and the hotkey is
    pressed again 10 ms after the release: the sample is ignored, the stop
    timer stays queued, and the stop sequence runs when it fires. *)
Lemma reengage_while_paused_still_stops :
  option_map (fun w => (stopTimer w, timers w, currentState w))
    (run [held; released] demo_world)
  = Some (Some 0%nat, [mkTimer 0 1030 CbStop], RECORDING)
  /\ option_map (fun w => (now w, stopTimer w, timers w, currentState w))
       (run [held; released; TogglePause; Elapse 10; held] demo_world)
     = Some (1010, Some 0%nat, [mkTimer 0 1030 CbStop], RECORDING)
  /\ option_map (fun w => (currentState w, history w))
       (run [held; released; TogglePause; Elapse 10; held;
             Elapse 20; TimerFire 0] demo_world)
     = Some (IDLE, [RECORDING; STOPPING; FINALIZING; IDLE])
  /\ ~ (forall w0 kc kl kr w1 mid w2 kc' kl' kr' w3,
          wf w0 -> currentState w0 = RECORDING -> isPaused w0 = false ->
          stopTimer w0 = None ->
          engaged kc kl kr = false -> step (Tick kc kl kr) w0 = Some w1 ->
          run mid w1 = Some w2 -> now w2 < now w0 + INPUT_SMOOTHING_MS ->
          engaged kc' kl' kr' = true -> step (Tick kc' kl' kr') w2 = Some w3 ->
          currentState w3 = RECORDING /\ stopTimer w3 = None).
Proof.
  split; [vm_compute; reflexivity|].
  split; [vm_compute; reflexivity|].
  split; [vm_compute; reflexivity|].
  intros C.
  pose proof wf_recording_world as W.
  destruct (step released recording_world) as [w1|] eqn:S1;
    [|vm_compute in S1; discriminate].
  destruct (run [TogglePause; Elapse 10] w1) as [w2|] eqn:S2;
    [|apply some_inj in S1; subst w1; vm_compute in S2; discriminate].
  destruct (step held w2) as [w3|] eqn:S3; [|discriminate].
  assert (N : now w2 < now recording_world + INPUT_SMOOTHING_MS).
  { apply some_inj in S1. subst w1. vm_compute in S2.
    apply some_inj in S2. subst w2. reflexivity. }
  destruct (C recording_world 0 0 0 w1 [TogglePause; Elapse 10] w2
              (-32768) (-32768) 0 w3 W eq_refl eq_refl eq_refl eq_refl
              S1 S2 N eq_refl S3) as [_ T].
  apply some_inj in S1. subst w1. vm_compute in S2.
  apply some_inj in S2. subst w2. vm_compute in S3.
  apply some_inj in S3. subst w3. discriminate.
Qed.

(** C3, amended: when the system is not paused at the re-engaged sample,
    a disengaged sample followed by a re-engaged sample before the 30 ms
    smoothing window has elapsed produces no Stopping transition.  The
    disengaged sample arms the stop timer 30 ms ahead; whatever is processed
    in between, nothing is assigned to the state and it stays Recording as
    long as the clock is before the deadline; the re-engaged sample cancels
    the pending timer, clears [stopTimer], and the state remains
    Recording. *)
Theorem reengage_within_window_cancels_stop :
  forall (w0 : World) (kc kl kr : Z) (w1 : World) (mid : list Event)
         (w2 : World) (kc' kl' kr' : Z) (w3 : World),
    wf w0 ->
    currentState w0 = RECORDING ->
    isPaused w0 = false ->
    stopTimer w0 = None ->
    engaged kc kl kr = false ->
    step (Tick kc kl kr) w0 = Some w1 ->
    run mid w1 = Some w2 ->
    now w2 < now w0 + INPUT_SMOOTHING_MS ->
    isPaused w2 = false ->
    engaged kc' kl' kr' = true ->
    step (Tick kc' kl' kr') w2 = Some w3 ->
    stopTimer w1 = Some (nextTimer w0)
    /\ In (mkTimer (nextTimer w0) (now w0 + 30) CbStop) (timers w1)
    /\ currentState w2 = RECORDING
    /\ history w2 = history w0
    /\ currentState w3 = RECORDING
    /\ stopTimer w3 = None
    /\ (forall t, In t (timers w3) -> cb t <> CbStop)
    /\ history w3 = history w0.
Proof.
  intros w0 kc kl kr w1 mid w2 kc' kl' kr' w3
         H Hr Hp Hn He S1 Rm Hd Hp2 He' S3.
  destruct (released_sample_arms _ _ _ _ _ Hr Hp Hn He S1)
    as [A1 [T1 [C1 [H1 _]]]].
  assert (J1 : in_window (now w0 + INPUT_SMOOTHING_MS) (history w0) w1).
  { split; [eapply wf_step; eassumption|].
    split; [exact C1|]. split; [exact H1|].
    pose proof (step_now _ _ _ S1) as Hm.
    split; [|lia].
    intros t Hin Hc.
    destruct (step_stop_timers _ _ _ _ S1 Hin Hc) as [Ho|Hnew]; [|lia].
    destruct H as [_ [_ [S _]]]. destruct (S t Ho Hc) as [E _].
    rewrite Hn in E. discriminate. }
  pose proof (in_window_run _ _ _ _ _ J1 Rm Hd) as [W2 [C2 [H2 _]]].
  destruct (held_sample_disarms _ _ _ _ _ W2 C2 Hp2 He' S3)
    as [A3 [T3 [C3 [H3 _]]]].
  split; [exact A1|].
  split; [rewrite T1; apply in_or_app; right; left; reflexivity|].
  split; [exact C2|]. split; [exact H2|]. split; [exact C3|].
  split; [exact A3|]. split; [exact T3|]. congruence.
Qed.

Lemma reengage_within_window_cancels_stop_witness :
  step released recording_world = Some released_world
  /\ run [Elapse 10; AudioData [JsNum.one]; Elapse 10] released_world
     = Some window_world
  /\ now window_world = 1020
  /\ step held window_world = Some reengaged_world
  /\ currentState reengaged_world = RECORDING
  /\ stopTimer reengaged_world = None
  /\ history reengaged_world = [RECORDING].
Proof.
  assert (S1 : step released recording_world = Some released_world)
    by (vm_compute; reflexivity).
  assert (S2 : run [Elapse 10; AudioData [JsNum.one]; Elapse 10] released_world
               = Some window_world) by (vm_compute; reflexivity).
  assert (S3 : step held window_world = Some reengaged_world)
    by (vm_compute; reflexivity).
  destruct (reengage_within_window_cancels_stop
              recording_world 0 0 0 released_world
              [Elapse 10; AudioData [JsNum.one]; Elapse 10] window_world
              (-32768) (-32768) 0 reengaged_world
              wf_recording_world eq_refl eq_refl eq_refl eq_refl
              S1 S2 eq_refl eq_refl eq_refl S3)
    as [_ [_ [_ [_ [C [T [_ Hh]]]]]]].
  split; [exact S1|]. split; [exact S2|]. split; [reflexivity|].
  split; [exact S3|]. split; [exact C|]. split; [exact T|exact Hh].
Defined.

(* ================================================================== *)
(** * Pausing with a stop timer pending *)
(* ================================================================== *)

Lemma stopRecording_out : forall w,
  out (stopRecording w) = out w ++ stop_outputs w.
Proof.
  intros w.
  destruct w as [cs pb rst rw cd wd st0 iw frs ip ap lrt nw tm nt
                 ch np pp w32 cl af ot hs].
  destruct iw as [[|]|], rw, cs, ap as [[p [|] [|]]|];
    cbn; rewrite <- ?app_assoc, ?app_nil_r; reflexivity.
Qed.

Lemma find_unique : forall ts (t : Timer),
  NoDup (map tid ts) -> In t ts ->
  find (fun u => Nat.eqb (tid u) (tid t)) ts = Some t.
Proof.
  induction ts as [|u ts IH]; intros t N Hin; [destruct Hin|].
  cbn [map] in N. inversion N as [|x xs Hx Hxs]; subst.
  cbn [find]. destruct Hin as [->|Hin].
  - rewrite Nat.eqb_refl. reflexivity.
  - destruct (Nat.eqb_spec (tid u) (tid t)) as [E|_]; [|apply IH; assumption].
    exfalso. apply Hx. rewrite E. apply in_map. exact Hin.
Qed.

Lemma run_inputs_paused : forall inputs w w',
  forallb is_input inputs = true ->
  isPaused w = true ->
  run inputs w = Some w' ->
  isPaused w' = true
  /\ currentState w' = currentState w
  /\ history w' = history w
  /\ stopTimer w' = stopTimer w
  /\ timers w' = timers w
  /\ out w' = out w
  /\ indicatorWindow w' = indicatorWindow w
  /\ recorderWindow w' = recorderWindow w
  /\ asrProcess w' = asrProcess w
  /\ now w <= now w'.
Proof.
  induction inputs as [|e es IH]; intros w w' F P Hr; cbn [run] in Hr.
  - apply some_inj in Hr. subst w'. repeat split; try assumption. lia.
  - cbn [forallb] in F. apply andb_true_iff in F. destruct F as [Fe Fs].
    destruct e; try discriminate; cbn [step] in Hr.
    + rewrite (onKeyTick_paused _ _ _ w P) in Hr.
      apply IH in Hr; [|exact Fs|exact P]. exact Hr.
    + destruct (Z.leb_spec 0 dt) as [Hd|]; [|discriminate].
      apply IH in Hr; [|exact Fs|exact P]. world_simpl.
      destruct Hr as [A [B [C [D [E [G [I [J [K L]]]]]]]]].
      repeat split; try assumption. lia.
Qed.

(** A handler that acts on the state machine alone keeps the pause flag,
    the variable [stopTimer] and the timers that are queued. *)
Lemma acts_pending : forall reqs w w' id (t : Timer),
  acts reqs w w' ->
  isPaused w = true -> stopTimer w = Some id -> In t (timers w) ->
  isPaused w' = true /\ stopTimer w' = Some id /\ In t (timers w').
Proof.
  intros reqs w w' id t (_ & T & _ & _ & P & (extra & Tm & _)) Hp Hs Hin.
  split; [congruence|]. split; [congruence|].
  rewrite Tm. apply in_or_app. left. exact Hin.
Qed.

(** While the dictation is paused, a turn that is neither a click on the
    pause entry nor the firing of the pending stop timer leaves that timer
    queued, [stopTimer] naming it, the pause flag set and the state as it
    is. *)
Lemma step_pending_paused : forall e w w' id d,
  wf w -> isPaused w = true -> stopTimer w = Some id ->
  In (mkTimer id d CbStop) (timers w) ->
  leaves_pending id e = true -> step e w = Some w' ->
  isPaused w' = true
  /\ stopTimer w' = Some id
  /\ In (mkTimer id d CbStop) (timers w')
  /\ currentState w' = currentState w
  /\ history w' = history w.
Proof.
  intros e w w' id d H P Hs Hin L S.
  assert (Hst : currentState w' = currentState w /\ history w' = history w).
  { pose proof (step_requests _ _ _ S) as E.
    rewrite transitions_st in E. unfold st in E.
    assert (Z : path_of (currentState w) (requests e w) = []).
    { destruct e; cbn [requests]; try reflexivity.
      - rewrite P. reflexivity.
      - cbn [step leaves_pending] in *.
        destruct (findTimer id0 w) as [u|] eqn:Hf; [|reflexivity].
        destruct (cb u) eqn:Hc; try reflexivity.
        destruct (findTimer_some _ _ _ Hf) as [Hu Hi].
        destruct H as (_ & _ & Sx & _).
        destruct (Sx u Hu Hc) as [Es _].
        apply negb_true_iff, Nat.eqb_neq in L. congruence.
      - destruct H as ([I|R] & _); rewrite ?I, ?R; reflexivity. }
    rewrite Z, app_nil_r in E. cbn [last] in E. split; congruence. }
  destruct Hst as [Hc Hh].
  assert (K : isPaused w' = true /\ stopTimer w' = Some id
              /\ In (mkTimer id d CbStop) (timers w')).
  { destruct e; cbn [step leaves_pending] in *; try discriminate.
    - apply some_inj in S. subst w'. rewrite (onKeyTick_paused _ _ _ w P).
      auto.
    - destruct (findTimer id0 w) as [u|] eqn:Hf; [|discriminate].
      destruct (due u <=? now w); [|discriminate].
      apply some_inj in S. subst w'.
      apply negb_true_iff in L. apply Nat.eqb_neq in L.
      assert (Hin1 : In (mkTimer id d CbStop) (timers (clearTimeout id0 w))).
      { unfold clearTimeout. world_simpl. apply filter_In.
        split; [exact Hin|]. cbn [tid].
        destruct (Nat.eqb_spec id id0); [congruence|reflexivity]. }
      assert (P1 : isPaused (clearTimeout id0 w) = true) by exact P.
      assert (S1 : stopTimer (clearTimeout id0 w) = Some id) by exact Hs.
      destruct (cb u) eqn:Hcb; cbn [runCallback].
      + destruct (findTimer_some _ _ _ Hf) as [Hu Hi].
        destruct H as (_ & _ & Sx & _).
        destruct (Sx u Hu Hcb) as [Es _]. congruence.
      + exact (acts_pending _ _ _ _ _ (acts_startASRWorker _) P1 S1 Hin1).
      + exact (acts_pending _ _ _ _ _ (acts_fadeStage _) P1 S1 Hin1).
      + exact (acts_pending _ _ _ _ _ (acts_hideStage _) P1 S1 Hin1).
    - apply some_inj in S. subst w'.
      exact (acts_pending _ _ _ _ _ (acts_onAudioData _ _) P Hs Hin).
    - apply some_inj in S. subst w'.
      exact (acts_pending _ _ _ _ _ (acts_onCaptureError _) P Hs Hin).
    - apply some_inj in S. subst w'. auto.
    - destruct (isChild p w); [|discriminate].
      apply some_inj in S. subst w'.
      exact (acts_pending _ _ _ _ _ (acts_onWorkerStdout _ _) P Hs Hin).
    - destruct (isChild p w); [|discriminate].
      apply some_inj in S. subst w'. auto.
    - destruct (isChild p w); [|discriminate].
      apply some_inj in S. subst w'.
      match goal with |- context [onWorkerClose ?x] =>
        exact (acts_pending _ x _ _ _ (acts_onWorkerClose x) P Hs Hin)
      end.
    - destruct (0 <=? dt); [|discriminate].
      apply some_inj in S. subst w'. auto. }
  destruct K as (A & B & C). auto.
Qed.

Lemma run_pending_paused : forall events w w' id d,
  wf w -> isPaused w = true -> stopTimer w = Some id ->
  In (mkTimer id d CbStop) (timers w) ->
  forallb (leaves_pending id) events = true -> run events w = Some w' ->
  isPaused w' = true
  /\ stopTimer w' = Some id
  /\ In (mkTimer id d CbStop) (timers w')
  /\ currentState w' = currentState w
  /\ history w' = history w.
Proof.
  induction events as [|e es IH]; intros w w' id d H P Hs Hin F R;
    cbn [run] in R.
  - apply some_inj in R. subst w'. auto.
  - cbn [forallb] in F. apply andb_true_iff in F. destruct F as [Fe Fs].
    destruct (step e w) as [w1|] eqn:S; [|discriminate].
    destruct (step_pending_paused e w w1 id d H P Hs Hin Fe S)
      as (P1 & S1 & I1 & C1 & H1).
    destruct (IH w1 w' id d (wf_step _ _ _ H S) P1 S1 I1 Fs R)
      as (P2 & S2 & I2 & C2 & H2).
    repeat split; try assumption; congruence.
Qed.

(** C10: pausing does not cancel a pending stop.  With a stop timer
    pending, the dictation is paused, and then the event loop takes any
    turns at all but a second click on the pause entry and the firing of
    that timer: key samples, held or released, audio chunks, capture
    errors, focus changes, the events of the worker, other timers, time
    passing.  The timer stays in the queue under the same identifier and
    deadline, at most one smoothing window after the pause; [stopTimer]
    still names it, the dictation is still paused and the state is still
    Recording; with key samples and time alone the whole queue is as it
    was.  The timer cannot run before its deadline, and from the deadline
    on it runs: the turn sends the stop-capture signal and the END frame
    to a live worker, assigns Stopping, Finalizing and Idle in this order,
    and leaves the state Idle and [stopTimer] cleared. *)
Theorem pause_does_not_cancel_pending_stop :
  forall (w0 : World) (id : nat) (w1 : World) (events : list Event)
         (w2 : World),
    wf w0 ->
    stopTimer w0 = Some id ->
    isPaused w0 = false ->
    step TogglePause w0 = Some w1 ->
    forallb (leaves_pending id) events = true ->
    run events w1 = Some w2 ->
    exists d,
      findTimer id w2 = Some (mkTimer id d CbStop)
      /\ d <= now w0 + INPUT_SMOOTHING_MS
      /\ In (mkTimer id d CbStop) (timers w0)
      /\ (forallb is_input events = true -> timers w2 = timers w0)
      /\ isPaused w2 = true
      /\ stopTimer w2 = Some id
      /\ currentState w2 = RECORDING
      /\ (now w2 < d -> step (TimerFire id) w2 = None)
      /\ (d <= now w2 ->
          exists w3,
            step (TimerFire id) w2 = Some w3
            /\ currentState w3 = IDLE
            /\ stopTimer w3 = None
            /\ history w3 = history w0 ++ [STOPPING; FINALIZING; IDLE]
            /\ out w3 = out w2 ++ stop_outputs w2
            /\ In (RecorderSend StopCapture) (stop_outputs w2)
            /\ (forall p, writable w2 = Some p ->
                  In (WorkerWrite p [3]) (stop_outputs w2))).
Proof.
  intros w0 id w1 events w2 H Hs Hp S1 F R.
  cbn [step] in S1. apply some_inj in S1. subst w1.
  assert (P1 : isPaused (onTogglePause w0) = true).
  { unfold onTogglePause. world_simpl. rewrite Hp. reflexivity. }
  assert (W1 : wf (onTogglePause w0))
    by (eapply wf_same_core; [exact H|reflexivity..]).
  pose proof (wf_run events _ w2 W1 R) as W2.
  pose proof H as [_ [A [S [_ [_ Rw]]]]].
  destruct (A id Hs) as [Hr [d Hin]].
  destruct (S _ Hin eq_refl) as [_ Hd]. cbn [due] in Hd.
  destruct (run_pending_paused events (onTogglePause w0) w2 id d
              W1 P1 Hs Hin F R) as (P2 & T2 & I2 & C2 & H2).
  unfold onTogglePause in C2, H2. world_simpl.
  assert (Hf : findTimer id w2 = Some (mkTimer id d CbStop)).
  { unfold findTimer. destruct W2 as (_ & _ & _ & _ & N2 & _).
    apply (find_unique (timers w2) (mkTimer id d CbStop) N2 I2). }
  assert (R2 : recorderWindow w2 = true) by apply W2.
  exists d.
  split; [exact Hf|]. split; [exact Hd|]. split; [exact Hin|].
  split.
  { intros Fi.
    destruct (run_inputs_paused _ _ _ Fi P1 R) as (_ & _ & _ & _ & Q2 & _).
    exact Q2. }
  split; [exact P2|]. split; [exact T2|]. split; [congruence|].
  split.
  { intros Hlt. cbn [step]. rewrite Hf. cbn [due].
    destruct (Z.leb_spec d (now w2)); [lia|reflexivity]. }
  intros Hge.
  destruct (step_TimerFire_stop w2 id _ W2 Hf eq_refl Hge) as [E [_ Hr2]].
  destruct (wf_stopRecording_disarm w2 W2 Hr2) as [_ [C3 [H3 T3]]].
  destruct (wf_disarm w2 W2) as [_ [_ [_ [_ [_ [Od _]]]]]].
  exists (stopRecording (disarm w2)).
  split; [exact E|]. split; [exact C3|]. split; [exact T3|].
  split; [rewrite H3, H2; reflexivity|].
  assert (Eo : stop_outputs (disarm w2) = stop_outputs w2).
  { unfold disarm. destruct (stopTimer w2); reflexivity. }
  split; [rewrite stopRecording_out, Od, Eo; reflexivity|].
  unfold stop_outputs. rewrite R2.
  split.
  - apply in_or_app. right. left. reflexivity.
  - intros p Hw. rewrite Hw. apply in_or_app. right. right. left. reflexivity.
Qed.

Lemma wf_released_world : wf released_world.
Proof.
  apply (wf_step released recording_world); [apply wf_recording_world|].
  vm_compute. reflexivity.
Qed.

Lemma pause_does_not_cancel_pending_stop_witness :
  stopTimer released_world = Some 0%nat
  /\ step TogglePause released_world = Some paused_released_world
  /\ run [Elapse 10; held; AudioData [JsNum.one]; CaptureError;
          Elapse 20; held] paused_released_world
     = Some paused_reengaged_world
  /\ stopTimer paused_reengaged_world = Some 0%nat
  /\ currentState paused_reengaged_world = RECORDING
  /\ exists w3,
       step (TimerFire 0) paused_reengaged_world = Some w3
       /\ currentState w3 = IDLE
       /\ history w3 = [RECORDING; STOPPING; FINALIZING; IDLE].
Proof.
  assert (S1 : step TogglePause released_world = Some paused_released_world)
    by (vm_compute; reflexivity).
  assert (S2 : run [Elapse 10; held; AudioData [JsNum.one]; CaptureError;
                    Elapse 20; held] paused_released_world
               = Some paused_reengaged_world) by (vm_compute; reflexivity).
  destruct (pause_does_not_cancel_pending_stop
              released_world 0%nat paused_released_world
              [Elapse 10; held; AudioData [JsNum.one]; CaptureError;
               Elapse 20; held] paused_reengaged_world
              wf_released_world eq_refl eq_refl S1 eq_refl S2)
    as [d [Hf [_ [_ [_ [_ [T [C [_ Fire]]]]]]]]].
  assert (Ed : d = 1030) by (vm_compute in Hf; congruence).
  assert (L : d <= now paused_reengaged_world)
    by (subst d; vm_compute; discriminate).
  destruct (Fire L) as [w3 [S3 [C3 [_ [H3 _]]]]].
  split; [reflexivity|]. split; [exact S1|]. split; [exact S2|].
  split; [exact T|]. split; [exact C|].
  exists w3. split; [exact S3|]. split; [exact C3|exact H3].
Defined.

(* ================================================================== *)
(** * Reachable worlds *)
(* ================================================================== *)

Lemma reachable_wf : forall w, reachable w -> wf w.
Proof.
  intros w [t0 [p [f [py [win [es R]]]]]].
  apply (wf_run es _ w (wf_boot t0 p f py win) R).
Qed.

(* ================================================================== *)
(** * The keyboard input records ([buildKeyboardInput], [PASTE_BUFFER]) *)
(* ================================================================== *)

Lemma testbit_high_u16 : forall v i,
  0 <= v < 65536 -> 16 <= i -> Z.testbit v i = false.
Proof.
  intros v i Hv Hi.
  destruct (Z.eq_dec v 0) as [->|Hnz]; [apply Z.testbit_0_l|].
  apply Z.bits_above_log2; [lia|].
  assert (Z.log2 v < 16) by (apply Z.log2_lt_pow2; lia). lia.
Qed.

Lemma writeUInt16LE_bytes : forall v b,
  writeUInt16LE v = Some b ->
  0 <= v < 65536
  /\ exists b0 b1,
       b = [b0; b1] /\ is_byte b0 /\ is_byte b1
       /\ readUInt16LE [b0; b1] = Some v.
Proof.
  intros v b. unfold writeUInt16LE.
  destruct ((0 <=? v) && (v <? 65536)) eqn:R; [|discriminate].
  apply andb_true_iff in R. destruct R as [R1 R2].
  apply Z.leb_le in R1. apply Z.ltb_lt in R2.
  intros E. apply some_inj in E. subst b. split; [lia|].
  exists (Z.land v 255), (Z.land (Z.shiftr v 8) 255).
  split; [reflexivity|].
  split; [apply land_255_range|]. split; [apply land_255_range|].
  unfold readUInt16LE. f_equal.
  apply Z.bits_inj'. intros n Hn.
  rewrite Z.lor_spec.
  replace (Z.land v 255) with (Z.land (Z.shiftr v 0) 255)
    by (rewrite Z.shiftr_0_r; reflexivity).
  destruct (Z.ltb_spec n 8) as [L8|G8].
  - rewrite testbit_byte_at by lia.
    rewrite Z.shiftl_spec_low by lia.
    replace (n + 0) with n by lia.
    destruct (Z.ltb_spec n 8); [|lia].
    rewrite andb_true_r, orb_false_r. reflexivity.
  - rewrite (Z.shiftl_spec _ 8) by lia.
    rewrite !testbit_byte_at by lia.
    replace (n - 8 + 8) with n by lia.
    destruct (Z.ltb_spec n 8); [lia|].
    rewrite andb_false_r. cbn [orb].
    destruct (Z.ltb_spec (n - 8) 8).
    + rewrite andb_true_r. reflexivity.
    + rewrite andb_false_r. symmetry. apply testbit_high_u16; lia.
Qed.

Lemma writeUInt32LE_bytes : forall v b,
  writeUInt32LE v = Some b ->
  0 <= v < 2 ^ 32
  /\ exists b0 b1 b2 b3,
       b = [b0; b1; b2; b3]
       /\ is_byte b0 /\ is_byte b1 /\ is_byte b2 /\ is_byte b3
       /\ readUInt32LE [b0; b1; b2; b3] = Some v.
Proof.
  intros v b E.
  assert (R : 0 <= v < 2 ^ 32).
  { unfold writeUInt32LE in E.
    destruct (Z.leb_spec 0 v); destruct (Z.ltb_spec v (2 ^ 32));
      try discriminate. lia. }
  split; [exact R|].
  pose proof (readUInt32LE_writeUInt32LE v b E) as Rd.
  rewrite (writeUInt32LE_spec v R) in E. apply some_inj in E. subst b.
  destruct (spec_le32_value v R) as [l0 [l1 [l2 [l3 [El [B0 [B1 [B2 [B3 _]]]]]]]]].
  exists l0, l1, l2, l3. rewrite El in Rd. rewrite El. auto 10.
Qed.

Lemma writeUInt16LE_defined : forall v,
  0 <= v < 65536 -> exists b, writeUInt16LE v = Some b.
Proof.
  intros v Hv. unfold writeUInt16LE.
  destruct (Z.leb_spec 0 v); [|lia].
  destruct (Z.ltb_spec v 65536); [|lia].
  eexists. reflexivity.
Qed.

Lemma writeUInt32LE_none : forall v,
  writeUInt32LE v = None <-> ~ 0 <= v < 2 ^ 32.
Proof.
  intros v. unfold writeUInt32LE.
  destruct (Z.leb_spec 0 v); destruct (Z.ltb_spec v (2 ^ 32)); cbn [andb];
    split; intros K;
    first [discriminate | lia | reflexivity | (exfalso; apply K; lia)].
Qed.

Lemma writeUInt16LE_none : forall v,
  writeUInt16LE v = None <-> ~ 0 <= v < 65536.
Proof.
  intros v. unfold writeUInt16LE.
  destruct (Z.leb_spec 0 v); destruct (Z.ltb_spec v 65536); cbn [andb];
    split; intros K;
    first [discriminate | lia | reflexivity | (exfalso; apply K; lia)].
Qed.

(** X1: the record [buildKeyboardInput] builds.  For a virtual key below
    65536 and flags below 2^32 it is 40 bytes: the type INPUT_KEYBOARD in
    the first four, little-endian, the key in the two bytes at offset 8,
    the flags in the four bytes at offset 12, and zero everywhere else;
    read back at these offsets it gives the type, the key and the flags
    it was built from.  It fails, as the range check of the writes does,
    exactly when the key or the flags are outside these ranges. *)
Theorem buildKeyboardInput_layout : forall wVk dwFlags,
  (0 <= wVk < 65536 /\ 0 <= dwFlags < 2 ^ 32 ->
   exists r w0 w1 f0 f1 f2 f3,
     buildKeyboardInput wVk dwFlags = Some r
     /\ r = [1; 0; 0; 0; 0; 0; 0; 0; w0; w1; 0; 0; f0; f1; f2; f3]
            ++ repeat 0 24
     /\ length r = INPUT_SIZE
     /\ Forall is_byte r
     /\ decodeInput r = Some (INPUT_KEYBOARD, wVk, dwFlags))
  /\ (buildKeyboardInput wVk dwFlags = None <->
      ~ (0 <= wVk < 65536 /\ 0 <= dwFlags < 2 ^ 32)).
Proof.
  intros wVk dwFlags.
  assert (Hin : 0 <= wVk < 65536 /\ 0 <= dwFlags < 2 ^ 32 ->
     exists r w0 w1 f0 f1 f2 f3,
     buildKeyboardInput wVk dwFlags = Some r
     /\ r = [1; 0; 0; 0; 0; 0; 0; 0; w0; w1; 0; 0; f0; f1; f2; f3]
            ++ repeat 0 24
     /\ length r = INPUT_SIZE
     /\ Forall is_byte r
     /\ decodeInput r = Some (INPUT_KEYBOARD, wVk, dwFlags)).
  { intros [Hv Hf].
    destruct (writeUInt16LE_defined wVk Hv) as [bw Ew].
    destruct (writeUInt16LE_bytes _ _ Ew) as [_ [w0 [w1 [-> [Bw0 [Bw1 Rw]]]]]].
    destruct (writeUInt32LE_bytes _ _ (writeUInt32LE_spec dwFlags Hf))
      as [_ [f0 [f1 [f2 [f3 [Ef [B0 [B1 [B2 [B3 Rf]]]]]]]]]].
    assert (Ef' : writeUInt32LE dwFlags = Some [f0; f1; f2; f3]).
    { rewrite (writeUInt32LE_spec dwFlags Hf). f_equal. exact Ef. }
    exists ([1; 0; 0; 0; 0; 0; 0; 0; w0; w1; 0; 0; f0; f1; f2; f3]
            ++ repeat 0 24), w0, w1, f0, f1, f2, f3.
    split.
    { unfold buildKeyboardInput. rewrite Ew, Ef'. reflexivity. }
    split; [reflexivity|]. split; [reflexivity|].
    split.
    { unfold is_byte in *.
      repeat (constructor; [first [assumption|lia]|]). constructor. }
    unfold decodeInput.
    change (slice 8 2 _) with [w0; w1].
    change (slice 12 4 _) with [f0; f1; f2; f3].
    rewrite Rw, Rf. reflexivity. }
  split; [exact Hin|].
  split.
  - intros N [Hv Hf]. destruct (Hin (conj Hv Hf)) as [r [? [? [? [? [? [? [E _]]]]]]]].
    congruence.
  - intros N. unfold buildKeyboardInput.
    destruct (writeUInt16LE wVk) as [bw|] eqn:Ew.
    + destruct (writeUInt32LE dwFlags) as [bf|] eqn:Ef.
      * exfalso. apply N.
        destruct (writeUInt16LE_bytes _ _ Ew) as [Hv _].
        destruct (writeUInt32LE_bytes _ _ Ef) as [Hf _]. auto.
      * destruct (writeUInt16LE_bytes _ _ Ew) as [_ [w0 [w1 [-> _]]]].
        reflexivity.
    + reflexivity.
Qed.

Lemma buildKeyboardInput_layout_witness :
  buildKeyboardInput 86 2
  = Some ([1; 0; 0; 0; 0; 0; 0; 0; 86; 0; 0; 0; 2; 0; 0; 0] ++ repeat 0 24)
  /\ buildKeyboardInput 65536 0 = None.
Proof.
  destruct (buildKeyboardInput_layout 86 2) as [A _].
  destruct (buildKeyboardInput_layout 65536 0) as [_ B].
  split.
  - destruct A as [r [w0 [w1 [f0 [f1 [f2 [f3 [E _]]]]]]]].
    + split; [split; [discriminate|reflexivity]|split; [discriminate|reflexivity]].
    + rewrite E. vm_compute in E. apply some_inj in E. subst r. reflexivity.
  - apply B. intros [[_ H] _]. revert H. vm_compute. discriminate.
Defined.

(** X2: the paste buffer is built without an error and holds four records
    of [INPUT_SIZE] bytes each, as the call [SendInput(4, PASTE_BUFFER,
    INPUT_SIZE)] expects them: Control down, V down, V up, Control up, in
    this order. *)
Theorem PASTE_BUFFER_is_ctrl_v :
  exists pb,
    PASTE_BUFFER = Some pb
    /\ length pb = (4 * INPUT_SIZE)%nat
    /\ Forall is_byte pb
    /\ decodeInputs 4 pb =
       Some [ (INPUT_KEYBOARD, VK_CONTROL, 0);
              (INPUT_KEYBOARD, VK_V, 0);
              (INPUT_KEYBOARD, VK_V, KEYEVENTF_KEYUP);
              (INPUT_KEYBOARD, VK_CONTROL, KEYEVENTF_KEYUP) ].
Proof.
  eexists. split; [vm_compute; reflexivity|].
  split; [reflexivity|]. split; [|vm_compute; reflexivity].
  unfold is_byte. repeat (constructor; [lia|]). constructor.
Qed.

(* ================================================================== *)
(** * The WAV header ([generateWavHeader]) *)
(* ================================================================== *)

(** X3: the header [generateWavHeader] builds for an integer data length.
    From 0 up to 2^32 - 37 it is 44 bytes that read back as the canonical
    PCM header: the tags RIFF, WAVE, fmt and data, the chunk size 36 plus
    the data length, the format chunk of 16 bytes, format 1, one channel,
    16000 Hz, 32000 bytes per second, frames of 2 bytes, 16 bits per
    sample, and the data length.  For every other length one of the
    32-bit writes is out of range and the function throws. *)
Theorem generateWavHeader_layout : forall dataLength,
  (0 <= dataLength < 2 ^ 32 - 36 ->
   exists h,
     generateWavHeader dataLength = Some h
     /\ length h = 44%nat
     /\ Forall is_byte h
     /\ readWavHeader h =
        Some (mkWavHeader RIFF (36 + dataLength) WAVE fmt_ 16 1 1 16000
                32000 2 16 data_ dataLength))
  /\ (generateWavHeader dataLength = None <->
      ~ 0 <= dataLength < 2 ^ 32 - 36).
Proof.
  intros n.
  assert (Hin : 0 <= n < 2 ^ 32 - 36 ->
   exists h,
     generateWavHeader n = Some h
     /\ length h = 44%nat
     /\ Forall is_byte h
     /\ readWavHeader h =
        Some (mkWavHeader RIFF (36 + n) WAVE fmt_ 16 1 1 16000
                32000 2 16 data_ n)).
  { intros Hn.
    assert (R1 : 0 <= 36 + n < 2 ^ 32) by lia.
    assert (R2 : 0 <= n < 2 ^ 32) by lia.
    destruct (writeUInt32LE_bytes _ _ (writeUInt32LE_spec _ R1))
      as [_ [r0 [r1 [r2 [r3 [Er [A0 [A1 [A2 [A3 Rr]]]]]]]]]].
    destruct (writeUInt32LE_bytes _ _ (writeUInt32LE_spec _ R2))
      as [_ [d0 [d1 [d2 [d3 [Ed [D0 [D1 [D2 [D3 Rd]]]]]]]]]].
    assert (Er' : writeUInt32LE (36 + n) = Some [r0; r1; r2; r3])
      by (rewrite (writeUInt32LE_spec _ R1); f_equal; exact Er).
    assert (Ed' : writeUInt32LE n = Some [d0; d1; d2; d3])
      by (rewrite (writeUInt32LE_spec _ R2); f_equal; exact Ed).
    exists ([82; 73; 70; 70; r0; r1; r2; r3; 87; 65; 86; 69;
             102; 109; 116; 32; 16; 0; 0; 0; 1; 0; 1; 0;
             128; 62; 0; 0; 0; 125; 0; 0; 2; 0; 16; 0;
             100; 97; 116; 97; d0; d1; d2; d3]).
    split.
    { unfold generateWavHeader. cbv zeta. rewrite Er', Ed'.
      vm_compute. reflexivity. }
    split; [reflexivity|].
    split.
    { unfold is_byte in *.
      repeat (constructor; [first [assumption|lia]|]). constructor. }
    unfold readWavHeader.
    change (slice 4 4 _) with [r0; r1; r2; r3].
    change (slice 40 4 _) with [d0; d1; d2; d3].
    rewrite Rr, Rd. vm_compute. reflexivity. }
  split; [exact Hin|].
  split.
  - intros N Hn. destruct (Hin Hn) as [h [E _]]. congruence.
  - intros N. unfold generateWavHeader. cbv zeta.
    destruct (writeUInt32LE (36 + n)) as [br|] eqn:Er; [|reflexivity].
    destruct (writeUInt32LE n) as [bd|] eqn:Ed.
    + exfalso. apply N.
      destruct (writeUInt32LE_bytes _ _ Er) as [H1 _].
      destruct (writeUInt32LE_bytes _ _ Ed) as [H2 _]. lia.
    + destruct (writeUInt32LE_bytes _ _ Er)
        as [_ [r0 [r1 [r2 [r3 [-> _]]]]]].
      vm_compute. reflexivity.
Qed.

Lemma generateWavHeader_layout_witness :
  generateWavHeader 32000
  = Some [82; 73; 70; 70; 36; 125; 0; 0; 87; 65; 86; 69;
          102; 109; 116; 32; 16; 0; 0; 0; 1; 0; 1; 0;
          128; 62; 0; 0; 0; 125; 0; 0; 2; 0; 16; 0;
          100; 97; 116; 97; 0; 125; 0; 0]
  /\ generateWavHeader (-1) = None
  /\ generateWavHeader (2 ^ 32 - 36) = None.
Proof.
  destruct (generateWavHeader_layout 32000) as [A _].
  destruct (generateWavHeader_layout (-1)) as [_ B].
  destruct (generateWavHeader_layout (2 ^ 32 - 36)) as [_ C].
  split.
  - destruct A as [h [E _]]; [split; [discriminate|reflexivity]|].
    rewrite E. vm_compute in E. apply some_inj in E. subst h. reflexivity.
  - split.
    + apply B. intros [H _]. revert H. vm_compute. intros K. apply K. reflexivity.
    + apply C. intros [_ H]. revert H. vm_compute. discriminate.
Defined.

(* ================================================================== *)
(** * The interpreter lookup ([getPythonPath]) *)
(* ================================================================== *)

Lemma getPythonPath_cases : forall h,
  getPythonPath h =
  if overrideUsable h then Found (orElse (WISPR_PYTHON_PATH h) [])
  else searchCommonPaths h.
Proof.
  intros h. unfold getPythonPath, overrideUsable.
  destruct (WISPR_PYTHON_PATH h) as [[|c s]|]; reflexivity.
Qed.


Lemma overrideUsable_spec : forall h,
  overrideUsable h = true ->
  exists p,
    WISPR_PYTHON_PATH h = Some p /\ p <> [] /\ existsSync h p = true
    /\ orElse (WISPR_PYTHON_PATH h) [] = p.
Proof.
  intros h H. unfold overrideUsable in H.
  destruct (WISPR_PYTHON_PATH h) as [[|c s]|]; try discriminate.
  exists (c :: s). repeat split; try assumption. discriminate.
Qed.

(** X4: what the results of [getPythonPath] mean.  A path that is returned
    exists.  [null] is returned only when the override is not usable and
    none of the eight candidates exists.  The function throws exactly when
    the override is not usable, LOCALAPPDATA is unset or empty and
    USERPROFILE is unset, [path.join] being called on [undefined]. *)
Theorem getPythonPath_sound_complete : forall (h : PathHost),
  (forall p, getPythonPath h = Found p -> existsSync h p = true)
  /\ (getPythonPath h = NotFound ->
      overrideUsable h = false
      /\ exists lad,
           localAppData h = Some lad
           /\ Forall (fun c => existsSync h c = false) (commonPaths h lad))
  /\ (getPythonPath h = Threw <->
      overrideUsable h = false
      /\ truthy (LOCALAPPDATA h) = false
      /\ USERPROFILE h = None).
Proof.
  intros h. rewrite getPythonPath_cases. unfold searchCommonPaths.
  destruct (overrideUsable h) eqn:O.
  - destruct (overrideUsable_spec h O) as [p [_ [_ [Ep Eo]]]].
    split; [intros q E; congruence|].
    split; [discriminate|].
    split; [discriminate|intros [K _]; discriminate].
  - destruct (localAppData h) as [lad|] eqn:L.
    + destruct (find (existsSync h) (commonPaths h lad)) as [p|] eqn:F.
      * split.
        { intros q E. assert (q = p) by congruence. subst q.
          apply find_some in F. tauto. }
        split; [discriminate|].
        split; [discriminate|].
        intros [_ [T U]]. unfold localAppData in L. rewrite T, U in L.
        discriminate.
      * split; [discriminate|].
        split.
        { intros _. split; [reflexivity|]. exists lad.
          split; [reflexivity|]. apply Forall_forall. intros c Hc.
          exact (find_none _ _ F c Hc). }
        split; [discriminate|].
        intros [_ [T U]]. unfold localAppData in L. rewrite T, U in L.
        discriminate.
    + split; [discriminate|]. split; [discriminate|].
      split; [|reflexivity].
      intros _. split; [reflexivity|]. unfold localAppData in L.
      destruct (truthy (LOCALAPPDATA h)) eqn:T.
      * destruct (LOCALAPPDATA h) as [[|]|]; discriminate.
      * destruct (USERPROFILE h); [discriminate|]. auto.
Qed.

Lemma getPythonPath_sound_complete_witness :
  getPythonPath demo_host = Found python312_exe
  /\ existsSync demo_host python312_exe = true.
Proof.
  destruct (getPythonPath_sound_complete demo_host) as [A _].
  split; [vm_compute; reflexivity|].
  apply A. vm_compute. reflexivity.
Defined.



(* ================================================================== *)
(** * The layout of a converted chunk *)
(* ================================================================== *)

Lemma float32ToInt16_app : forall a b,
  float32ToInt16 (a ++ b) =
  match float32ToInt16 a, float32ToInt16 b with
  | Some x, Some y => Some (x ++ y)
  | _, _ => None
  end.
Proof.
  induction a as [|s a IH]; intros b; cbn [app float32ToInt16].
  - destruct (float32ToInt16 b); reflexivity.
  - destruct (sample16 s) as [two|]; [|reflexivity].
    rewrite IH. destruct (float32ToInt16 a) as [x|]; [|reflexivity].
    destruct (float32ToInt16 b) as [y|]; [|reflexivity].
    rewrite app_assoc. reflexivity.
Qed.

Lemma float32ToInt16_none : forall a,
  float32ToInt16 a = None <-> exists s, In s a /\ sample16 s = None.
Proof.
  induction a as [|s a IH]; cbn [float32ToInt16].
  - split; [discriminate|]. intros (s & [] & _).
  - destruct (sample16 s) as [two|] eqn:E.
    + destruct (float32ToInt16 a) as [x|].
      * split; [discriminate|]. intros (t & [->|Hin] & Ht).
        -- congruence.
        -- destruct IH as [_ IH]. discriminate IH. exists t. auto.
      * split; [|reflexivity]. intros _.
        destruct IH as [IH _]. destruct (IH eq_refl) as (t & Hin & Ht).
        exists t. split; [right; exact Hin|exact Ht].
    + split; [|reflexivity]. intros _. exists s. split; [left; reflexivity|exact E].
Qed.

Lemma float32ToInt16_at : forall a buf i s,
  float32ToInt16 a = Some buf -> nth_error a i = Some s ->
  sample16 s = Some (slice (2 * i) 2 buf).
Proof.
  induction a as [|t a IH]; intros buf i s E N.
  - destruct i; discriminate.
  - cbn [float32ToInt16] in E.
    destruct (sample16 t) as [two|] eqn:St; [|discriminate].
    destruct (float32ToInt16 a) as [x|] eqn:Ea; [|discriminate].
    apply some_inj in E. subst buf.
    destruct (writeInt16LE_shape _ _ St) as [L2 _].
    destruct two as [|b0 [|b1 [|b2 two]]]; try discriminate.
    destruct i as [|i].
    + cbn in N. apply some_inj in N. subst t. rewrite St. reflexivity.
    + cbn [nth_error] in N. rewrite (IH x i s eq_refl N).
      replace (2 * S i)%nat with (S (S (2 * i))) by lia. reflexivity.
Qed.

(** X6: the layout of a converted chunk.  Converting a concatenation gives
    the concatenation of the conversions, and throws when either part
    does.  A converted chunk has two bytes per sample, all of them bytes,
    and the two bytes at offset [2 * i] are those of sample [i].  The
    conversion throws exactly when the store of one of the samples does.
    A NaN sample is not an error: it is stored as 0. *)
Theorem float32ToInt16_layout : forall a b,
  float32ToInt16 (a ++ b) =
    match float32ToInt16 a, float32ToInt16 b with
    | Some x, Some y => Some (x ++ y)
    | _, _ => None
    end
  /\ (forall buf, float32ToInt16 a = Some buf ->
        length buf = (2 * length a)%nat
        /\ Forall is_byte buf
        /\ forall i s, nth_error a i = Some s ->
             sample16 s = Some (slice (2 * i) 2 buf))
  /\ (float32ToInt16 a = None <-> exists s, In s a /\ sample16 s = None)
  /\ float32ToInt16 [S754_nan] = Some [0; 0].
Proof.
  intros a b. split; [apply float32ToInt16_app|].
  split.
  - intros buf E. destruct (float32ToInt16_shape a buf E) as [L B].
    split; [exact L|]. split; [exact B|].
    intros i s N. apply (float32ToInt16_at a buf i s E N).
  - split; [apply float32ToInt16_none|]. vm_compute. reflexivity.
Qed.

Lemma float32ToInt16_layout_witness :
  float32ToInt16 [JsNum.one] = Some [255; 127]
  /\ length [255; 127] = (2 * length [JsNum.one])%nat.
Proof.
  assert (E : float32ToInt16 [JsNum.one] = Some [255; 127])
    by (vm_compute; reflexivity).
  destruct (float32ToInt16_layout [JsNum.one] []) as (_ & B & _).
  destruct (B [255; 127] E) as (L & _).
  split; [exact E|exact L].
Defined.

(* ================================================================== *)
(** * The key states the listener reads *)
(* ================================================================== *)






(* ================================================================== *)
(** * Trimming *)
(* ================================================================== *)

Lemma trimStart_clean : forall s, clean_start (trimStart s).
Proof.
  induction s as [|c s IH]; [exact I|].
  cbn [trimStart]. destruct (is_whitespace c) eqn:E; [exact IH|exact E].
Qed.

Lemma trimStart_fix : forall s, clean_start s -> trimStart s = s.
Proof.
  intros [|c s] H; [reflexivity|]. cbn [trimStart]. cbn in H. rewrite H.
  reflexivity.
Qed.

Lemma trimStart_app : forall l m,
  trimStart (l ++ m) =
  match trimStart l with
  | [] => trimStart m
  | t => t ++ m
  end.
Proof.
  induction l as [|c l IH]; intros m; [reflexivity|].
  cbn [app trimStart]. destruct (is_whitespace c); [apply IH|reflexivity].
Qed.

Lemma trimEnd_clean_start : forall t, clean_start t -> clean_start (trimEnd t).
Proof.
  intros [|c t] H; [exact I|]. unfold trimEnd. cbn [rev].
  rewrite trimStart_app.
  destruct (trimStart (rev t)) as [|u us] eqn:E.
  - cbn in H. cbn [trimStart]. rewrite H. exact H.
  - rewrite rev_app_distr. exact H.
Qed.

Lemma trimEnd_clean_end : forall t, clean_start (rev (trimEnd t)).
Proof.
  intros t. unfold trimEnd. rewrite rev_involutive. apply trimStart_clean.
Qed.

Lemma trimEnd_idem : forall t, trimEnd (trimEnd t) = trimEnd t.
Proof.
  intros t. unfold trimEnd. rewrite rev_involutive.
  rewrite (trimStart_fix _ (trimStart_clean (rev t))). reflexivity.
Qed.

(** [trim] leaves nothing to trim. *)
Lemma trim_idem : forall s, trim (trim s) = trim s.
Proof.
  intros s. unfold trim.
  rewrite (trimStart_fix (trimEnd (trimStart s))).
  - apply trimEnd_idem.
  - apply trimEnd_clean_start, trimStart_clean.
Qed.

Lemma trim_clean : forall s,
  clean_start (trim s) /\ clean_start (rev (trim s)).
Proof.
  intros s. unfold trim. split.
  - apply trimEnd_clean_start, trimStart_clean.
  - apply trimEnd_clean_end.
Qed.

(** A trailing whitespace character does not change the trimmed text. *)
Lemma trim_app_whitespace : forall l c,
  is_whitespace c = true -> trim (l ++ [c]) = trim l.
Proof.
  intros l c H. unfold trim. rewrite trimStart_app.
  destruct (trimStart l) as [|u us] eqn:E.
  - cbn [trimStart]. rewrite H. reflexivity.
  - unfold trimEnd. rewrite rev_app_distr. cbn [rev app trimStart].
    rewrite H. reflexivity.
Qed.

(* ================================================================== *)
(** * The lines of a chunk of the worker's output *)
(* ================================================================== *)

Lemma split_lines_aux_cons : forall c s cur,
  split_lines_aux cur (c :: s) =
  if c =? 10 then rev cur :: split_lines_aux [] s
  else if c =? 13 then
    match s with
    | x :: s' =>
        if x =? 10 then rev cur :: split_lines_aux [] s'
        else split_lines_aux (c :: cur) s
    | [] => split_lines_aux (c :: cur) s
    end
  else split_lines_aux (c :: cur) s.
Proof.
  intros c s cur.
  destruct (Z.eqb_spec c 10) as [->|N10]; [reflexivity|].
  destruct (Z.eqb_spec c 13) as [->|N13].
  - destruct s as [|x s']; [reflexivity|].
    destruct (Z.eqb_spec x 10) as [->|X10]; [reflexivity|].
    destruct x as [|p|p]; try reflexivity.
    do 4 (try (destruct p as [p|p|]; try reflexivity; try (exfalso; lia))).
  - destruct c as [|p|p]; try reflexivity.
    do 4 (try (destruct p as [p|p|]; try reflexivity; try (exfalso; lia))).
Qed.

Lemma onWorkerLine_trim : forall l l' w,
  trim l' = trim l -> onWorkerLine l' w = onWorkerLine l w.
Proof. intros l l' w E. unfold onWorkerLine. rewrite E. reflexivity. Qed.

Lemma split_lines_break : forall d2 n s cur,
  (length s <= n)%nat ->
  exists pre L L',
    split_lines_aux cur s = pre ++ [L]
    /\ split_lines_aux cur (s ++ 10 :: d2) = pre ++ L' :: split_lines d2
    /\ trim L' = trim L.
Proof.
  intros d2. induction n as [|n IH]; intros s cur Hn.
  - destruct s; [|cbn in Hn; lia].
    exists [], (rev cur), (rev cur). repeat split; reflexivity.
  - destruct s as [|c s].
    + exists [], (rev cur), (rev cur). repeat split; reflexivity.
    + cbn [length] in Hn. cbn [app].
      rewrite !split_lines_aux_cons.
      destruct (Z.eqb_spec c 10) as [->|N10].
      { destruct (IH s [] ltac:(lia)) as (pre & L & L' & E1 & E2 & E3).
        exists (rev cur :: pre), L, L'. rewrite E1, E2.
        repeat split; try reflexivity. exact E3. }
      destruct (Z.eqb_spec c 13) as [->|N13].
      { destruct s as [|x s'].
        - cbn [app]. rewrite Z.eqb_refl.
          exists [], (rev cur ++ [13]), (rev cur).
          repeat split; try reflexivity.
          symmetry. apply trim_app_whitespace. reflexivity.
        - cbn [app]. destruct (Z.eqb_spec x 10) as [->|X10].
          + cbn [length] in Hn.
            destruct (IH s' [] ltac:(lia)) as (pre & L & L' & E1 & E2 & E3).
            exists (rev cur :: pre), L, L'. rewrite E1, E2.
            repeat split; try reflexivity. exact E3.
          + apply (IH (x :: s') (13 :: cur)). lia. }
      apply IH. lia.
Qed.

Lemma fold_onWorkerLine_app : forall a b w,
  fold_left (fun acc line => onWorkerLine line acc) (a ++ b) w =
  fold_left (fun acc line => onWorkerLine line acc) b
    (fold_left (fun acc line => onWorkerLine line acc) a w).
Proof. intros. apply fold_left_app. Qed.

(** X10: a chunk boundary at a line feed is invisible.  Handling a chunk
    that ends where a line ends, and then the next chunk, gives the same
    world as handling the two as one chunk; a carriage return before the
    boundary makes no difference. *)
Theorem onWorkerStdout_line_break : forall d1 d2 w,
  onWorkerStdout (d1 ++ 10 :: d2) w = onWorkerStdout d2 (onWorkerStdout d1 w).
Proof.
  intros d1 d2 w. unfold onWorkerStdout, split_lines.
  destruct (split_lines_break d2 (length d1) d1 [] (le_n _))
    as (pre & L & L' & E1 & E2 & E3).
  rewrite E1, E2. rewrite !fold_left_app. cbn [fold_left].
  rewrite (onWorkerLine_trim L L' _ E3). reflexivity.
Qed.

Lemma last_cons_default : forall (A : Type) (l : list A) (a d : A),
  last (a :: l) d = last l a.
Proof.
  intros A l. induction l as [|b l IH]; intros a d; [reflexivity|].
  change (last (a :: b :: l) d) with (last (b :: l) d).
  rewrite !IH. reflexivity.
Qed.

Lemma onWorkerLine_skip : forall line w,
  is_transcript (trim line) = false -> onWorkerLine line w = w.
Proof.
  intros line w H. unfold onWorkerLine. unfold is_transcript in H.
  destruct (jsstring_eqb (trim line) TRANSCRIBED_FINISH); [reflexivity|].
  destruct (falsy (trim line)); [reflexivity|discriminate].
Qed.

Lemma onWorkerLine_paused : forall line w,
  is_transcript (trim line) = true -> isPaused w = true ->
  onWorkerLine line w = stamp_cleared w.
Proof.
  intros line w H P. unfold onWorkerLine, stamp_cleared.
  unfold is_transcript in H.
  destruct (jsstring_eqb (trim line) TRANSCRIBED_FINISH); [discriminate|].
  destruct (falsy (trim line)); [discriminate|].
  unfold injectText.
  destruct (0 <? lastReleaseTime w); world_simpl; rewrite P; reflexivity.
Qed.

Lemma stamp_cleared_idem : forall w,
  stamp_cleared (stamp_cleared w) = stamp_cleared w.
Proof.
  intros w. unfold stamp_cleared.
  destruct (0 <? lastReleaseTime w) eqn:E; world_simpl.
  - reflexivity.
  - rewrite E. reflexivity.
Qed.

Lemma stamp_cleared_isPaused : forall w,
  isPaused (stamp_cleared w) = isPaused w.
Proof.
  intros w. unfold stamp_cleared. destruct (0 <? lastReleaseTime w);
    reflexivity.
Qed.

(** The fields one paste sets. *)
Lemma onWorkerLine_transcript : forall line w,
  is_transcript (trim line) = true -> isPaused w = false ->
  let w' := onWorkerLine line w in
  isPaused w' = false
  /\ win32 w' = win32 w
  /\ clipboard w' = trim line
  /\ out w' = out w ++ paste_outputs (appFocused w) (win32 w) [trim line]
  /\ appFocused w' = false
  /\ indicatorWindow w' =
       match indicatorWindow w with Some _ => Some false | None => None end
  /\ lastReleaseTime w' = Z.min (lastReleaseTime w) 0.
Proof.
  intros line w H P. unfold onWorkerLine. unfold is_transcript in H.
  destruct (jsstring_eqb (trim line) TRANSCRIBED_FINISH); [discriminate|].
  pose proof (trim_idem line) as I.
  destruct (trim line) as [|c t] eqn:T; [discriminate|]. cbn [falsy].
  unfold injectText.
  replace (isPaused (if 0 <? lastReleaseTime w
                     then set_lastReleaseTime 0 w else w)) with false
    by (destruct (0 <? lastReleaseTime w); symmetry; exact P).
  rewrite I. cbn [falsy orb]. unfold hideIndicator.
  destruct w as [cs pb rst rw cd wd st0 iw frs ip ap lrt nw tm nt ch np pp
                 w32 cl af ot hs].
  world_simpl. subst ip.
  destruct (Z.ltb_spec 0 lrt) as [L|L]; world_simpl;
    destruct iw as [[|]|]; world_simpl; destruct af; world_simpl;
    destruct w32; world_simpl; cbn [paste_outputs app];
    rewrite <- ?app_assoc; cbn [app];
    rewrite ?app_nil_r; repeat split; try reflexivity; lia.
Qed.

Lemma fold_lines_unpaused : forall ls w,
  isPaused w = false ->
  let w' := fold_left (fun acc line => onWorkerLine line acc) ls w in
  let ts := filter is_transcript (map trim ls) in
  isPaused w' = false
  /\ win32 w' = win32 w
  /\ clipboard w' = last ts (clipboard w)
  /\ out w' = out w ++ paste_outputs (appFocused w) (win32 w) ts
  /\ appFocused w' = match ts with [] => appFocused w | _ => false end
  /\ indicatorWindow w' =
       match ts, indicatorWindow w with
       | _ :: _, Some _ => Some false
       | _, v => v
       end
  /\ lastReleaseTime w' =
       match ts with
       | [] => lastReleaseTime w
       | _ => Z.min (lastReleaseTime w) 0
       end.
Proof.
  induction ls as [|line ls IH]; intros w P; cbn zeta.
  - cbn [fold_left map filter last paste_outputs]. rewrite app_nil_r.
    repeat split; try reflexivity; try exact P.
  - cbn [fold_left map filter].
    destruct (is_transcript (trim line)) eqn:T.
    + destruct (onWorkerLine_transcript line w T P)
        as (P1 & W1 & C1 & O1 & F1 & I1 & L1).
      destruct (IH _ P1) as (P2 & W2 & C2 & O2 & F2 & I2 & L2).
      rewrite P2, W2, W1, C2, C1, O2, O1, F2, F1, I2, I1, L2, L1.
      rewrite last_cons_default. rewrite W1.
      repeat split; try reflexivity.
      * rewrite <- app_assoc. f_equal. cbn [paste_outputs].
        rewrite app_nil_r, <- app_assoc. reflexivity.
      * destruct (filter is_transcript (map trim ls)); reflexivity.
      * destruct (filter is_transcript (map trim ls)),
          (indicatorWindow w); reflexivity.
      * destruct (filter is_transcript (map trim ls)); lia.
    + rewrite (onWorkerLine_skip line w T). apply IH. exact P.
Qed.

Lemma fold_lines_paused : forall ls w,
  isPaused w = true ->
  fold_left (fun acc line => onWorkerLine line acc) ls w =
  match filter is_transcript (map trim ls) with
  | [] => w
  | _ => stamp_cleared w
  end.
Proof.
  induction ls as [|line ls IH]; intros w P; [reflexivity|].
  cbn [fold_left map filter].
  destruct (is_transcript (trim line)) eqn:T.
  - rewrite (onWorkerLine_paused line w T P).
    rewrite IH by (rewrite stamp_cleared_isPaused; exact P).
    rewrite stamp_cleared_idem.
    destruct (filter is_transcript (map trim ls)); reflexivity.
  - rewrite (onWorkerLine_skip line w T). apply IH. exact P.
Qed.

(** X8: what a chunk of the worker's output does when dictation is not
    paused.  The chunk is cut into lines at LF and CR LF; each line is
    trimmed; the sentinel and the empty lines are skipped; every other
    line is pasted, in order.  The clipboard ends up holding the last of
    them, the outputs are a blur of the focused window with the first and
    one Ctrl+V each on Windows, and after a paste no window of the
    application has the focus and the indicator is not visible.  A chunk
    without such a line changes nothing.  What is pasted is never empty,
    never the sentinel, and has no whitespace at either end. *)
Theorem onWorkerStdout_pastes_each_transcript : forall d w,
  isPaused w = false ->
  let w' := onWorkerStdout d w in
  clipboard w' = last (transcripts d) (clipboard w)
  /\ out w' =
       out w ++ paste_outputs (appFocused w) (win32 w) (transcripts d)
  /\ (transcripts d = [] -> w' = w)
  /\ (transcripts d <> [] ->
        appFocused w' = false /\ indicatorWindow w' <> Some true)
  /\ Forall (fun t => t <> [] /\ t <> TRANSCRIBED_FINISH
                      /\ clean_start t /\ clean_start (rev t))
       (transcripts d).
Proof.
  intros d w P. cbn zeta. unfold onWorkerStdout, transcripts.
  destruct (fold_lines_unpaused (split_lines d) w P)
    as (_ & _ & C & O & F & I & _).
  split; [exact C|]. split; [exact O|]. split; [|split].
  - clear C O F I. generalize (split_lines d) w.
    induction l as [|line ls IH]; intros w0 E; [reflexivity|].
    cbn [fold_left map filter] in *.
    destruct (is_transcript (trim line)) eqn:T; [discriminate|].
    rewrite (onWorkerLine_skip line w0 T). apply IH. exact E.
  - intros N. rewrite F, I.
    destruct (filter is_transcript (map trim (split_lines d)));
      [contradiction|].
    split; [reflexivity|]. destruct (indicatorWindow w); discriminate.
  - apply Forall_forall. intros t Ht. apply filter_In in Ht.
    destruct Ht as [Hin Hc]. apply in_map_iff in Hin.
    destruct Hin as (line & <- & _). unfold is_transcript in Hc.
    apply andb_prop in Hc. destruct Hc as [H1 H2].
    split; [|split].
    + intros E. rewrite E in H2. discriminate.
    + intros E. rewrite E in H1. discriminate.
    + apply trim_clean.
Qed.

Lemma onWorkerStdout_pastes_each_transcript_witness :
  isPaused demo_world = false
  /\ clipboard (onWorkerStdout demo_chunk demo_world) = hi.
Proof.
  split; [reflexivity|].
  destruct (onWorkerStdout_pastes_each_transcript demo_chunk demo_world
              eq_refl) as [C _].
  rewrite C. vm_compute. reflexivity.
Defined.

(** X9: while dictation is paused the text of the worker is discarded.  A
    chunk leaves the world as it is, clipboard, focus, indicator and
    outputs included, except that a line that would have been pasted
    clears the latency stamp. *)
Theorem onWorkerStdout_paused_discards : forall d w,
  isPaused w = true ->
  onWorkerStdout d w =
  match transcripts d with
  | [] => w
  | _ => stamp_cleared w
  end.
Proof.
  intros d w P. apply fold_lines_paused. exact P.
Qed.

Lemma onWorkerStdout_paused_discards_witness :
  isPaused paused_world = true
  /\ onWorkerStdout demo_chunk paused_world = paused_world.
Proof.
  split; [reflexivity|].
  rewrite (onWorkerStdout_paused_discards demo_chunk paused_world eq_refl).
  vm_compute. reflexivity.
Defined.

(* ================================================================== *)
(** * The staged hide of the indicator *)
(* ================================================================== *)

Lemma fresh_ids_weaken : forall ts n m,
  Forall (fun t : Timer => (tid t < n)%nat) ts -> (n <= m)%nat ->
  Forall (fun t : Timer => (tid t < m)%nat) ts.
Proof.
  intros ts n m F L. eapply Forall_impl; [|exact F].
  cbn. intros t H. lia.
Qed.

(** X11: the staged hide of a visible indicator.  [hideIndicator()] sends
    the stopping cue at once and leaves the window visible.  The fade-out
    is sent by a timer that cannot run before 150 ms have passed, and the
    window is hidden by a second timer that cannot run before another
    120 ms: the two turns are refused before these delays, and after them
    they leave the window hidden, the cue and the fade-out sent, the timer
    queue as it was before, and the recording state untouched. *)
Theorem hideIndicator_staged : forall w d1 d2,
  fresh_ids w -> indicatorWindow w = Some true -> 0 <= d1 -> 0 <= d2 ->
  (150 <= d1 -> 120 <= d2 ->
     exists w',
       run (staged_hide w d1 d2) (hideIndicator false w) = Some w'
       /\ indicatorWindow w' = Some false
       /\ out w' = out w ++ [IndicatorSend SetStopping; IndicatorSend FadeOut]
       /\ timers w' = timers w
       /\ now w' = now w + d1 + d2
       /\ st w' = st w)
  /\ (d1 < 150 \/ d2 < 120 ->
      run (staged_hide w d1 d2) (hideIndicator false w) = None)
  /\ indicatorWindow (hideIndicator false w) = Some true
  /\ out (hideIndicator false w) = out w ++ [IndicatorSend SetStopping].
Proof.
  intros w d1 d2 F V D1 D2. unfold fresh_ids in F.
  unfold staged_hide, hideIndicator.
  rewrite V.
  destruct w as [cs pb rst rw cd wd st0 iw frs ip ap lrt nw tm nt ch np pp
                 w32 cl af ot hs].
  unfold setTimeout. world_simpl. subst iw.
  assert (F1 : find (fun u => Nat.eqb (tid u) nt)
                 (tm ++ [mkTimer nt (nw + 150) CbFade])
               = Some (mkTimer nt (nw + 150) CbFade))
    by (apply find_fresh; [exact F|reflexivity]).
  assert (G1 : filter (fun u => negb (Nat.eqb (tid u) nt))
                 (tm ++ [mkTimer nt (nw + 150) CbFade]) = tm)
    by (apply filter_fresh; [exact F|reflexivity]).
  assert (F2 : forall d, find (fun u => Nat.eqb (tid u) (S nt))
                 (tm ++ [mkTimer (S nt) d CbHide])
               = Some (mkTimer (S nt) d CbHide)).
  { intros d. apply find_fresh; [|reflexivity].
    apply (fresh_ids_weaken tm nt); [exact F|lia]. }
  assert (G2 : forall d, filter (fun u => negb (Nat.eqb (tid u) (S nt)))
                 (tm ++ [mkTimer (S nt) d CbHide]) = tm).
  { intros d. apply filter_fresh; [|reflexivity].
    apply (fresh_ids_weaken tm nt); [exact F|lia]. }
  cbn [run step].
  destruct (Z.leb_spec 0 d1) as [_|]; [|lia].
  destruct (Z.leb_spec 0 d2) as [_|]; [|lia].
  unfold findTimer, clearTimeout. world_simpl. rewrite F1, G1.
  cbn [due cb]. 
  split; [|split; [|split; reflexivity]].
  - intros L1 L2.
    destruct (Z.leb_spec (nw + 150) (nw + d1)) as [_|]; [|lia].
    cbn [runCallback]. unfold fadeStage, setTimeout. world_simpl.
    destruct (Z.leb_spec 0 d2) as [_|]; [|lia].
    world_simpl. rewrite F2, G2. cbn [due cb].
    destruct (Z.leb_spec (nw + d1 + 120) (nw + d1 + d2)) as [_|]; [|lia].
    cbn [runCallback]. unfold hideStage. world_simpl.
    eexists. split; [reflexivity|]. world_simpl.
    rewrite <- app_assoc. repeat split; reflexivity.
  - intros L.
    destruct (Z.leb_spec (nw + 150) (nw + d1)) as [L1|]; [|reflexivity].
    cbn [runCallback]. unfold fadeStage, setTimeout. world_simpl.
    destruct (Z.leb_spec 0 d2) as [_|]; [|lia].
    world_simpl. rewrite F2. cbn [due cb].
    destruct (Z.leb_spec (nw + d1 + 120) (nw + d1 + d2)) as [|]; [lia|].
    reflexivity.
Qed.

Lemma hideIndicator_staged_witness :
  indicatorWindow recording_world = Some true
  /\ run (staged_hide recording_world 149 120)
       (hideIndicator false recording_world) = None.
Proof.
  split; [reflexivity|].
  destruct (hideIndicator_staged recording_world 149 120) as (_ & B & _).
  - unfold fresh_ids. vm_compute. constructor.
  - reflexivity.
  - lia.
  - lia.
  - apply B. left. lia.
Defined.

(* ================================================================== *)
(** * What a turn of the loop sends out *)
(* ================================================================== *)

Lemma startRecording_out : forall w,
  out (startRecording w) = out w ++ start_outputs w.
Proof.
  intros w.
  destruct w as [cs pb rst rw cd wd st0 iw frs ip ap lrt nw tm nt
                 ch np pp w32 cl af ot hs].
  destruct iw as [[|]|], frs, rw, cs, ap as [[p [|] [|]]|];
    cbn; rewrite <- ?app_assoc, ?app_nil_r; reflexivity.
Qed.

Lemma onAudioData_out : forall data w,
  out (onAudioData data w) = out w ++ audio_outputs data w.
Proof.
  intros data w. unfold onAudioData, audio_outputs.
  destruct (State_eqb (currentState w) RECORDING);
    [|rewrite app_nil_r; reflexivity].
  destruct (float32ToInt16 data) as [pcm|];
    [|rewrite app_nil_r; reflexivity].
  unfold sendAudioToWorker.
  destruct (writable w) as [p|]; [|rewrite app_nil_r; reflexivity].
  destruct (writeUInt32LE (Z.of_nat (length pcm))) as [len|];
    [|rewrite app_nil_r; reflexivity].
  world_simpl. rewrite <- app_assoc. reflexivity.
Qed.

Lemma disarm_out_fields : forall w,
  out (disarm w) = out w
  /\ indicatorWindow (disarm w) = indicatorWindow w
  /\ firstRunShown (disarm w) = firstRunShown w
  /\ asrProcess (disarm w) = asrProcess w
  /\ recorderWindow (disarm w) = recorderWindow w.
Proof.
  intros w. unfold disarm, clearTimeout.
  destruct (stopTimer w); repeat split; reflexivity.
Qed.

Lemma start_outputs_same : forall w w',
  indicatorWindow w' = indicatorWindow w ->
  firstRunShown w' = firstRunShown w ->
  asrProcess w' = asrProcess w ->
  recorderWindow w' = recorderWindow w ->
  start_outputs w' = start_outputs w.
Proof.
  intros w w' A B C D. unfold start_outputs, show_outputs, writable.
  rewrite A, B, C, D. reflexivity.
Qed.

Lemma stop_outputs_same : forall w w',
  indicatorWindow w' = indicatorWindow w ->
  asrProcess w' = asrProcess w ->
  recorderWindow w' = recorderWindow w ->
  stop_outputs w' = stop_outputs w.
Proof.
  intros w w' A C D. unfold stop_outputs, writable.
  rewrite A, C, D. reflexivity.
Qed.

Lemma onKeyTick_out : forall kc kl kr w,
  out (onKeyTick kc kl kr w) = out w ++ outputs (Tick kc kl kr) w.
Proof.
  intros kc kl kr w. unfold onKeyTick. cbv zeta.
  rewrite checkInputState_cases. cbn [outputs]. unfold engaged.
  world_simpl.
  destruct (isPaused w); cbn [negb andb];
    [rewrite app_nil_r; reflexivity|].
  destruct (keyDown kc && (keyDown kl || keyDown kr)); cbn [andb].
  - match goal with |- context [disarm ?x] => set (x0 := x) end.
    destruct (disarm_out_fields x0) as (O & I & F & A & R).
    replace (currentState (disarm x0)) with (currentState w)
      by (unfold disarm, clearTimeout; destruct (stopTimer x0); reflexivity).
    destruct (State_eqb (currentState w) IDLE).
    + rewrite startRecording_out, O.
      rewrite (start_outputs_same w (disarm x0)); [reflexivity|..].
      * rewrite I. reflexivity.
      * rewrite F. reflexivity.
      * rewrite A. reflexivity.
      * rewrite R. reflexivity.
    + rewrite O, app_nil_r. reflexivity.
  - rewrite app_nil_r.
    destruct (State_eqb (currentState w) RECORDING && negb _); reflexivity.
Qed.

(** Every turn appends to what was sent, and what it appends is
    [outputs]. *)
Lemma step_out : forall e w w',
  step e w = Some w' -> out w' = out w ++ outputs e w.
Proof.
  intros e w w' Hs. destruct e; cbn [step] in Hs.
  - apply some_inj in Hs. subst w'. apply onKeyTick_out.
  - cbn [outputs]. destruct (findTimer id w) as [t|]; [|discriminate].
    destruct (due t <=? now w); [|discriminate].
    apply some_inj in Hs. subst w'.
    destruct (cb t); cbn [runCallback].
    + unfold stopTimerFired. rewrite <- stopRecording_set_stopTimer.
      rewrite stopRecording_out. reflexivity.
    + unfold startASRWorker, clearTimeout. world_simpl.
      destruct (pythonPath w); world_simpl;
        [reflexivity|rewrite app_nil_r; reflexivity].
    + unfold fadeStage, clearTimeout, setTimeout. world_simpl.
      destruct (indicatorWindow w) as [[|]|]; world_simpl;
        rewrite ?app_nil_r; reflexivity.
    + unfold hideStage, clearTimeout. world_simpl.
      destruct (indicatorWindow w); world_simpl;
        rewrite ?app_nil_r; reflexivity.
  - apply some_inj in Hs. subst w'. apply onAudioData_out.
  - apply some_inj in Hs. subst w'. cbn [outputs]. rewrite app_nil_r.
    unfold onCaptureError, resetToIdle.
    destruct (negb _); [|reflexivity].
    match goal with |- out (transition ?s ?x) = _ =>
      destruct (transition_frame s x) as (_ & _ & _ & _ & _ & _ & E & _);
      rewrite E; reflexivity
    end.
  - apply some_inj in Hs. subst w'. reflexivity.
  - apply some_inj in Hs. subst w'. cbn [outputs]. rewrite app_nil_r.
    reflexivity.
  - destruct (isChild p w); [|discriminate].
    apply some_inj in Hs. subst w'. cbn [outputs].
    destruct (isPaused w) eqn:P.
    + unfold onWorkerStdout.
      rewrite (fold_lines_paused (split_lines d) w P), app_nil_r.
      unfold stamp_cleared.
      destruct (filter is_transcript (map trim (split_lines d)));
        [reflexivity|].
      destruct (0 <? lastReleaseTime w); reflexivity.
    + apply (fold_lines_unpaused (split_lines d) w P).
  - destruct (isChild p w); [|discriminate].
    apply some_inj in Hs. subst w'. cbn [outputs]. rewrite app_nil_r.
    reflexivity.
  - destruct (isChild p w); [|discriminate].
    apply some_inj in Hs. subst w'. cbn [outputs]. rewrite app_nil_r.
    reflexivity.
  - destruct (0 <=? dt); [|discriminate].
    apply some_inj in Hs. subst w'. cbn [outputs]. rewrite app_nil_r.
    reflexivity.
Qed.

(* ================================================================== *)
(** * When the state moves *)
(* ================================================================== *)

Lemma step_st : forall e w w',
  step e w = Some w' ->
  currentState w' = last (path_of (currentState w) (requests e w))
                      (currentState w)
  /\ history w' = history w ++ path_of (currentState w) (requests e w).
Proof.
  intros e w w' Hs. pose proof (step_requests _ _ _ Hs) as E.
  rewrite transitions_st in E. unfold st in E. split; congruence.
Qed.

(** X12: the two turns that move the recording state.  A turn of the event
    loop either leaves the state and its history alone, or it is a key
    sample with the hotkey engaged, dictation not paused and the state
    Idle, which assigns Recording and sends what [startRecording] sends,
    or it is the firing of the timer [stopTimer] names, due, during a
    recording, which assigns Stopping, Finalizing and Idle and sends what
    [stopRecording] sends.  Audio, capture errors, the tray, focus changes
    and the events of the worker never move it. *)
Theorem state_moves_only_on_hotkey_or_stop_timer : forall e w w',
  wf w -> step e w = Some w' ->
  (currentState w' = currentState w /\ history w' = history w)
  \/ (exists kc kl kr,
        e = Tick kc kl kr /\ engaged kc kl kr = true
        /\ isPaused w = false
        /\ currentState w = IDLE /\ currentState w' = RECORDING
        /\ history w' = history w ++ [RECORDING]
        /\ out w' = out w ++ start_outputs w)
  \/ (exists id d,
        e = TimerFire id /\ stopTimer w = Some id
        /\ In (mkTimer id d CbStop) (timers w) /\ d <= now w
        /\ currentState w = RECORDING /\ currentState w' = IDLE
        /\ history w' = history w ++ [STOPPING; FINALIZING; IDLE]
        /\ out w' = out w ++ stop_outputs w).
Proof.
  intros e w w' H Hs.
  destruct (step_st _ _ _ Hs) as [Sc Sh].
  pose proof (step_out _ _ _ Hs) as So.
  destruct e; cbn [requests outputs] in Sc, Sh, So;
    try (left; rewrite Sc, Sh, app_nil_r; split; reflexivity).
  - destruct (isPaused w) eqn:P; cbn [negb andb] in *;
      [left; rewrite Sc, Sh, app_nil_r; split; reflexivity|].
    destruct (engaged kCtrl kLWin kRWin) eqn:G; cbn [andb] in *;
      [|left; rewrite Sc, Sh, app_nil_r; split; reflexivity].
    destruct (State_eqb (currentState w) IDLE) eqn:S;
      [|left; rewrite Sc, Sh, app_nil_r; split; reflexivity].
    apply State_eqb_eq in S. rewrite S in Sc, Sh. cbn in Sc, Sh.
    right. left. exists kCtrl, kLWin, kRWin. repeat split; assumption.
  - cbn [step] in Hs.
    destruct (findTimer id w) as [t|] eqn:Hf; [|discriminate].
    destruct (Z.leb_spec (due t) (now w)) as [Hd|]; [|discriminate].
    destruct (cb t) eqn:Hc;
      try (left; rewrite Sc, Sh, app_nil_r; split; reflexivity).
    destruct (step_TimerFire_stop w id t H Hf Hc Hd) as (_ & Hst & Hr).
    rewrite Hr in Sc, Sh. cbn in Sc, Sh.
    destruct (findTimer_some _ _ _ Hf) as [Hin Hid].
    right. right. exists id, (due t). repeat split; try assumption.
    destruct t as [i d c]. cbn in *. subst. exact Hin.
  - destruct H as [[I|R] _]; rewrite ?I, ?R in Sc, Sh; cbn in Sc, Sh;
      left; rewrite Sc, Sh, ?I, ?R, app_nil_r; split; reflexivity.
Qed.

Lemma state_moves_only_on_hotkey_or_stop_timer_witness :
  step held demo_world = Some recording_world
  /\ history recording_world = history demo_world ++ [RECORDING].
Proof.
  assert (S : step held demo_world = Some recording_world)
    by (vm_compute; reflexivity).
  split; [exact S|].
  destruct (state_moves_only_on_hotkey_or_stop_timer held demo_world
              recording_world wf_demo_world S)
    as [[C _]|[(kc & kl & kr & _ & _ & _ & _ & _ & Hh & _)
              |(id & d & E & _)]].
  - vm_compute in C. discriminate C.
  - exact Hh.
  - discriminate E.
Defined.

(* ================================================================== *)
(** * One dictation, from press to stop *)
(* ================================================================== *)

Lemma startRecording_frame : forall w,
  asrProcess (startRecording w) = asrProcess w
  /\ timers (startRecording w) = timers w
  /\ nextTimer (startRecording w) = nextTimer w
  /\ stopTimer (startRecording w) = stopTimer w
  /\ isPaused (startRecording w) = isPaused w
  /\ now (startRecording w) = now w
  /\ pcmBuffers (startRecording w) = []
  /\ recordingStartTime (startRecording w) = Some (now w)
  /\ indicatorWindow (startRecording w) =
       match indicatorWindow w with Some _ => Some true | None => None end.
Proof.
  intros w.
  destruct w as [cs pb rst rw cd wd st0 iw frs ip ap lrt nw tm nt
                 ch np pp w32 cl af ot hs].
  destruct iw as [[|]|], frs, rw, cs, ap as [[p [|] [|]]|];
    cbn; repeat split; reflexivity.
Qed.

Lemma wf_idle_unarmed : forall w,
  wf w -> currentState w = IDLE -> stopTimer w = None.
Proof.
  intros w (_ & A & _) I. destruct (stopTimer w) as [id|] eqn:E;
    [|reflexivity].
  destruct (A id eq_refl) as [R _]. congruence.
Qed.

(** The pressed sample that starts a recording. *)
Lemma step_press : forall w kc kl kr w1,
  wf w -> isPaused w = false -> currentState w = IDLE ->
  engaged kc kl kr = true ->
  step (Tick kc kl kr) w = Some w1 ->
  currentState w1 = RECORDING
  /\ history w1 = history w ++ [RECORDING]
  /\ out w1 = out w ++ start_outputs w
  /\ stopTimer w1 = None
  /\ isPaused w1 = false
  /\ asrProcess w1 = asrProcess w
  /\ timers w1 = timers w
  /\ nextTimer w1 = nextTimer w
  /\ now w1 = now w
  /\ pcmBuffers w1 = []
  /\ recordingStartTime w1 = Some (now w)
  /\ indicatorWindow w1 =
       match indicatorWindow w with Some _ => Some true | None => None end.
Proof.
  intros w kc kl kr w1 H P I G Hs.
  destruct (step_st _ _ _ Hs) as [Sc Sh].
  pose proof (step_out _ _ _ Hs) as So.
  cbn [requests outputs] in Sc, Sh, So.
  rewrite P, G, I in Sc, Sh, So. cbn in Sc, Sh, So.
  split; [exact Sc|]. split; [exact Sh|]. split; [exact So|].
  pose proof (wf_idle_unarmed w H I) as N.
  cbn [step] in Hs. apply some_inj in Hs. subst w1.
  unfold onKeyTick. cbv zeta. rewrite checkInputState_cases.
  unfold engaged in G. world_simpl. rewrite P, G, I. cbn [State_eqb].
  unfold disarm. world_simpl. rewrite N.
  match goal with |- context [startRecording ?x] =>
    destruct (startRecording_frame x)
      as (A1 & A2 & A3 & A4 & A5 & A6 & A7 & A8 & A9)
  end.
  rewrite A1, A2, A3, A4, A5, A6, A7, A8, A9. world_simpl.
  repeat split; assumption.
Qed.

Lemma set_out_same : forall w, set_out (out w) w = w.
Proof. intros w. destruct w; reflexivity. Qed.

Lemma onAudioData_set_out : forall data w,
  onAudioData data w = set_out (out w ++ audio_outputs data w) w.
Proof.
  intros data w. unfold onAudioData, audio_outputs.
  destruct (State_eqb (currentState w) RECORDING);
    [|rewrite app_nil_r, set_out_same; reflexivity].
  destruct (float32ToInt16 data) as [pcm|];
    [|rewrite app_nil_r, set_out_same; reflexivity].
  unfold sendAudioToWorker.
  destruct (writable w) as [p|];
    [|rewrite app_nil_r, set_out_same; reflexivity].
  destruct (writeUInt32LE (Z.of_nat (length pcm))) as [len|];
    [|rewrite app_nil_r, set_out_same; reflexivity].
  unfold emit, set_out. world_simpl. rewrite <- app_assoc. reflexivity.
Qed.

Lemma run_chunks : forall chunks w o,
  run (map AudioData chunks) (set_out o w) =
  Some (set_out (o ++ flat_map (fun c => audio_outputs c w) chunks) w).
Proof.
  induction chunks as [|c chunks IH]; intros w o; cbn [map run flat_map].
  - rewrite app_nil_r. reflexivity.
  - cbn [step]. rewrite onAudioData_set_out. world_simpl.
    replace (audio_outputs c (set_out o w)) with (audio_outputs c w)
      by reflexivity.
    rewrite IH, app_assoc. reflexivity.
Qed.

Lemma run_audio : forall chunks w,
  run (map AudioData chunks) w =
  Some (set_out (out w ++ flat_map (fun c => audio_outputs c w) chunks) w).
Proof.
  intros chunks w. rewrite <- (run_chunks chunks w (out w)).
  rewrite set_out_same. reflexivity.
Qed.

Lemma run_app : forall a b w,
  run (a ++ b) w =
  match run a w with
  | Some w1 => run b w1
  | None => None
  end.
Proof.
  induction a as [|e a IH]; intros b w; cbn [app run]; [reflexivity|].
  destruct (step e w); [apply IH|reflexivity].
Qed.

Lemma stdin_of_show_outputs : forall p w, stdin_of p (show_outputs w) = [].
Proof.
  intros p w. unfold show_outputs.
  destruct (indicatorWindow w); [|reflexivity].
  destruct (firstRunShown w); reflexivity.
Qed.

Lemma stdin_of_start_outputs : forall p w,
  writable w = Some p -> stdin_of p (start_outputs w) = [1].
Proof.
  intros p w W. unfold start_outputs.
  rewrite !stdin_of_app, stdin_of_show_outputs, W.
  cbn [stdin_of app]. rewrite Nat.eqb_refl.
  destruct (recorderWindow w); reflexivity.
Qed.

Lemma stdin_of_stop_outputs : forall p w,
  writable w = Some p -> stdin_of p (stop_outputs w) = [3].
Proof.
  intros p w W. unfold stop_outputs.
  rewrite !stdin_of_app, W.
  destruct (indicatorWindow w) as [[|]|], (recorderWindow w);
    cbn [stdin_of app]; rewrite Nat.eqb_refl; reflexivity.
Qed.

Lemma stdin_of_audio_outputs : forall p w chunks,
  currentState w = RECORDING -> writable w = Some p ->
  stdin_of p (flat_map (fun c => audio_outputs c w) chunks) =
  concat (map spec_frame_bytes (sent_frames chunks)).
Proof.
  intros p w chunks R W. unfold sent_frames.
  induction chunks as [|c chunks IH]; [reflexivity|].
  cbn [flat_map]. rewrite stdin_of_app, IH, map_app, concat_app.
  f_equal. unfold audio_outputs. rewrite R, W. cbn [State_eqb].
  destruct (float32ToInt16 c) as [pcm|]; [|reflexivity].
  destruct (Z.ltb_spec (Z.of_nat (length pcm)) (2 ^ 32)) as [L|G].
  - rewrite writeUInt32LE_spec by lia.
    cbn [stdin_of map concat spec_frame_bytes]. rewrite Nat.eqb_refl.
    rewrite !app_nil_r. reflexivity.
  - unfold writeUInt32LE.
    destruct (Z.ltb_spec (Z.of_nat (length pcm)) (2 ^ 32)); [lia|].
    rewrite andb_false_r. reflexivity.
Qed.

Lemma stopRecording_fields : forall w,
  pcmBuffers (stopRecording w) = []
  /\ recordingStartTime (stopRecording w) = None
  /\ lastReleaseTime (stopRecording w) = now w
  /\ asrProcess (stopRecording w) = asrProcess w.
Proof.
  intros w.
  destruct w as [cs pb rst rw cd wd st0 iw frs ip ap lrt nw tm nt
                 ch np pp w32 cl af ot hs].
  destruct iw as [[|]|], rw, cs, ap as [[p [|] [|]]|];
    cbn; repeat split; reflexivity.
Qed.

(** The released sample that arms the stop timer. *)
Lemma step_release : forall w kc kl kr,
  currentState w = RECORDING -> isPaused w = false -> stopTimer w = None ->
  engaged kc kl kr = false ->
  step (Tick kc kl kr) w =
  Some (arm (set_winDown (keyDown kl || keyDown kr)
               (set_ctrlDown (keyDown kc) w))).
Proof.
  intros w kc kl kr R P N G. cbn [step]. unfold onKeyTick. cbv zeta.
  rewrite checkInputState_cases. unfold armed, engaged in *. world_simpl.
  rewrite P, G, R, N. reflexivity.
Qed.

(** X13: one dictation from press to stop, with a live worker.  From Idle,
    not paused: a sample with the hotkey engaged, any chunks of audio, a
    sample with it released, and the stop timer once the smoothing window
    is over.  The run is possible; the worker receives on its standard
    input exactly a START frame, then one AUDIO frame for every chunk
    that converts, in the order of the chunks, then an END frame; the
    states assigned are Recording, Stopping, Finalizing and Idle; no stop
    timer is left; and the latency stamp is the time at which the timer
    ran. *)
Theorem dictation_frames_in_order :
  forall w p kc kl kr chunks kc' kl' kr' dt,
    wf w -> isPaused w = false -> currentState w = IDLE ->
    writable w = Some p ->
    engaged kc kl kr = true -> engaged kc' kl' kr' = false ->
    INPUT_SMOOTHING_MS <= dt ->
    exists w',
      run (dictation (Tick kc kl kr) chunks (Tick kc' kl' kr') dt
             (nextTimer w)) w = Some w'
      /\ currentState w' = IDLE
      /\ history w' = history w ++ [RECORDING; STOPPING; FINALIZING; IDLE]
      /\ stdin_of p (out w') =
           stdin_of p (out w)
           ++ concat (map spec_frame_bytes
                        (START :: sent_frames chunks ++ [END]))
      /\ stopTimer w' = None
      /\ lastReleaseTime w' = now w + dt.
Proof.
  intros w p kc kl kr chunks kc' kl' kr' dt H P I W G G' D.
  unfold dictation, INPUT_SMOOTHING_MS in *.
  (* the press *)
  remember (onKeyTick kc kl kr w) as w1 eqn:E1.
  assert (S1 : step (Tick kc kl kr) w = Some w1)
    by (rewrite E1; reflexivity).
  clear E1.
  destruct (step_press w kc kl kr _ H P I G S1)
    as (C1 & H1 & O1 & N1 & P1 & A1 & T1 & I1 & K1 & _).
  pose proof (wf_step _ _ _ H S1) as F1.
  cbn [run]. rewrite S1.
  (* the chunks *)
  rewrite run_app, run_audio.
  set (effs := flat_map (fun c => audio_outputs c w1) chunks).
  assert (F2 : wf (set_out (out w1 ++ effs) w1)).
  { apply (wf_run (map AudioData chunks) w1); [exact F1|].
    apply run_audio. }
  (* the release *)
  cbn [run].
  assert (S3 := step_release (set_out (out w1 ++ effs) w1) kc' kl' kr'
                  C1 P1 N1 G').
  rewrite S3.
  match goal with |- context [arm ?x] => set (w3 := arm x) in * end.
  assert (F3 : wf w3).
  { apply (wf_step (Tick kc' kl' kr') (set_out (out w1 ++ effs) w1));
      [exact F2|]. exact S3. }
  (* the window *)
  assert (S4 : step (Elapse dt) w3 = Some (set_now (now w3 + dt) w3)).
  { cbn [step]. destruct (Z.leb_spec 0 dt); [reflexivity|lia]. }
  rewrite S4.
  assert (F4 : wf (set_now (now w3 + dt) w3))
    by (apply (wf_step (Elapse dt) w3); [exact F3|exact S4]).
  (* the stop timer *)
  assert (Hf : findTimer (nextTimer w) (set_now (now w3 + dt) w3)
               = Some (mkTimer (nextTimer w) (now w + 30) CbStop)).
  { unfold findTimer, w3, arm, setTimeout, INPUT_SMOOTHING_MS. world_simpl.
    rewrite T1, I1, K1. apply find_fresh; [|reflexivity].
    destruct H as (_ & _ & _ & Fr & _). exact Fr. }
  destruct (step_TimerFire_stop _ _ _ F4 Hf eq_refl) as (S5 & _ & C4).
  { unfold w3, arm, setTimeout. world_simpl. cbn [due]. rewrite K1. lia. }
  rewrite S5.
  destruct (wf_stopRecording_disarm _ F4 C4) as (_ & C5 & H5 & N5).
  eexists. split; [reflexivity|].
  split; [exact C5|]. split.
  { rewrite H5. unfold w3, arm, setTimeout. world_simpl. rewrite H1.
    rewrite <- app_assoc. reflexivity. }
  split.
  { rewrite stopRecording_out.
    match goal with |- context [disarm ?x] =>
      destruct (disarm_out_fields x) as (Od & Id & _ & Ad & Rd);
      rewrite (stop_outputs_same x (disarm x) Id Ad Rd), Od
    end.
    rewrite stdin_of_app.
    rewrite (stdin_of_stop_outputs p)
      by (unfold writable, w3, arm, setTimeout in *; world_simpl;
          rewrite A1; exact W).
    unfold w3, arm, setTimeout. world_simpl.
    rewrite O1, !stdin_of_app, (stdin_of_start_outputs p w W).
    unfold effs.
    rewrite (stdin_of_audio_outputs p w1 chunks C1)
      by (unfold writable in *; rewrite A1; exact W).
    cbn [map concat spec_frame_bytes]. rewrite map_app, concat_app.
    cbn [map concat spec_frame_bytes app]. rewrite <- !app_assoc.
    reflexivity. }
  split; [exact N5|].
  destruct (stopRecording_fields
              (disarm (set_now (now w3 + dt) w3))) as (_ & _ & L & _).
  rewrite L.
  destruct (wf_disarm _ F4) as (_ & _ & _ & Nd & _). rewrite Nd.
  unfold w3, arm, setTimeout. world_simpl. rewrite K1. reflexivity.
Qed.

Lemma dictation_frames_in_order_witness :
  writable demo_world = Some 0%nat
  /\ exists w',
       run (dictation held [[JsNum.one]] released 30 (nextTimer demo_world))
         demo_world = Some w'
       /\ currentState w' = IDLE
       /\ stdin_of 0 (out w') =
            stdin_of 0 (out demo_world)
            ++ concat (map spec_frame_bytes
                         (START :: sent_frames [[JsNum.one]] ++ [END])).
Proof.
  split; [reflexivity|].
  destruct (dictation_frames_in_order demo_world 0%nat
              (-32768) (-32768) 0 [[JsNum.one]] 0 0 0 30)
    as (w' & R & C & _ & S & _).
  - exact wf_demo_world.
  - reflexivity.
  - reflexivity.
  - reflexivity.
  - vm_compute. reflexivity.
  - vm_compute. reflexivity.
  - vm_compute. discriminate.
  - exists w'. split; [exact R|]. split; [exact C|exact S].
Defined.

(* ================================================================== *)
(** * The deadline of a pending stop *)
(* ================================================================== *)

(** A released sample with a stop pending only records the keys. *)
Lemma onKeyTick_pending : forall w kc kl kr id,
  isPaused w = false -> stopTimer w = Some id -> engaged kc kl kr = false ->
  onKeyTick kc kl kr w =
  set_winDown (keyDown kl || keyDown kr) (set_ctrlDown (keyDown kc) w).
Proof.
  intros w kc kl kr id P N G. unfold onKeyTick. cbv zeta.
  rewrite checkInputState_cases. unfold armed, engaged in *. world_simpl.
  rewrite P, G, N. rewrite andb_false_r. reflexivity.
Qed.

Lemma run_releases : forall es w w' id,
  forallb is_release es = true ->
  isPaused w = false -> stopTimer w = Some id ->
  run es w = Some w' ->
  isPaused w' = false
  /\ stopTimer w' = Some id
  /\ timers w' = timers w
  /\ out w' = out w
  /\ currentState w' = currentState w
  /\ history w' = history w
  /\ indicatorWindow w' = indicatorWindow w
  /\ recorderWindow w' = recorderWindow w
  /\ asrProcess w' = asrProcess w
  /\ now w <= now w'.
Proof.
  induction es as [|e es IH]; intros w w' id F P N Hr; cbn [run] in Hr.
  - apply some_inj in Hr. subst w'. repeat split; try assumption. lia.
  - cbn [forallb] in F. apply andb_true_iff in F. destruct F as [Fe Fs].
    destruct e; try discriminate; cbn [step is_release] in *.
    + apply negb_true_iff in Fe.
      rewrite (onKeyTick_pending w _ _ _ id P N Fe) in Hr.
      apply (IH _ _ id Fs) in Hr; [|exact P|exact N]. exact Hr.
    + destruct (Z.leb_spec 0 dt) as [Hd|]; [|discriminate].
      apply (IH _ _ id Fs) in Hr; [|exact P|exact N]. world_simpl.
      destruct Hr as (A & B & C & D & E & G & I & J & K & L).
      repeat split; try assumption. lia.
Qed.

(** X14: the deadline of a stop is set by the first released sample and by
    nothing after it.  During a recording with no stop pending, the first
    sample with the hotkey released queues the stop one smoothing window
    ahead.  Further released samples, however many, and the passing of
    time leave the timer, its deadline, the state and the outputs as they
    are.  Before the deadline the timer cannot run; from the deadline on
    it runs, and the turn assigns Stopping, Finalizing and Idle, sends
    what [stopRecording] sends and clears [stopTimer]. *)
Theorem stop_deadline_set_by_first_release :
  forall w kc kl kr es w1,
    wf w -> isPaused w = false -> currentState w = RECORDING ->
    stopTimer w = None -> engaged kc kl kr = false ->
    forallb is_release es = true ->
    run (Tick kc kl kr :: es) w = Some w1 ->
    stopTimer w1 = Some (nextTimer w)
    /\ timers w1 =
         timers w
         ++ [mkTimer (nextTimer w) (now w + INPUT_SMOOTHING_MS) CbStop]
    /\ currentState w1 = RECORDING
    /\ history w1 = history w
    /\ out w1 = out w
    /\ (now w1 < now w + INPUT_SMOOTHING_MS ->
        step (TimerFire (nextTimer w)) w1 = None)
    /\ (now w + INPUT_SMOOTHING_MS <= now w1 ->
        exists w2,
          step (TimerFire (nextTimer w)) w1 = Some w2
          /\ currentState w2 = IDLE
          /\ history w2 = history w ++ [STOPPING; FINALIZING; IDLE]
          /\ out w2 = out w ++ stop_outputs w
          /\ stopTimer w2 = None
          /\ lastReleaseTime w2 = now w1).
Proof.
  intros w kc kl kr es w1 H P R N G F Hr.
  pose proof (wf_run _ _ _ H Hr) as H1.
  cbn [run] in Hr. rewrite (step_release w kc kl kr R P N G) in Hr.
  match type of Hr with run es ?x = _ => set (w0 := x) in * end.
  assert (P0 : isPaused w0 = false) by exact P.
  assert (N0 : stopTimer w0 = Some (nextTimer w)) by reflexivity.
  destruct (run_releases es w0 w1 _ F P0 N0 Hr)
    as (A & B & C & D & E & G1 & I & J & K & L).
  assert (T : timers w1 =
              timers w
              ++ [mkTimer (nextTimer w) (now w + INPUT_SMOOTHING_MS) CbStop])
    by (rewrite C; reflexivity).
  assert (Hf : findTimer (nextTimer w) w1
               = Some (mkTimer (nextTimer w) (now w + INPUT_SMOOTHING_MS)
                         CbStop)).
  { unfold findTimer. rewrite T. apply find_fresh; [|reflexivity].
    destruct H as (_ & _ & _ & Fr & _). exact Fr. }
  split; [exact B|]. split; [exact T|].
  split; [rewrite E; exact R|]. split; [exact G1|]. split; [exact D|].
  split.
  - intros Lt. cbn [step]. rewrite Hf. cbn [due].
    destruct (Z.leb_spec (now w + INPUT_SMOOTHING_MS) (now w1));
      [lia|reflexivity].
  - intros Le.
    destruct (step_TimerFire_stop w1 _ _ H1 Hf eq_refl Le) as (S & _ & C1).
    destruct (wf_stopRecording_disarm w1 H1 C1) as (_ & C2 & H2 & N2).
    exists (stopRecording (disarm w1)).
    split; [exact S|]. split; [exact C2|].
    split; [rewrite H2, G1; reflexivity|].
    split.
    { rewrite stopRecording_out.
      destruct (disarm_out_fields w1) as (Od & Id & _ & Ad & Rd).
      rewrite (stop_outputs_same w1 (disarm w1) Id Ad Rd), Od, D.
      f_equal. apply stop_outputs_same; assumption. }
    split; [exact N2|].
    destruct (stopRecording_fields (disarm w1)) as (_ & _ & Lr & _).
    rewrite Lr. destruct (wf_disarm w1 H1) as (_ & _ & _ & Nd & _).
    exact Nd.
Qed.

Lemma stop_deadline_set_by_first_release_witness :
  run [released] recording_world = Some released_world
  /\ stopTimer released_world = Some (nextTimer recording_world)
  /\ step (TimerFire (nextTimer recording_world)) released_world = None.
Proof.
  assert (R : run [released] recording_world = Some released_world)
    by (vm_compute; reflexivity).
  split; [exact R|].
  destruct (stop_deadline_set_by_first_release recording_world 0 0 0 []
              released_world)
    as (A & _ & _ & _ & _ & E & _).
  - exact wf_recording_world.
  - reflexivity.
  - reflexivity.
  - reflexivity.
  - vm_compute. reflexivity.
  - reflexivity.
  - exact R.
  - split; [exact A|]. apply E. vm_compute. reflexivity.
Defined.

(* ================================================================== *)
(** * A recording started while the indicator is fading *)
(* ================================================================== *)

Lemma wf_find : forall w t,
  wf w -> In t (timers w) -> findTimer (tid t) w = Some t.
Proof.
  intros w t (_ & _ & _ & _ & N & _) Hin. unfold findTimer.
  apply find_unique; assumption.
Qed.

Lemma step_Elapse : forall w dt,
  0 <= dt -> step (Elapse dt) w = Some (set_now (now w + dt) w).
Proof.
  intros w dt H. cbn [step]. destruct (Z.leb_spec 0 dt); [reflexivity|lia].
Qed.

(** X15: a recording started while the indicator of the previous one is
    still fading loses its indicator.  With the state Idle, the indicator
    visible and the fade timer of the last stop pending, the hotkey is
    pressed and the recording starts.  The pending timer does not look at
    the state when it runs: the fade-out is sent, and 120 ms later the
    window is hidden, while the state is still Recording. *)
Theorem pending_fade_hides_next_recording :
  forall w f d kc kl kr dt d2,
    wf w -> isPaused w = false -> currentState w = IDLE ->
    indicatorWindow w = Some true ->
    In (mkTimer f d CbFade) (timers w) ->
    engaged kc kl kr = true ->
    0 <= dt -> d <= now w + dt -> 120 <= d2 ->
    exists w',
      run (restart_during_fade (Tick kc kl kr) dt f d2 (nextTimer w)) w
      = Some w'
      /\ currentState w' = RECORDING
      /\ indicatorWindow w' = Some false
      /\ out w' = out w ++ start_outputs w ++ [IndicatorSend FadeOut].
Proof.
  intros w f d kc kl kr dt d2 H P I V Hin G D0 D1 D2.
  unfold restart_during_fade.
  (* the press *)
  remember (onKeyTick kc kl kr w) as w1 eqn:E1.
  assert (S1 : step (Tick kc kl kr) w = Some w1)
    by (rewrite E1; reflexivity).
  clear E1.
  destruct (step_press w kc kl kr _ H P I G S1)
    as (C1 & _ & O1 & _ & _ & _ & T1 & I1 & K1 & _ & _ & V1).
  rewrite V in V1.
  pose proof (wf_step _ _ _ H S1) as F1.
  cbn [run]. rewrite S1.
  (* the time until the fade *)
  rewrite (step_Elapse w1 dt D0).
  set (w2 := set_now (now w1 + dt) w1).
  assert (F2 : wf w2)
    by (apply (wf_step (Elapse dt) w1 w2 F1), step_Elapse, D0).
  (* the fade *)
  assert (Hf : findTimer f w2 = Some (mkTimer f d CbFade)).
  { apply (wf_find w2 (mkTimer f d CbFade) F2).
    unfold w2. world_simpl. rewrite T1. exact Hin. }
  assert (S3 : step (TimerFire f) w2
               = Some (fadeStage (clearTimeout f w2))).
  { cbn [step]. rewrite Hf. cbn [due cb].
    destruct (Z.leb_spec d (now w2)) as [_|L]; [reflexivity|].
    unfold w2 in L. world_simpl. lia. }
  rewrite S3.
  set (w3 := fadeStage (clearTimeout f w2)) in *.
  pose proof (wf_step _ _ _ F2 S3) as F3.
  assert (E3 : w3 = snd (setTimeout CbHide 120
                            (emit (IndicatorSend FadeOut)
                               (clearTimeout f w2)))).
  { unfold w3, fadeStage, clearTimeout, w2. world_simpl. rewrite V1.
    reflexivity. }
  (* its 120 ms *)
  rewrite (step_Elapse w3 d2) by lia.
  set (w4 := set_now (now w3 + d2) w3).
  assert (F4 : wf w4)
    by (apply (wf_step (Elapse d2) w3 w4 F3), step_Elapse; lia).
  (* the hide *)
  assert (Hh : findTimer (nextTimer w) w4
               = Some (mkTimer (nextTimer w) (now w2 + 120) CbHide)).
  { apply (wf_find w4 (mkTimer (nextTimer w) (now w2 + 120) CbHide) F4).
    unfold w4. world_simpl. rewrite E3.
    unfold setTimeout, clearTimeout, w2. world_simpl. rewrite I1.
    apply in_or_app. right. left. reflexivity. }
  assert (S5 : step (TimerFire (nextTimer w)) w4
               = Some (hideStage (clearTimeout (nextTimer w) w4))).
  { cbn [step]. rewrite Hh. cbn [due cb].
    destruct (Z.leb_spec (now w2 + 120) (now w4)) as [_|L]; [reflexivity|].
    unfold w4 in L. rewrite E3 in L.
    unfold setTimeout, clearTimeout in L. world_simpl. lia. }
  rewrite S5. eexists. split; [reflexivity|].
  unfold hideStage, clearTimeout, w4. world_simpl. rewrite E3.
  unfold setTimeout, clearTimeout, w2. world_simpl. rewrite V1.
  world_simpl. rewrite C1, O1, <- app_assoc. repeat split; reflexivity.
Qed.

Lemma wf_fading_world : wf fading_world.
Proof.
  apply (wf_run [held; released; Elapse 30; TimerFire 0] demo_world);
    [apply wf_demo_world|].
  vm_compute. reflexivity.
Qed.

Lemma pending_fade_hides_next_recording_witness :
  In (mkTimer 1 1180 CbFade) (timers fading_world)
  /\ exists w',
       run (restart_during_fade held 150 1 120 (nextTimer fading_world))
         fading_world = Some w'
       /\ currentState w' = RECORDING
       /\ indicatorWindow w' = Some false.
Proof.
  assert (Hin : In (mkTimer 1 1180 CbFade) (timers fading_world))
    by (left; reflexivity).
  split; [exact Hin|].
  destruct (pending_fade_hides_next_recording fading_world 1 1180
              (-32768) (-32768) 0 150 120)
    as (w' & R & C & V & _).
  - exact wf_fading_world.
  - reflexivity.
  - reflexivity.
  - reflexivity.
  - exact Hin.
  - vm_compute. reflexivity.
  - lia.
  - vm_compute. discriminate.
  - lia.
  - exists w'. split; [exact R|]. split; [exact C|exact V].
Defined.

(* ================================================================== *)
(** * A worker lost in the middle of a recording *)
(* ================================================================== *)

Lemma audio_outputs_no_worker : forall chunks w,
  writable w = None ->
  flat_map (fun c => audio_outputs c w) chunks = [].
Proof.
  intros chunks w W. induction chunks as [|c chunks IH]; [reflexivity|].
  cbn [flat_map]. rewrite IH, app_nil_r. unfold audio_outputs. rewrite W.
  destruct (State_eqb _ _); [|reflexivity].
  destruct (float32ToInt16 c); reflexivity.
Qed.

(** X16: a worker lost in the middle of a recording.  The worker exits while
    the state is Recording; the chunks that arrive until the respawn are
    dropped without any output; after the respawn delay the timer spawns
    a new worker; the state is Recording at the end as it was before.  The
    next chunk is written to the new worker as an AUDIO frame: after the
    exit nothing is sent but the spawn and this frame, so no START frame
    goes before it. *)
Theorem respawned_worker_gets_audio_without_start :
  forall w p code lost dt data pcm,
    wf w -> currentState w = RECORDING -> pythonPath w = true ->
    isChild p w = true ->
    float32ToInt16 data = Some pcm -> Z.of_nat (length pcm) < 2 ^ 32 ->
    RESPAWN_DELAY_MS <= dt ->
    exists w',
      run (outage p code lost dt (nextTimer w) data) w = Some w'
      /\ currentState w' = RECORDING
      /\ history w' = history w
      /\ out w' =
           out w
           ++ [ Spawn (nextPid w);
                WorkerWrite (nextPid w)
                  (2 :: spec_le32 (Z.of_nat (length pcm)));
                WorkerWrite (nextPid w) pcm ].
Proof.
  intros w p code lost dt data pcm H R Py Hc Cv Ln D.
  unfold outage, RESPAWN_DELAY_MS in *.
  (* the exit *)
  assert (S1 : step (WorkerClose p code) w =
               Some (onWorkerClose
                       (set_children
                          (filter (fun q => negb (Nat.eqb q p)) (children w))
                          w)))
    by (cbn [step]; rewrite Hc; reflexivity).
  cbn [run]. rewrite S1.
  match goal with |- context [onWorkerClose ?x] =>
    set (w1 := onWorkerClose x) in *
  end.
  pose proof (wf_step _ _ _ H S1) as F1.
  (* the chunks that are lost *)
  rewrite run_app, run_audio.
  rewrite (audio_outputs_no_worker lost w1 eq_refl), app_nil_r, set_out_same.
  (* the two seconds *)
  cbn [run]. rewrite (step_Elapse w1 dt) by lia.
  set (w2 := set_now (now w1 + dt) w1).
  assert (F2 : wf w2)
    by (apply (wf_step (Elapse dt) w1 w2 F1), step_Elapse; lia).
  (* the respawn *)
  assert (Hf : findTimer (nextTimer w) w2
               = Some (mkTimer (nextTimer w) (now w + 2000) CbRespawn)).
  { apply (wf_find w2 (mkTimer (nextTimer w) (now w + 2000) CbRespawn) F2).
    unfold w2, w1, onWorkerClose, setTimeout. world_simpl.
    apply in_or_app. right. left. reflexivity. }
  assert (S3 : step (TimerFire (nextTimer w)) w2
               = Some (startASRWorker (clearTimeout (nextTimer w) w2))).
  { cbn [step]. rewrite Hf. cbn [due cb].
    destruct (Z.leb_spec (now w + 2000) (now w2)) as [_|L]; [reflexivity|].
    unfold w2, w1, onWorkerClose, setTimeout in L. world_simpl. lia. }
  rewrite S3.
  set (w3 := startASRWorker (clearTimeout (nextTimer w) w2)).
  (* the next chunk *)
  cbn [step]. eexists. split; [reflexivity|].
  assert (C3 : currentState w3 = RECORDING).
  { unfold w3, startASRWorker, clearTimeout, w2, w1, onWorkerClose,
      setTimeout. world_simpl. rewrite Py. exact R. }
  assert (W3 : writable w3 = Some (nextPid w)).
  { unfold writable, w3, startASRWorker, clearTimeout, w2, w1,
      onWorkerClose, setTimeout. world_simpl. rewrite Py. reflexivity. }
  assert (O3 : out w3 = out w ++ [Spawn (nextPid w)]).
  { unfold w3, startASRWorker, clearTimeout, w2, w1, onWorkerClose,
      setTimeout. world_simpl. rewrite Py. reflexivity. }
  assert (H3 : history w3 = history w).
  { unfold w3, startASRWorker, clearTimeout, w2, w1, onWorkerClose,
      setTimeout. world_simpl. rewrite Py. reflexivity. }
  clearbody w3. rewrite onAudioData_set_out. world_simpl.
  split; [exact C3|]. split; [exact H3|].
  unfold audio_outputs. rewrite C3, Cv, W3. cbn [State_eqb].
  rewrite writeUInt32LE_spec by lia. rewrite O3, <- app_assoc.
  reflexivity.
Qed.

Lemma respawned_worker_gets_audio_without_start_witness :
  isChild 0 recording_world = true
  /\ exists w',
       run (outage 0 1 [[JsNum.one]] 2000 (nextTimer recording_world)
              [JsNum.one]) recording_world = Some w'
       /\ currentState w' = RECORDING.
Proof.
  split; [reflexivity|].
  destruct (respawned_worker_gets_audio_without_start recording_world
              0%nat 1 [[JsNum.one]] 2000 [JsNum.one] [255; 127])
    as (w' & R & C & _).
  - exact wf_recording_world.
  - reflexivity.
  - reflexivity.
  - reflexivity.
  - vm_compute. reflexivity.
  - reflexivity.
  - vm_compute. discriminate.
  - exists w'. split; [exact R|exact C].
Defined.

(* ================================================================== *)
(** * The capture signals of the recorder window *)
(* ================================================================== *)

Lemma recorder_msgs_app : forall a b,
  recorder_msgs (a ++ b) = recorder_msgs a ++ recorder_msgs b.
Proof. intros. apply flat_map_app. Qed.

Lemma recorder_msgs_paste : forall ts f v,
  recorder_msgs (paste_outputs f v ts) = [].
Proof.
  induction ts as [|t ts IH]; intros f v; [reflexivity|].
  cbn [paste_outputs]. rewrite !recorder_msgs_app, IH.
  destruct f, v; reflexivity.
Qed.

Lemma recorder_msgs_audio : forall data w,
  recorder_msgs (audio_outputs data w) = [].
Proof.
  intros data w. unfold audio_outputs.
  destruct (State_eqb _ _); [|reflexivity].
  destruct (float32ToInt16 data); [|reflexivity].
  destruct (writable w); [|reflexivity].
  destruct (writeUInt32LE _); reflexivity.
Qed.

Lemma recorder_msgs_start : forall w,
  recorderWindow w = true -> recorder_msgs (start_outputs w) = [StartCapture].
Proof.
  intros w R. unfold start_outputs, show_outputs. rewrite R.
  destruct (indicatorWindow w), (firstRunShown w), (writable w); reflexivity.
Qed.

Lemma recorder_msgs_stop : forall w,
  recorderWindow w = true -> recorder_msgs (stop_outputs w) = [StopCapture].
Proof.
  intros w R. unfold stop_outputs. rewrite R.
  destruct (indicatorWindow w) as [[|]|], (writable w); reflexivity.
Qed.

(** The capture messages of a turn go with the states it assigns. *)
Lemma step_capture : forall e w w',
  wf w -> step e w = Some w' ->
  recorder_msgs (outputs e w) =
  flat_map capture_of (path_of (currentState w) (requests e w)).
Proof.
  intros e w w' H Hs.
  assert (R : recorderWindow w = true) by apply H.
  destruct e; cbn [requests outputs]; try reflexivity.
  - destruct (negb (isPaused w) && engaged kCtrl kLWin kRWin); cbn [andb];
      [|reflexivity].
    destruct (State_eqb (currentState w) IDLE) eqn:S; [|reflexivity].
    apply State_eqb_eq in S. rewrite S. apply recorder_msgs_start, R.
  - cbn [step] in Hs.
    destruct (findTimer id w) as [t|] eqn:Hf; [|discriminate].
    destruct (Z.leb_spec (due t) (now w)) as [Hd|]; [|discriminate].
    destruct (cb t) eqn:Hc.
    + destruct (step_TimerFire_stop w id t H Hf Hc Hd) as (_ & _ & Hr).
      rewrite Hr. apply recorder_msgs_stop, R.
    + destruct (pythonPath w); reflexivity.
    + destruct (indicatorWindow w) as [[|]|]; reflexivity.
    + reflexivity.
  - apply recorder_msgs_audio.
  - destruct H as [[I|Rc] _]; rewrite ?I, ?Rc; reflexivity.
  - destruct (isPaused w); [reflexivity|apply recorder_msgs_paste].
Qed.

Lemma run_capture : forall es w w',
  wf w -> run es w = Some w' ->
  recorder_msgs (out w) = flat_map capture_of (history w) ->
  recorder_msgs (out w') = flat_map capture_of (history w').
Proof.
  induction es as [|e es IH]; intros w w' H Hr Hi; cbn [run] in Hr.
  - apply some_inj in Hr. subst w'. exact Hi.
  - destruct (step e w) as [w1|] eqn:S; [|discriminate].
    apply (IH w1 w'); [eapply wf_step; eassumption|exact Hr|].
    rewrite (step_out _ _ _ S), recorder_msgs_app, Hi.
    destruct (step_st _ _ _ S) as [_ Sh]. rewrite Sh, flat_map_app.
    f_equal. apply (step_capture e w w1 H S).
Qed.

Lemma capture_cycle : forall path s,
  cycle_path s path ->
  exists n,
    capture_since_idle s ++ flat_map capture_of path
    = capture_pairs n ++ capture_since_idle (last path s).
Proof.
  induction path as [|t path IH]; intros s C.
  - exists 0%nat. cbn [flat_map last capture_pairs repeat concat app].
    apply app_nil_r.
  - cbn [cycle_path] in C. destruct C as [E C].
    destruct (IH t C) as [n En]. rewrite last_cons_default.
    cbn [flat_map]. subst t.
    destruct s; cbn [successor capture_since_idle capture_of app] in *.
    + exists n. exact En.
    + exists n. exact En.
    + exists n. exact En.
    + exists (S n). rewrite En. reflexivity.
Qed.

(** X17: the capture signals follow the assignments of the state.  In every
    world the application can reach, the messages sent to the recorder
    window are, in order, a start-capture for every assignment of
    Recording and a stop-capture for every assignment of Stopping, and
    nothing else.  So they are pairs of a start-capture and a
    stop-capture, followed by one more start-capture exactly when the
    state is Recording.  This is about the messages the main process
    sends, not about what the recorder does with them: a capture error,
    which the recorder reports and which leaves the state Recording, sends
    it nothing. *)
Theorem capture_signals_follow_state : forall w,
  reachable w ->
  recorder_msgs (out w) = flat_map capture_of (history w)
  /\ (exists n,
        recorder_msgs (out w) =
        capture_pairs n
        ++ (if State_eqb (currentState w) RECORDING
            then [StartCapture] else []))
  /\ (forall w',
        step CaptureError w = Some w' ->
        recorder_msgs (out w') = recorder_msgs (out w)
        /\ currentState w' = currentState w).
Proof.
  intros w (t0 & paused & firstRun & python & onWindows & es & Hr).
  set (b := boot t0 paused firstRun python onWindows) in *.
  assert (Hb : recorder_msgs (out b) = flat_map capture_of (history b)).
  { unfold b, boot, startASRWorker. world_simpl.
    destruct python; reflexivity. }
  pose proof (wf_run es b w (wf_boot _ _ _ _ _) Hr) as Hw.
  pose proof (run_capture es b w (wf_boot _ _ _ _ _) Hr Hb) as Hc.
  split; [exact Hc|]. split.
  - destruct (run_cycle es b w Hr) as (path & Hh & Cp & Cl).
    assert (Hi : currentState b = IDLE /\ history b = []).
    { unfold b, boot, startASRWorker. world_simpl.
      destruct python; split; reflexivity. }
    destruct Hi as [Ci Hn]. rewrite Ci in Cp, Cl. rewrite Hn in Hh.
    cbn [app] in Hh.
    destruct (capture_cycle path IDLE Cp) as [n En].
    cbn [capture_since_idle app] in En.
    exists n. rewrite Hc, Hh, En, <- Cl.
    destruct Hw as ([I|R] & _); rewrite ?I, ?R; reflexivity.
  - intros w' S.
    pose proof (step_out _ _ _ S) as O. cbn [outputs] in O.
    rewrite app_nil_r in O. rewrite O. split; [reflexivity|].
    destruct (step_st _ _ _ S) as [Sc _]. cbn [requests] in Sc.
    destruct Hw as ([I|R] & _); rewrite ?I, ?R in Sc; rewrite Sc, ?I, ?R;
      reflexivity.
Qed.

Lemma capture_signals_follow_state_witness :
  reachable recording_world
  /\ recorder_msgs (out recording_world) = [StartCapture].
Proof.
  assert (R : reachable recording_world).
  { exists 1000, false, true, true, true, [held]. vm_compute. reflexivity. }
  split; [exact R|].
  destruct (capture_signals_follow_state recording_world R) as [C _].
  exact C.
Defined.

(* ================================================================== *)
(** * One worker at a time *)
(* ================================================================== *)

(** The handlers that leave the timers or only add others than respawns. *)
Ltac quiet_same :=
  split;
  [ reflexivity
  | split;
    [ unfold respawns; world_simpl; rewrite ?filter_app, ?length_app;
      cbn; rewrite ?filter_app, ?length_app; cbn; lia
    | let F := fresh "F" in
      intros F; first [exact F | reflexivity | (cbn in F; discriminate F)] ] ].

Lemma quiet_refl : forall w, quiet w w.
Proof. intros w. quiet_same. Qed.

Lemma quiet_trans : forall a b c, quiet a b -> quiet b c -> quiet a c.
Proof.
  intros a b c (A1 & A2 & A3) (B1 & B2 & B3).
  split; [congruence|]. split; [lia|auto].
Qed.

Lemma filter_filter_length : forall (f g : Timer -> bool) ts,
  (length (filter f (filter g ts)) <= length (filter f ts))%nat.
Proof.
  induction ts as [|t ts IH]; [cbn; lia|].
  cbn [filter]. destruct (g t); cbn [filter]; destruct (f t);
    cbn [length]; lia.
Qed.

Lemma quiet_set_stopTimer : forall v w, quiet w (set_stopTimer v w).
Proof. intros v w. quiet_same. Qed.

Lemma quiet_clearTimeout : forall id w, quiet w (clearTimeout id w).
Proof.
  intros id w. split; [reflexivity|]. split; [|intros F; exact F].
  unfold respawns, clearTimeout. world_simpl. apply filter_filter_length.
Qed.

Lemma quiet_disarm : forall w, quiet w (disarm w).
Proof.
  intros w. unfold disarm. destruct (stopTimer w) as [id|];
    [|apply quiet_refl].
  apply (quiet_trans _ (clearTimeout id w)); [apply quiet_clearTimeout|].
  quiet_same.
Qed.

Lemma quiet_arm : forall w, quiet w (arm w).
Proof.
  intros w. unfold arm, setTimeout. quiet_same.
Qed.

Lemma quiet_startRecording : forall w, quiet w (startRecording w).
Proof.
  intros w.
  destruct w as [cs pb rst rw cd wd st0 iw frs ip ap lrt nw tm nt
                 ch np pp w32 cl af ot hs].
  destruct iw as [[|]|], frs, rw, cs, ap as [[p [|] [|]]|];
    quiet_same.
Qed.

Lemma quiet_stopRecording : forall w, quiet w (stopRecording w).
Proof.
  intros w.
  destruct w as [cs pb rst rw cd wd st0 iw frs ip ap lrt nw tm nt
                 ch np pp w32 cl af ot hs].
  destruct iw as [[|]|], rw, cs, ap as [[p [|] [|]]|];
    quiet_same.
Qed.

Lemma quiet_checkInputState : forall w, quiet w (checkInputState w).
Proof.
  intros w. rewrite checkInputState_cases.
  destruct (isPaused w); [apply quiet_refl|].
  destruct (ctrlDown w && winDown w).
  - destruct (State_eqb (currentState w) IDLE); [|apply quiet_disarm].
    eapply quiet_trans; [apply quiet_disarm|apply quiet_startRecording].
  - destruct (State_eqb (currentState w) RECORDING && negb (armed w));
      [apply quiet_arm|apply quiet_refl].
Qed.

Lemma quiet_transition : forall t w, quiet w (transition t w).
Proof.
  intros t w. rewrite transition_cases.
  destruct (State_eqb t (successor (currentState w)));
    [quiet_same|apply quiet_refl].
Qed.

Lemma quiet_onWorkerLine : forall line w, quiet w (onWorkerLine line w).
Proof.
  intros line w. unfold onWorkerLine. cbv zeta.
  destruct (jsstring_eqb _ _); [apply quiet_refl|].
  destruct (falsy (trim line)); [apply quiet_refl|].
  unfold injectText, hideIndicator.
  destruct w as [cs pb rst rw cd wd st0 iw frs ip ap lrt nw tm nt
                 ch np pp w32 cl af ot hs].
  world_simpl.
  destruct (0 <? lrt); world_simpl; destruct ip; try apply quiet_refl;
    try solve [quiet_same];
    destruct (falsy (trim line) || falsy (trim (trim line)));
    try solve [quiet_same];
    destruct iw as [[|]|], af, w32; quiet_same.
Qed.

Lemma quiet_onWorkerStdout : forall d w, quiet w (onWorkerStdout d w).
Proof.
  intros d w. unfold onWorkerStdout. generalize (split_lines d).
  intros ls. revert w. induction ls as [|l ls IH]; intros w;
    [apply quiet_refl|].
  cbn [fold_left]. eapply quiet_trans; [apply quiet_onWorkerLine|apply IH].
Qed.

(** The turns that do not touch the worker. *)
Lemma step_quiet : forall e w w',
  step e w = Some w' ->
  match e with
  | WorkerError _ | WorkerClose _ _ => True
  | TimerFire id =>
      match findTimer id w with
      | Some t => if is_respawn t then True else quiet w w'
      | None => True
      end
  | _ => quiet w w'
  end.
Proof.
  intros e w w' Hs. destruct e; cbn [step] in Hs; try exact I.
  - apply some_inj in Hs. subst w'. unfold onKeyTick. cbv zeta.
    match goal with |- quiet _ (checkInputState ?x) =>
      apply (quiet_trans _ x); [quiet_same|apply quiet_checkInputState]
    end.
  - destruct (findTimer id w) as [t|]; [|exact I].
    destruct (due t <=? now w); [|discriminate].
    apply some_inj in Hs. subst w'. unfold is_respawn.
    destruct (cb t); cbn [runCallback]; try exact I.
    + unfold stopTimerFired.
      apply (quiet_trans _ (clearTimeout id w)); [apply quiet_clearTimeout|].
      apply (quiet_trans _ (stopRecording (clearTimeout id w)));
        [apply quiet_stopRecording|apply quiet_set_stopTimer].
    + apply (quiet_trans _ (clearTimeout id w)); [apply quiet_clearTimeout|].
      unfold fadeStage, setTimeout.
      destruct (indicatorWindow (clearTimeout id w)) as [[|]|];
        try apply quiet_refl.
      quiet_same.
    + apply (quiet_trans _ (clearTimeout id w)); [apply quiet_clearTimeout|].
      unfold hideStage.
      destruct (indicatorWindow (clearTimeout id w)); try apply quiet_refl.
      quiet_same.
  - apply some_inj in Hs. subst w'. rewrite onAudioData_set_out.
    quiet_same.
  - apply some_inj in Hs. subst w'. unfold onCaptureError, resetToIdle.
    destruct (negb _); [|apply quiet_refl].
    match goal with |- quiet _ (transition _ ?x) =>
      apply (quiet_trans _ x); [quiet_same|apply quiet_transition]
    end.
  - apply some_inj in Hs. subst w'. unfold onTogglePause. quiet_same.
  - apply some_inj in Hs. subst w'. quiet_same.
  - destruct (isChild p w); [|discriminate].
    apply some_inj in Hs. subst w'. apply quiet_onWorkerStdout.
  - destruct (0 <=? dt); [|discriminate].
    apply some_inj in Hs. subst w'. quiet_same.
Qed.







Lemma paste_outputs_no_write : forall ts f v p b,
  ~ In (WorkerWrite p b) (paste_outputs f v ts).
Proof.
  induction ts as [|t ts IH]; intros f v p b; [intros []|].
  cbn [paste_outputs]. rewrite !in_app_iff. intros [H|[H|H]].
  - destruct f; [destruct H as [H|[]]; discriminate|destruct H].
  - destruct v; [destruct H as [H|[]]; discriminate|destruct H].
  - apply (IH _ _ _ _ H).
Qed.

(** Whatever a turn writes to a process goes to the one the guard of the
    send functions lets through. *)
Lemma outputs_writes : forall e w p b,
  In (WorkerWrite p b) (outputs e w) -> writable w = Some p.
Proof.
  intros e w p b H. destruct e; cbn [outputs] in H; try solve [destruct H].
  - destruct (negb (isPaused w) && engaged kCtrl kLWin kRWin
              && State_eqb (currentState w) IDLE); [|destruct H].
    unfold start_outputs, show_outputs in H. rewrite !in_app_iff in H.
    destruct H as [H|[H|H]].
    + destruct (indicatorWindow w); [|destruct H].
      destruct H as [H|H]; [discriminate|].
      destruct (firstRunShown w); [destruct H|].
      destruct H as [H|[H|[]]]; discriminate.
    + destruct (writable w); [|destruct H].
      destruct H as [H|[]]. congruence.
    + destruct (recorderWindow w); [|destruct H].
      destruct H as [H|[]]. discriminate.
  - destruct (findTimer id w) as [t|]; [|destruct H].
    destruct (cb t).
    + unfold stop_outputs in H. rewrite !in_app_iff in H.
      destruct H as [H|[H|H]].
      * destruct (indicatorWindow w) as [[|]|]; try destruct H as [H|[]];
          try discriminate; destruct H.
      * destruct (recorderWindow w); [|destruct H].
        destruct H as [H|[]]. discriminate.
      * destruct (writable w); [|destruct H].
        destruct H as [H|[]]. congruence.
    + destruct (pythonPath w); [|destruct H].
      destruct H as [H|[]]. discriminate.
    + destruct (indicatorWindow w) as [[|]|]; try destruct H as [H|[]];
        try discriminate; destruct H.
    + destruct H.
  - unfold audio_outputs in H.
    destruct (State_eqb _ _); [|destruct H].
    destruct (float32ToInt16 data); [|destruct H].
    destruct (writable w); [|destruct H].
    destruct (writeUInt32LE _); [|destruct H].
    destruct H as [H|[H|[]]]; congruence.
  - destruct H as [H|[]]. discriminate.
  - destruct (isPaused w); [destruct H|].
    exfalso. apply (paste_outputs_no_write _ _ _ _ _ H).
Qed.



(* ================================================================== *)
(** * The first-run hint *)
(* ================================================================== *)

Lemma hints_app : forall a b, hints (a ++ b) = (hints a + hints b)%nat.
Proof. intros a b. unfold hints. rewrite filter_app, length_app. reflexivity. Qed.

Lemma hints_paste : forall ts f v, hints (paste_outputs f v ts) = 0%nat.
Proof.
  induction ts as [|t ts IH]; intros f v; [reflexivity|].
  cbn [paste_outputs]. rewrite !hints_app, IH. destruct f, v; reflexivity.
Qed.

Lemma hints_audio : forall data w, hints (audio_outputs data w) = 0%nat.
Proof.
  intros data w. unfold audio_outputs.
  destruct (State_eqb _ _); [|reflexivity].
  destruct (float32ToInt16 data); [|reflexivity].
  destruct (writable w); [|reflexivity].
  destruct (writeUInt32LE _); reflexivity.
Qed.

Lemma hints_stop : forall w, hints (stop_outputs w) = 0%nat.
Proof.
  intros w. unfold stop_outputs.
  destruct (indicatorWindow w) as [[|]|], (recorderWindow w), (writable w);
    reflexivity.
Qed.

Lemma hints_start : forall w,
  hints (start_outputs w) =
  match indicatorWindow w with
  | Some _ => if firstRunShown w then 0%nat else 1%nat
  | None => 0%nat
  end.
Proof.
  intros w. unfold start_outputs, show_outputs.
  destruct (indicatorWindow w), (firstRunShown w), (recorderWindow w),
    (writable w); reflexivity.
Qed.

Lemma startRecording_flag : forall w,
  indicatorWindow w <> None -> firstRunShown (startRecording w) = true.
Proof.
  intros w.
  destruct w as [cs pb rst rw cd wd st0 iw frs ip ap lrt nw tm nt
                 ch np pp w32 cl af ot hs].
  destruct iw as [[|]|], frs, rw, cs, ap as [[p [|] [|]]|];
    cbn; intros N; first [reflexivity | exfalso; apply N; reflexivity].
Qed.

(** The flag, once set, stays set. *)
Lemma step_flag : forall e w w',
  step e w = Some w' -> firstRunShown w = true -> firstRunShown w' = true.
Proof.
  intros e w w' Hs F. pose proof (step_quiet e w w' Hs) as Q.
  destruct e; try (apply Q; exact F); cbn [step] in Hs.
  - destruct (findTimer id w) as [t|]; [|discriminate].
    destruct (is_respawn t) eqn:R; [|apply Q; exact F].
    destruct (due t <=? now w); [|discriminate].
    apply some_inj in Hs. subst w'. unfold is_respawn in R.
    destruct (cb t); try discriminate. cbn [runCallback].
    unfold startASRWorker, clearTimeout. world_simpl.
    destruct (pythonPath w); exact F.
  - destruct (isChild p w); [|discriminate].
    apply some_inj in Hs. subst w'. exact F.
  - destruct (isChild p w); [|discriminate].
    apply some_inj in Hs. subst w'. exact F.
Qed.

(** The hint goes out with the start of a recording, the indicator
    existing and the flag not yet set, and sets the flag. *)
Lemma hints_outputs : forall e w,
  (hints (outputs e w) <= 1)%nat
  /\ (firstRunShown w = true -> hints (outputs e w) = 0%nat)
  /\ (forall w', step e w = Some w' -> hints (outputs e w) = 1%nat ->
        firstRunShown w' = true).
Proof.
  intros e w.
  assert (Z0 : forall effs, hints effs = 0%nat ->
            (hints effs <= 1)%nat
            /\ (firstRunShown w = true -> hints effs = 0%nat)
            /\ (forall w', step e w = Some w' -> hints effs = 1%nat ->
                  firstRunShown w' = true)).
  { intros effs E. rewrite E. repeat split; intros; lia. }
  destruct e; cbn [outputs]; try (apply Z0; reflexivity).
  - destruct (negb (isPaused w) && engaged kCtrl kLWin kRWin
              && State_eqb (currentState w) IDLE) eqn:C;
      [|apply Z0; reflexivity].
    rewrite hints_start.
    destruct (indicatorWindow w) as [v|] eqn:I;
      [|apply (Z0 []); reflexivity].
    destruct (firstRunShown w) eqn:F; [apply (Z0 []); reflexivity|].
    split; [lia|]. split; [discriminate|]. intros w' Hs _.
    cbn [step] in Hs. apply some_inj in Hs. subst w'.
    unfold onKeyTick. cbv zeta. rewrite checkInputState_cases.
    unfold engaged in C. world_simpl.
    apply andb_prop in C. destruct C as [C C3].
    apply andb_prop in C. destruct C as [C1 C2].
    apply negb_true_iff in C1. rewrite C1, C2, C3.
    apply startRecording_flag.
    match goal with |- indicatorWindow (disarm ?x) <> None =>
      destruct (disarm_out_fields x) as (_ & Ix & _); rewrite Ix
    end.
    world_simpl. rewrite I. discriminate.
  - destruct (findTimer id w) as [t|]; [|apply Z0; reflexivity].
    destruct (cb t).
    + apply Z0, hints_stop.
    + apply Z0. destruct (pythonPath w); reflexivity.
    + apply Z0. destruct (indicatorWindow w) as [[|]|]; reflexivity.
    + apply Z0. reflexivity.
  - apply Z0, hints_audio.
  - apply Z0. destruct (isPaused w); [reflexivity|apply hints_paste].
Qed.

Lemma run_hints : forall es w w',
  run es w = Some w' ->
  (hints (out w) <= 1)%nat ->
  (firstRunShown w = false -> hints (out w) = 0%nat) ->
  (hints (out w') <= 1)%nat
  /\ (firstRunShown w' = false -> hints (out w') = 0%nat).
Proof.
  induction es as [|e es IH]; intros w w' Hr L Z; cbn [run] in Hr.
  - apply some_inj in Hr. subst w'. split; assumption.
  - destruct (step e w) as [w1|] eqn:S; [|discriminate].
    destruct (hints_outputs e w) as (A & B & C).
    pose proof (step_out _ _ _ S) as O.
    apply (IH w1 w' Hr); rewrite O, hints_app.
    + destruct (firstRunShown w) eqn:F.
      * rewrite (B eq_refl). lia.
      * rewrite (Z eq_refl). lia.
    + intros F1. destruct (firstRunShown w) eqn:F.
      * rewrite (step_flag _ _ _ S F) in F1. discriminate.
      * rewrite (Z eq_refl).
        destruct (hints (outputs e w)) as [|[|n]] eqn:K; [reflexivity| |lia].
        rewrite (C w1 S eq_refl) in F1. discriminate.
Qed.

Lemma run_no_hint : forall es w w',
  run es w = Some w' ->
  firstRunShown w = true -> hints (out w) = 0%nat ->
  firstRunShown w' = true /\ hints (out w') = 0%nat.
Proof.
  induction es as [|e es IH]; intros w w' Hr F Z; cbn [run] in Hr.
  - apply some_inj in Hr. subst w'. split; assumption.
  - destruct (step e w) as [w1|] eqn:S; [|discriminate].
    apply (IH w1 w' Hr); [apply (step_flag _ _ _ S F)|].
    rewrite (step_out _ _ _ S), hints_app, Z.
    destruct (hints_outputs e w) as (_ & B & _). apply (B F).
Qed.

(** X19: the first-run hint is sent at most once.  Over any run of the
    application the hint goes to the indicator at most once; it is never
    sent when the marker file existed at start-up, and it has not been
    sent as long as [firstRunShown] is false. *)
Theorem first_run_hint_at_most_once :
  forall t0 paused shown python onWindows es w,
    run es (boot t0 paused shown python onWindows) = Some w ->
    (hints (out w) <= 1)%nat
    /\ (shown = true -> hints (out w) = 0%nat)
    /\ (firstRunShown w = false -> hints (out w) = 0%nat).
Proof.
  intros t0 paused shown python onWindows es w Hr.
  set (b := boot t0 paused shown python onWindows) in *.
  assert (Hb : hints (out b) = 0%nat /\ firstRunShown b = shown).
  { unfold b, boot, startASRWorker. world_simpl.
    destruct python; split; reflexivity. }
  destruct Hb as [H0 Hf].
  destruct (run_hints es b w Hr) as [L Z];
    [rewrite H0; lia|intros _; exact H0|].
  split; [exact L|]. split; [|exact Z].
  intros ->. apply (run_no_hint es b w Hr Hf H0).
Qed.

Lemma first_run_hint_at_most_once_witness :
  run [] (boot 1000 false true true true) = Some demo_world
  /\ hints (out demo_world) = 0%nat.
Proof.
  assert (R : run [] (boot 1000 false true true true) = Some demo_world)
    by (vm_compute; reflexivity).
  split; [exact R|].
  destruct (first_run_hint_at_most_once 1000 false true true true []
              demo_world R) as (_ & Z & _).
  apply Z. reflexivity.
Defined.

(* ================================================================== *)
(** * No interpreter *)
(* ================================================================== *)

Lemma paste_outputs_no_spawn : forall ts f v q,
  ~ In (Spawn q) (paste_outputs f v ts).
Proof.
  induction ts as [|t ts IH]; intros f v q; [intros []|].
  cbn [paste_outputs]. rewrite !in_app_iff. intros [H|[H|H]].
  - destruct f; [destruct H as [H|[]]; discriminate|destruct H].
  - destruct v; [destruct H as [H|[]]; discriminate|destruct H].
  - apply (IH _ _ _ H).
Qed.

(** A turn spawns only through [startASRWorker] with an interpreter. *)
Lemma outputs_spawn : forall e w q,
  In (Spawn q) (outputs e w) -> pythonPath w = true.
Proof.
  intros e w q H. destruct e; cbn [outputs] in H; try solve [destruct H].
  - destruct (negb (isPaused w) && engaged kCtrl kLWin kRWin
              && State_eqb (currentState w) IDLE); [|destruct H].
    unfold start_outputs, show_outputs in H. rewrite !in_app_iff in H.
    destruct H as [H|[H|H]].
    + destruct (indicatorWindow w); [|destruct H].
      destruct H as [H|H]; [discriminate|].
      destruct (firstRunShown w); [destruct H|].
      destruct H as [H|[H|[]]]; discriminate.
    + destruct (writable w); [|destruct H].
      destruct H as [H|[]]. discriminate.
    + destruct (recorderWindow w); [|destruct H].
      destruct H as [H|[]]. discriminate.
  - destruct (findTimer id w) as [t|]; [|destruct H].
    destruct (cb t).
    + unfold stop_outputs in H. rewrite !in_app_iff in H.
      destruct H as [H|[H|H]].
      * destruct (indicatorWindow w) as [[|]|]; try destruct H as [H|[]];
          try discriminate; destruct H.
      * destruct (recorderWindow w); [|destruct H].
        destruct H as [H|[]]. discriminate.
      * destruct (writable w); [|destruct H].
        destruct H as [H|[]]. discriminate.
    + destruct (pythonPath w); [reflexivity|destruct H].
    + destruct (indicatorWindow w) as [[|]|]; try destruct H as [H|[]];
        try discriminate; destruct H.
    + destruct H.
  - unfold audio_outputs in H.
    destruct (State_eqb _ _); [|destruct H].
    destruct (float32ToInt16 data); [|destruct H].
    destruct (writable w); [|destruct H].
    destruct (writeUInt32LE _); [|destruct H].
    destruct H as [H|[H|[]]]; discriminate.
  - destruct H as [H|[]]. discriminate.
  - destruct (isPaused w); [destruct H|].
    exfalso. apply (paste_outputs_no_spawn _ _ _ _ H).
Qed.

(** Without an interpreter and without a worker, a turn neither spawns
    nor writes, and leaves the world without a worker. *)
Lemma step_no_worker : forall e w w',
  pythonPath w = false -> asrProcess w = None -> children w = [] ->
  step e w = Some w' ->
  pythonPath w' = false /\ asrProcess w' = None /\ children w' = []
  /\ Forall (fun x => is_worker_effect x = false) (outputs e w).
Proof.
  intros e w w' Py Ap Ch Hs.
  assert (O : Forall (fun x => is_worker_effect x = false) (outputs e w)).
  { apply Forall_forall. intros x Hin. destruct x; try reflexivity; exfalso.
    - apply outputs_writes in Hin. unfold writable in Hin.
      rewrite Ap in Hin. discriminate.
    - apply outputs_spawn in Hin. congruence. }
  pose proof (step_quiet e w w' Hs) as Q.
  assert (K : quiet w w' ->
              pythonPath w' = false /\ asrProcess w' = None
              /\ children w' = []).
  { intros (W & _). unfold wk in W. repeat split; congruence. }
  destruct e; try (destruct (K Q) as (A & B & C); auto);
    cbn [step] in Hs.
  - destruct (findTimer id w) as [t|]; [|discriminate].
    destruct (is_respawn t) eqn:R; [|destruct (K Q) as (A & B & C); auto].
    destruct (due t <=? now w); [|discriminate].
    apply some_inj in Hs. subst w'. unfold is_respawn in R.
    destruct (cb t); try discriminate. cbn [runCallback].
    unfold startASRWorker, clearTimeout. world_simpl. rewrite Py.
    cbn [negb]. world_simpl. auto.
  - unfold isChild in Hs. rewrite Ch in Hs. discriminate.
  - unfold isChild in Hs. rewrite Ch in Hs. discriminate.
Qed.

Lemma run_no_worker : forall es w w',
  pythonPath w = false -> asrProcess w = None -> children w = [] ->
  Forall (fun x => is_worker_effect x = false) (out w) ->
  run es w = Some w' ->
  asrProcess w' = None /\ children w' = []
  /\ Forall (fun x => is_worker_effect x = false) (out w')
  /\ Forall (fun e => match e with
                      | WorkerStdout _ _ | WorkerError _ | WorkerClose _ _ =>
                          False
                      | _ => True
                      end) es.
Proof.
  induction es as [|e es IH]; intros w w' Py Ap Ch O Hr; cbn [run] in Hr.
  - apply some_inj in Hr. subst w'. auto.
  - destruct (step e w) as [w1|] eqn:S; [|discriminate].
    destruct (step_no_worker e w w1 Py Ap Ch S) as (A & B & C & D).
    destruct (IH w1 w' A B C) as (X & Y & Z & V); [|exact Hr|].
    { rewrite (step_out _ _ _ S). apply Forall_app. split; assumption. }
    split; [exact X|]. split; [exact Y|]. split; [exact Z|].
    constructor; [|exact V].
    destruct e; try exact I; cbn [step] in S; unfold isChild in S;
      rewrite Ch in S; discriminate.
Qed.

(** X20: without an interpreter there is never a worker.  When no
    interpreter was found at start-up, then over any run of the
    application no process is spawned and nothing is written to one,
    [asrProcess] stays null, no child is running, and no event of a
    worker can occur. *)
Theorem no_interpreter_no_worker :
  forall t0 paused shown onWindows es w,
    run es (boot t0 paused shown false onWindows) = Some w ->
    asrProcess w = None /\ children w = []
    /\ Forall (fun x => is_worker_effect x = false) (out w)
    /\ Forall (fun e => match e with
                        | WorkerStdout _ _ | WorkerError _
                        | WorkerClose _ _ => False
                        | _ => True
                        end) es.
Proof.
  intros t0 paused shown onWindows es w Hr.
  apply (run_no_worker es _ w) in Hr; try reflexivity; [exact Hr|].
  constructor.
Qed.

Lemma no_interpreter_no_worker_witness :
  run [held] (boot 1000 false true false true)
  = Some (onKeyTick (-32768) (-32768) 0 (boot 1000 false true false true))
  /\ asrProcess
       (onKeyTick (-32768) (-32768) 0 (boot 1000 false true false true))
     = None.
Proof.
  assert (R : run [held] (boot 1000 false true false true)
              = Some (onKeyTick (-32768) (-32768) 0
                        (boot 1000 false true false true)))
    by reflexivity.
  split; [exact R|].
  destruct (no_interpreter_no_worker 1000 false true true [held] _ R)
    as [A _].
  exact A.
Defined.
